(** * anpr-vms: a shallow embedding of the server core

    The development follows the server sources:

    - [server/utils/encryption.ts]      -> [encryptCredentials], [decryptCredentials]
    - [server/storage.ts] (MemStorage)  -> [createCamera], [updateCamera], [getRecordings], ...
    - [server/services/ffmpegManager.ts]-> [startHLSStream], [startRecording], [cleanupOldRecordings], ...
    - [server/services/healthMonitor.ts]-> [checkCamera], [checkAllCameras]
    - [server/services/anprWorker.ts]   -> [processFrame], [cleanupCache]
    - [server/routes.ts]                -> the camera and recording handlers, [broadcast]

    JavaScript [Map]s and [Set]s keyed by strings are [gmap string _] and
    [gset string]; numbers that are only compared are rationals (every finite
    double is one, and [>=] on finite doubles is the order of the rationals);
    instants are milliseconds since the epoch in [Z].  What the process cannot
    decide by itself (the clock, [randomUUID], the detector and the text
    extractor, the random nonce) is an explicit argument of the operation that
    consumes it.  The Node library functions the code calls but does not
    define (the cipher, the URL parser, the collation of [localeCompare]) are
    the fields of the class [Platform]. *)

From stdpp Require Import gmap strings list fin_maps.
From Stdlib Require Import QArith ZArith Ascii.
From Stdlib.Strings Require Import Byte.
From Stdlib Require Import DecimalString DecimalPos DecimalN DecimalZ.

Open Scope Z_scope.

(** ** JavaScript values as the code uses them *)

(** A property that may be absent ([undefined]), [null], or hold a value. *)
Inductive JsOpt (A : Type) : Type :=
| Undefined
| Null
| Val (a : A).
Arguments Undefined {A}.
Arguments Null {A}.
Arguments Val {A} a.

(** [x ? _ : _] on a string-or-nothing value: the empty string is falsy. *)
Definition truthy_str (x : JsOpt string) : bool :=
  match x with
  | Val s => negb (String.eqb s "")
  | _ => false
  end.

(** Truthiness of a property holding an object: any object is truthy. *)
Definition truthy_obj {A} (x : JsOpt A) : bool :=
  match x with
  | Val _ => true
  | _ => false
  end.

(** [{...a, ...b}] on one property: a key present in [b] (even with value
    [null]) replaces the one of [a]. *)
Definition spread {A} (a b : JsOpt A) : JsOpt A :=
  match b with
  | Undefined => a
  | _ => b
  end.

(** [x || d] on an optional number: [undefined] and [0] are falsy. *)
Definition or_defaultZ (x : option Z) (d : Z) : Z :=
  match x with
  | Some v => if Z.eqb v 0 then d else v
  | None => d
  end.

Definition or_defaultQ (x : option Q) (d : Q) : Q :=
  match x with
  | Some v => if Qeq_bool v 0 then d else v
  | None => d
  end.

(** [Array.prototype.sort(cmp)]: a stable sort; an element moves in front of
    another only when the comparator is positive the other way round. *)
Fixpoint sort_insert {A} (cmp : A -> A -> Z) (x : A) (l : list A) : list A :=
  match l with
  | [] => [x]
  | y :: l' => if Z.leb (cmp x y) 0 then x :: y :: l' else y :: sort_insert cmp x l'
  end.

Definition js_sort {A} (cmp : A -> A -> Z) (l : list A) : list A :=
  foldr (sort_insert cmp) [] l.

(** [String.prototype.split(sep)] for a one-character separator. *)
Fixpoint split_on (sep : ascii) (s : string) : list string :=
  match s with
  | EmptyString => [EmptyString]
  | String c r =>
      if Ascii.eqb c sep then EmptyString :: split_on sep r
      else match split_on sep r with
           | [] => [String c EmptyString]
           | h :: t => String c h :: t
           end
  end.

(** [String.prototype.startsWith]. *)
Definition startsWith (s p : string) : bool := String.prefix p s.

(** ** The platform: Node library functions the sources call *)

(** What [new URL(s)] exposes of a URL. *)
Record URL := {
  protocol : string;
  host : string;
  hostname : string;
  pathname : string;
  search : string
}.

Class Platform := {
  (** [crypto.createCipher("aes-256-gcm", ENCRYPTION_KEY)], then [update],
      [final] and [getAuthTag]: cipher text and tag of a plain text.  The
      key and the cipher's nonce both derive from the password alone. *)
  gcm_encrypt : list byte -> list byte * list byte;
  (** [crypto.createDecipher] with the same password, [setAuthTag tag], then
      [update] and [final]; [None] when one of them throws. *)
  gcm_decrypt : list byte -> list byte -> option (list byte);
  (** [new URL(s)]; [None] when it throws. *)
  new_URL : string -> option URL;
  (** [a.localeCompare(b)]. *)
  localeCompare : string -> string -> Z;
  (** [date.toISOString()] of an instant. *)
  toISOString : Z -> string;
  (** [d.setDate(d.getDate() - n)] on the date [d] of an instant: the
      instant [d] holds afterwards, the same local time of day [n] days
      earlier on the local calendar (a local day has 23, 24 or 25 hours where
      the zone changes its offset). *)
  daysBefore : Z -> Z -> Z
}.

(** The cipher opens what it sealed. *)
Definition gcm_sound `{Platform} : Prop :=
  forall p : list byte, gcm_decrypt (snd (gcm_encrypt p)) (fst (gcm_encrypt p)) = Some p.

(** ** server/utils/encryption.ts *)

Definition hex_digit (n : N) : ascii :=
  match n with
  | 0%N => "0" | 1%N => "1" | 2%N => "2" | 3%N => "3"
  | 4%N => "4" | 5%N => "5" | 6%N => "6" | 7%N => "7"
  | 8%N => "8" | 9%N => "9" | 10%N => "a" | 11%N => "b"
  | 12%N => "c" | 13%N => "d" | 14%N => "e" | _ => "f"
  end%char.

Definition hex_value (c : ascii) : option N :=
  let n := N_of_ascii c in
  if (48 <=? n)%N && (n <=? 57)%N then Some (n - 48)%N
  else if (97 <=? n)%N && (n <=? 102)%N then Some (n - 87)%N
  else if (65 <=? n)%N && (n <=? 70)%N then Some (n - 55)%N
  else None.

(** [buf.toString("hex")]: two lower-case digits per byte. *)
Fixpoint to_hex (bs : list byte) : string :=
  match bs with
  | [] => EmptyString
  | b :: r =>
      let n := Byte.to_N b in
      String (hex_digit (n / 16)) (String (hex_digit (n mod 16)) (to_hex r))
  end.

(** [Buffer.from(s, "hex")]: decodes pairs of digits and stops, without an
    error, at the first pair that is not hexadecimal or at a lone last
    character. *)
Fixpoint from_hex (s : string) : list byte :=
  match s with
  | String a (String b r) =>
      match hex_value a, hex_value b with
      | Some x, Some y =>
          match Byte.of_N (16 * x + y) with
          | Some v => v :: from_hex r
          | None => []
          end
      | _, _ => []
      end
  | _ => []
  end.

(** A string as its UTF-8 bytes and back (a Rocq string is a byte string). *)
Definition utf8_encode (s : string) : list byte := String.list_byte_of_string s.
Definition utf8_decode (b : list byte) : string := String.string_of_list_byte b.

(** [encryptCredentials(text)].  [iv] is the result of
    [crypto.randomBytes(16)]: it is written into the result and is not given
    to the cipher. *)
Definition encryptCredentials `{Platform} (iv : list byte) (text : string) : string :=
  let '(encrypted, authTag) := gcm_encrypt (utf8_encode text) in
  to_hex iv +:+ ":" +:+ to_hex authTag +:+ ":" +:+ to_hex encrypted.

(** [decryptCredentials(encryptedText)]; [None] when it throws.  With fewer
    than three fields a field is [undefined] and [Buffer.from] throws. The
    decoded [iv] is not used. *)
Definition decryptCredentials `{Platform} (encryptedText : string) : option string :=
  match split_on ":" encryptedText with
  | ivHex :: authTagHex :: encrypted :: _ =>
      let iv := from_hex ivHex in
      let authTag := from_hex authTagHex in
      utf8_decode <$> gcm_decrypt authTag (from_hex encrypted)
  | _ => None
  end.

(** ** shared/schema.ts: the rows *)

Record Layout := { layout_row : Z; layout_col : Z; layout_size : Z }.

(** The [recording] and [anpr] columns are JSON: a property the code reads
    with a fallback ([x || d]) may be absent. *)
Record RecordingPolicy := {
  mode : string;
  segmentSeconds : Z;
  retainDays : option Z
}.

Record AnprPolicy := {
  enabled : bool;
  sampleEveryNthFrame : option Z;
  confidenceThreshold : option Q
}.

Module Camera.
Record t := mk {
  id : string;
  name : string;
  rtspUrl : string;
  username : JsOpt string;
  encryptedPassword : JsOpt string;
  (** not a column: a key [password] reaches the row only through
      [updateCamera], when the update carries an empty password *)
  password : JsOpt string;
  location : JsOpt string;
  tags : JsOpt (list string);
  (** a JSON object, as its list of keys and values *)
  enabledProtocols : JsOpt (list (string * bool));
  layout : JsOpt Layout;
  recording : JsOpt RecordingPolicy;
  anpr : JsOpt AnprPolicy;
  status : string;
  lastSeen : JsOpt Z;
  metadata : JsOpt string;
  createdAt : Z;
  updatedAt : Z
}.
End Camera.

(** The body of a create or update request, after [JSON.parse]: every
    property may be absent.  [insertCameraSchema] and [updateCameraSchema]
    keep exactly these keys. *)
Module CameraBody.
Record t := mk {
  name : JsOpt string;
  rtspUrl : JsOpt string;
  username : JsOpt string;
  password : JsOpt string;
  location : JsOpt string;
  tags : JsOpt (list string);
  enabledProtocols : JsOpt (list (string * bool));
  layout : JsOpt Layout;
  recording : JsOpt RecordingPolicy;
  anpr : JsOpt AnprPolicy;
  metadata : JsOpt string
}.
End CameraBody.

Module Recording.
Record t := mk {
  id : string;
  cameraId : string;
  date : Z;
  startTime : Z;
  endTime : JsOpt Z;
  path : string;
  durationSec : JsOpt Z;
  sizeBytes : JsOpt Z;
  format : string;
  metadata : JsOpt string;
  createdAt : Z
}.
End Recording.

Record BBox := { bbox_x : Z; bbox_y : Z; bbox_width : Z; bbox_height : Z }.

Module AnprEvent.
Record t := mk {
  id : string;
  cameraId : string;
  timestamp : Z;
  plate : string;
  confidence : Q;
  snapshotPath : JsOpt string;
  bbox : BBox;
  metadata : JsOpt string;
  createdAt : Z
}.
End AnprEvent.

Definition is_val {A} (x : JsOpt A) : bool :=
  match x with Val _ => true | _ => false end.
Definition is_null {A} (x : JsOpt A) : bool :=
  match x with Null => true | _ => false end.

(** [insertCameraSchema.parse]: [name] and [rtspUrl] are required strings,
    [password] is an optional string, the other columns are nullable; [None]
    when it throws. *)
Definition parseInsertCamera (b : CameraBody.t) : option CameraBody.t :=
  if is_val (CameraBody.name b) && is_val (CameraBody.rtspUrl b)
     && negb (is_null (CameraBody.password b))
  then Some b else None.

(** [updateCameraSchema = insertCameraSchema.partial()]: the same, every key
    optional. *)
Definition parseUpdateCamera (b : CameraBody.t) : option CameraBody.t :=
  if negb (is_null (CameraBody.name b)) && negb (is_null (CameraBody.rtspUrl b))
     && negb (is_null (CameraBody.password b))
  then Some b else None.

(** [const { password, ...rest } = body]. *)
Definition withoutPassword (b : CameraBody.t) : CameraBody.t :=
  CameraBody.mk (CameraBody.name b) (CameraBody.rtspUrl b) (CameraBody.username b)
    Undefined (CameraBody.location b) (CameraBody.tags b)
    (CameraBody.enabledProtocols b) (CameraBody.layout b) (CameraBody.recording b)
    (CameraBody.anpr b) (CameraBody.metadata b).

(** ** server/storage.ts: MemStorage

    The [users] map plays no part in what follows and is left out. *)

Record MemStorage := {
  cameras : gmap string Camera.t;
  recordings : gmap string Recording.t;
  anprEvents : gmap string AnprEvent.t
}.

(** [Array.from(map.values())], in the order of the keys (a JavaScript map
    yields the order of insertion; the callers below sort the result or ask
    what it contains). *)
Definition values {A} (m : gmap string A) : list A := (map_to_list m).*2.

Definition from_val {A} (d : A) (x : JsOpt A) : A :=
  match x with Val a => a | _ => d end.

Definition getCameras `{Platform} (s : MemStorage) : list Camera.t :=
  js_sort (fun a b => localeCompare (Camera.name a) (Camera.name b)) (values (cameras s)).

Definition getCamera (s : MemStorage) (id : string) : option Camera.t :=
  cameras s !! id.

(** [createCamera(insertCamera)]: [id] is the result of [randomUUID()], [now]
    of [new Date()].  The literal properties after the spread win over the
    ones of [insertCamera]: [metadata] and [encryptedPassword] are [null]
    whatever the caller supplied. *)
Definition createCamera (id : string) (now : Z) (insertCamera : CameraBody.t)
    (insertEncryptedPassword : JsOpt string) (s : MemStorage) : Camera.t * MemStorage :=
  let camera :=
    Camera.mk id
      (from_val "" (CameraBody.name insertCamera))
      (from_val "" (CameraBody.rtspUrl insertCamera))
      (CameraBody.username insertCamera)
      Null
      (CameraBody.password insertCamera)
      (CameraBody.location insertCamera)
      (CameraBody.tags insertCamera)
      (CameraBody.enabledProtocols insertCamera)
      (CameraBody.layout insertCamera)
      (CameraBody.recording insertCamera)
      (CameraBody.anpr insertCamera)
      "offline" Null Null now now in
  (camera, {| cameras := <[id := camera]> (cameras s);
              recordings := recordings s;
              anprEvents := anprEvents s |}).

(** [updateCamera(id, updates)]: [{...camera, ...updates, updatedAt}]. *)
Definition applyUpdates (camera : Camera.t) (updates : CameraBody.t) (now : Z) : Camera.t :=
  Camera.mk (Camera.id camera)
    (from_val (Camera.name camera) (CameraBody.name updates))
    (from_val (Camera.rtspUrl camera) (CameraBody.rtspUrl updates))
    (spread (Camera.username camera) (CameraBody.username updates))
    (Camera.encryptedPassword camera)
    (spread (Camera.password camera) (CameraBody.password updates))
    (spread (Camera.location camera) (CameraBody.location updates))
    (spread (Camera.tags camera) (CameraBody.tags updates))
    (spread (Camera.enabledProtocols camera) (CameraBody.enabledProtocols updates))
    (spread (Camera.layout camera) (CameraBody.layout updates))
    (spread (Camera.recording camera) (CameraBody.recording updates))
    (spread (Camera.anpr camera) (CameraBody.anpr updates))
    (Camera.status camera)
    (Camera.lastSeen camera)
    (spread (Camera.metadata camera) (CameraBody.metadata updates))
    (Camera.createdAt camera)
    now.

Definition updateCamera (id : string) (updates : CameraBody.t) (now : Z)
    (s : MemStorage) : option Camera.t * MemStorage :=
  match cameras s !! id with
  | None => (None, s)
  | Some camera =>
      let updatedCamera := applyUpdates camera updates now in
      (Some updatedCamera,
       {| cameras := <[id := updatedCamera]> (cameras s);
          recordings := recordings s;
          anprEvents := anprEvents s |})
  end.

(** [deleteCamera(id)]: [this.cameras.delete(id)], nothing else. *)
Definition deleteCamera (id : string) (s : MemStorage) : bool * MemStorage :=
  (bool_decide (is_Some (cameras s !! id)),
   {| cameras := delete id (cameras s);
      recordings := recordings s;
      anprEvents := anprEvents s |}).

Record RecordingFilters := {
  f_cameraId : option string;
  f_from : option Z;
  f_to : option Z
}.

Definition keep_if {A} (o : option A) (p : A -> bool) : bool :=
  match o with Some a => p a | None => true end.

(** [getRecordings(filters)]: an empty [cameraId] is falsy and filters
    nothing; the result is ordered by [startTime], latest first. *)
Definition getRecordings (filters : RecordingFilters) (s : MemStorage) : list Recording.t :=
  let all := values (recordings s) in
  let byCamera :=
    match f_cameraId filters with
    | Some c => if String.eqb c "" then all
                else List.filter (fun r => String.eqb (Recording.cameraId r) c) all
    | None => all
    end in
  let byFrom :=
    List.filter (fun r => keep_if (f_from filters) (fun f => f <=? Recording.startTime r)) byCamera in
  let byTo :=
    List.filter (fun r => keep_if (f_to filters) (fun t => Recording.startTime r <=? t)) byFrom in
  js_sort (fun a b => Recording.startTime b - Recording.startTime a) byTo.

Definition getRecording (s : MemStorage) (id : string) : option Recording.t :=
  recordings s !! id.

(** What [createRecording] receives: a row without [id] and [createdAt]. *)
Definition createRecording (id : string) (now : Z) (r : Recording.t)
    (s : MemStorage) : Recording.t * MemStorage :=
  let recording :=
    Recording.mk id (Recording.cameraId r) (Recording.date r) (Recording.startTime r)
      (Recording.endTime r) (Recording.path r) (Recording.durationSec r)
      (Recording.sizeBytes r) (Recording.format r)
      (if truthy_obj (Recording.metadata r) then Recording.metadata r else Val "{}")
      now in
  (recording, {| cameras := cameras s;
                 recordings := <[id := recording]> (recordings s);
                 anprEvents := anprEvents s |}).

(** [updateRecording(id, { endTime, durationSec, sizeBytes })]. *)
Definition updateRecording (id : string) (endTime durationSec sizeBytes : Z)
    (s : MemStorage) : option Recording.t * MemStorage :=
  match recordings s !! id with
  | None => (None, s)
  | Some r =>
      let updatedRecording :=
        Recording.mk (Recording.id r) (Recording.cameraId r) (Recording.date r)
          (Recording.startTime r) (Val endTime) (Recording.path r) (Val durationSec)
          (Val sizeBytes) (Recording.format r) (Recording.metadata r)
          (Recording.createdAt r) in
      (Some updatedRecording,
       {| cameras := cameras s;
          recordings := <[id := updatedRecording]> (recordings s);
          anprEvents := anprEvents s |})
  end.

Definition deleteRecording (id : string) (s : MemStorage) : MemStorage :=
  {| cameras := cameras s;
     recordings := delete id (recordings s);
     anprEvents := anprEvents s |}.

(** [createAnprEvent(insertEvent)]. *)
Definition createAnprEvent (id : string) (now : Z) (e : AnprEvent.t)
    (s : MemStorage) : AnprEvent.t * MemStorage :=
  let event :=
    AnprEvent.mk id (AnprEvent.cameraId e) (AnprEvent.timestamp e) (AnprEvent.plate e)
      (AnprEvent.confidence e) (AnprEvent.snapshotPath e) (AnprEvent.bbox e)
      (if truthy_obj (AnprEvent.metadata e) then AnprEvent.metadata e else Val "{}")
      now in
  (event, {| cameras := cameras s;
             recordings := recordings s;
             anprEvents := <[id := event]> (anprEvents s) |}).

(** ** The running server: its state and what it does to the outside *)

(** A transcoder child, by what distinguishes its command line. *)
Record Child := { child_input : string; child_output : string }.

Record ProbeMeta := { fps : Z; bitrate : Z; resolution : string }.

(** The [data] of a frame [{event, data}]. *)
Inductive Payload :=
| PCamera (camera : Camera.t)
| PCameraDeleted (id : string)
| PRecording (cameraId : string) (recording : JsOpt Recording.t)
| PCameraStatus (id : string) (status : string) (meta : option ProbeMeta)
    (lastError : JsOpt string)
| PAnprEvent (cameraId : string) (event : AnprEvent.t).

Record Frame := { event : string; data : Payload }.

Record WsClient := { ws_id : Z; readyState : Z }.

(** [WebSocket.OPEN]. *)
Definition OPEN : Z := 1.

(** What the server does to the outside, in the order it does it. *)
Inductive Action :=
| Spawn (c : Child)
| Kill (c : Child)
| Unlink (path : string)
| CameraRowDeleted (id : string)
| RecordingRowDeleted (id : string)
| Emit (f : Frame)
| Broadcast (f : Frame)
| Send (ws : Z) (f : Frame).

(** The module-level singletons.  [ff_recordings] is
    [FFmpegManager.recordings] (camera id to child and recording id);
    [files] maps each existing file to its size. *)
Record World := {
  storage : MemStorage;
  streams : gmap string Child;
  ff_recordings : gmap string (Child * string);
  monitoredCameras : gset string;
  workers : gmap string Z;
  processingCache : gmap string (gset string);
  files : gmap string Z;
  wsClients : list WsClient;
  log : list Action
}.

Definition set_storage (s : MemStorage) (w : World) : World :=
  {| storage := s; streams := streams w; ff_recordings := ff_recordings w;
     monitoredCameras := monitoredCameras w; workers := workers w;
     processingCache := processingCache w; files := files w;
     wsClients := wsClients w; log := log w |}.

Definition set_streams (m : gmap string Child) (w : World) : World :=
  {| storage := storage w; streams := m; ff_recordings := ff_recordings w;
     monitoredCameras := monitoredCameras w; workers := workers w;
     processingCache := processingCache w; files := files w;
     wsClients := wsClients w; log := log w |}.

Definition set_ff_recordings (m : gmap string (Child * string)) (w : World) : World :=
  {| storage := storage w; streams := streams w; ff_recordings := m;
     monitoredCameras := monitoredCameras w; workers := workers w;
     processingCache := processingCache w; files := files w;
     wsClients := wsClients w; log := log w |}.

Definition set_monitoredCameras (m : gset string) (w : World) : World :=
  {| storage := storage w; streams := streams w; ff_recordings := ff_recordings w;
     monitoredCameras := m; workers := workers w;
     processingCache := processingCache w; files := files w;
     wsClients := wsClients w; log := log w |}.

Definition set_workers (m : gmap string Z) (w : World) : World :=
  {| storage := storage w; streams := streams w; ff_recordings := ff_recordings w;
     monitoredCameras := monitoredCameras w; workers := m;
     processingCache := processingCache w; files := files w;
     wsClients := wsClients w; log := log w |}.

Definition set_processingCache (m : gmap string (gset string)) (w : World) : World :=
  {| storage := storage w; streams := streams w; ff_recordings := ff_recordings w;
     monitoredCameras := monitoredCameras w; workers := workers w;
     processingCache := m; files := files w;
     wsClients := wsClients w; log := log w |}.

Definition set_files (m : gmap string Z) (w : World) : World :=
  {| storage := storage w; streams := streams w; ff_recordings := ff_recordings w;
     monitoredCameras := monitoredCameras w; workers := workers w;
     processingCache := processingCache w; files := m;
     wsClients := wsClients w; log := log w |}.

Definition append_log (l : list Action) (w : World) : World :=
  {| storage := storage w; streams := streams w; ff_recordings := ff_recordings w;
     monitoredCameras := monitoredCameras w; workers := workers w;
     processingCache := processingCache w; files := files w;
     wsClients := wsClients w; log := log w ++ l |}.

Definition add_log (a : Action) (w : World) : World := append_log [a] w.

(** *** Computations that read and change the world and may throw *)

Inductive Outcome (A : Type) : Type :=
| Returned (a : A) (w : World)
| Threw (message : string) (w : World).
Arguments Returned {A} a w.
Arguments Threw {A} message w.

Definition M (A : Type) : Type := World -> Outcome A.

#[global] Instance M_ret : MRet M := fun A a w => Returned a w.

#[global] Instance M_bind : MBind M := fun A B k m w =>
  match m w with
  | Returned a w' => k a w'
  | Threw e w' => Threw e w'
  end.

Definition throw {A} (message : string) : M A := fun w => Threw message w.

(** [try { m } catch (e) { h e }]. *)
Definition try_catch {A} (m : M A) (h : string -> M A) : M A :=
  fun w => match m w with
           | Returned a w' => Returned a w'
           | Threw e w' => h e w'
           end.

(** [try { m } finally { f }], for an [f] that does not throw. *)
Definition try_finally {A} (m : M A) (f : World -> World) : M A :=
  fun w => match m w with
           | Returned a w' => Returned a (f w')
           | Threw e w' => Threw e (f w')
           end.

Definition gets {A} (f : World -> A) : M A := fun w => Returned (f w) w.

Definition modify (f : World -> World) : M unit := fun w => Returned tt (f w).

(** [for (const x of l) { await f(x) }]. *)
Fixpoint for_each {A} (l : list A) (f : A -> M unit) : M unit :=
  match l with
  | [] => mret tt
  | x :: r => f x;; for_each r f
  end.

(** The world a computation leaves, however it ends. *)
Definition world_of {A} (o : Outcome A) : World :=
  match o with
  | Returned _ w => w
  | Threw _ w => w
  end.

Definition result_of {A} (o : Outcome A) : option A :=
  match o with
  | Returned a _ => Some a
  | Threw _ _ => None
  end.

(** A storage method as a computation. *)
Definition on_storage {A} (f : MemStorage -> A * MemStorage) : M A :=
  fun w => let '(a, s) := f (storage w) in Returned a (set_storage s w).

(** ** server/routes.ts: [broadcast] *)

(** The [ws.send(message)] of [wsClients.forEach]: one for each client that
    is open. *)
Definition sends (clients : list WsClient) (f : Frame) : list Action :=
  omap (fun ws => if Z.eqb (readyState ws) OPEN then Some (Send (ws_id ws) f) else None)
       clients.

(** [broadcast(event, data)].  (The connection handler of the socket server
    only writes to the console: nothing in the sources adds a client to
    [wsClients].) *)
Definition broadcast (event : string) (data : Payload) : M unit :=
  let f := {| event := event; data := data |} in
  modify (fun w => append_log (Broadcast f :: sends (wsClients w) f) w).

(** [emitter.emit(event, data)], with the listeners that [registerRoutes]
    installs on the health monitor and on the ANPR worker: each forwards to
    [broadcast]. *)
Definition emit (event : string) (data : Payload) : M unit :=
  modify (add_log (Emit {| event := event; data := data |}));;
  broadcast event data.

(** ** server/services/ffmpegManager.ts

    File names are relative to [process.cwd()]. *)

Definition stopStream (cameraId : string) : M unit :=
  stream ← gets (fun w => streams w !! cameraId);
  match stream with
  | Some c =>
      modify (add_log (Kill c));;
      modify (fun w => set_streams (delete cameraId (streams w)) w)
  | None => mret tt
  end.

(** "Build RTSP URL with credentials", the block that [startHLSStream],
    [startRecording] and [takeSnapshot] share: it throws when the stored
    secret does not open or the address does not parse. *)
Definition resolveRtspUrl `{Platform} (camera : Camera.t) : M string :=
  if truthy_str (Camera.username camera) && truthy_str (Camera.encryptedPassword camera)
  then
    match decryptCredentials (from_val "" (Camera.encryptedPassword camera)) with
    | None => throw "Unsupported state or unable to authenticate data"
    | Some password =>
        match new_URL (Camera.rtspUrl camera) with
        | None => throw "Invalid URL"
        | Some u =>
            mret (protocol u +:+ "//" +:+ from_val "" (Camera.username camera) +:+ ":"
                  +:+ password +:+ "@" +:+ host u +:+ pathname u +:+ search u)
        end
    end
  else mret (Camera.rtspUrl camera).

(** [startHLSStream(cameraId)].  What the child does later (its [exit] and
    [error] events, which drop it from [streams] and, on a non-zero exit
    code, start it again after five seconds) comes from outside and is not
    part of the call. *)
Definition startHLSStream `{Platform} (cameraId : string) : M unit :=
  camera ← gets (fun w => getCamera (storage w) cameraId);
  match camera with
  | None => throw ("Camera " +:+ cameraId +:+ " not found")
  | Some camera =>
      stopStream cameraId;;
      rtspUrl ← resolveRtspUrl camera;
      let outputDir := "streams/" +:+ cameraId +:+ "/live" in
      let ffmpeg := {| child_input := rtspUrl; child_output := outputDir +:+ "/index.m3u8" |} in
      modify (add_log (Spawn ffmpeg));;
      modify (fun w => set_streams (<[cameraId := ffmpeg]> (streams w)) w)
  end.

Definition restartStream `{Platform} (cameraId : string) : M unit :=
  stopStream cameraId;;
  startHLSStream cameraId.

(** [s.replace(/[:.]/g, "-")]. *)
Fixpoint dash_colons_dots (s : string) : string :=
  match s with
  | EmptyString => EmptyString
  | String c r =>
      String (if Ascii.eqb c ":" || Ascii.eqb c "." then "-"%char else c) (dash_colons_dots r)
  end.

(** [startRecording(cameraId)]: [id] is the [randomUUID()] of the new row,
    [now] the [new Date()] of the call. *)
Definition startRecording `{Platform} (cameraId : string) (id : string) (now : Z)
    : M Recording.t :=
  camera ← gets (fun w => getCamera (storage w) cameraId);
  match camera with
  | None => throw ("Camera " +:+ cameraId +:+ " not found")
  | Some camera =>
      recording_active ← gets (fun w => bool_decide (is_Some (ff_recordings w !! cameraId)));
      if (recording_active : bool)
      then throw ("Camera " +:+ cameraId +:+ " is already recording")
      else
        rtspUrl ← resolveRtspUrl camera;
        let dateStr := default "" (head (split_on "T" (toISOString now))) in
        let outputDir := "records/" +:+ cameraId +:+ "/" +:+ dateStr in
        let filename := "recording_" +:+ dash_colons_dots (toISOString now) +:+ ".mp4" in
        let outputPath := outputDir +:+ "/" +:+ filename in
        recording ← on_storage (createRecording id now
          (Recording.mk "" cameraId now now Null outputPath Null Null "mp4" Null 0));
        let ffmpeg := {| child_input := rtspUrl; child_output := outputPath |} in
        modify (add_log (Spawn ffmpeg));;
        modify (fun w => set_ff_recordings
                           (<[cameraId := (ffmpeg, Recording.id recording)]> (ff_recordings w)) w);;
        mret recording
  end.

(** [stopRecording(cameraId)]: [null] when the camera is not recording,
    [undefined] when the row is gone, the finalized row otherwise. *)
Definition stopRecording (cameraId : string) (now : Z) : M (JsOpt Recording.t) :=
  recordingInfo ← gets (fun w => ff_recordings w !! cameraId);
  match recordingInfo with
  | None => mret Null
  | Some (ffmpeg, recordingId) =>
      modify (add_log (Kill ffmpeg));;
      modify (fun w => set_ff_recordings (delete cameraId (ff_recordings w)) w);;
      recording ← gets (fun w => getRecording (storage w) recordingId);
      match recording with
      | Some recording =>
          let endTime := now in
          let durationSec := (endTime - Recording.startTime recording) / 1000 in
          sizeBytes ← gets (fun w => default 0 (files w !! Recording.path recording));
          updated ← on_storage (updateRecording recordingId endTime durationSec sizeBytes);
          mret (match updated with Some r => Val r | None => Undefined end)
      | None => mret Undefined
      end
  end.

(** [fs.unlink(path)]: throws when there is no such file. *)
Definition unlink (path : string) : M unit :=
  present ← gets (fun w => bool_decide (is_Some (files w !! path)));
  if (present : bool)
  then modify (add_log (Unlink path));;
       modify (fun w => set_files (delete path (files w)) w)
  else throw "ENOENT".

Definition retainDays_of (camera : Camera.t) : Z :=
  match Camera.recording camera with
  | Val recording => or_defaultZ (retainDays recording) 7
  | _ => 7
  end.

(** The body of the inner loop of [cleanupOldRecordings]: when [fs.unlink]
    throws, the [catch] logs and the row stays. *)
Definition cleanupRecording (recording : Recording.t) : M unit :=
  try_catch
    (unlink (Recording.path recording);;
     modify (add_log (RecordingRowDeleted (Recording.id recording)));;
     modify (fun w => set_storage (deleteRecording (Recording.id recording) (storage w)) w))
    (fun _ => mret tt).

(** The cutoff for a camera when the clock reads [now]:
    [cutoffDate.setDate(cutoffDate.getDate() - retainDays)] on
    [cutoffDate = new Date()]. *)
Definition cutoffDate `{Platform} (camera : Camera.t) (now : Z) : Z :=
  daysBefore now (retainDays_of camera).

(** The body of the outer loop: [now] is the [new Date()] of this turn. *)
Definition cleanupCamera `{Platform} (now : Z) (camera : Camera.t) : M unit :=
  oldRecordings ← gets (fun w =>
    getRecordings {| f_cameraId := Some (Camera.id camera);
                     f_from := None;
                     f_to := Some (cutoffDate camera now) |} (storage w));
  for_each oldRecordings cleanupRecording.

(** [cleanupOldRecordings()].  [clock id] is the [new Date()] taken in the
    turn of the loop for camera [id]. *)
Definition cleanupOldRecordings `{Platform} (clock : string -> Z) : M unit :=
  allCameras ← gets (fun w => getCameras (storage w));
  for_each allCameras (fun camera => cleanupCamera (clock (Camera.id camera)) camera).

(** ** server/services/healthMonitor.ts *)

Record ProbeResult := {
  connected : bool;
  probe_metadata : option ProbeMeta;
  probe_error : JsOpt string
}.

(** The hosts the simulated check holds reachable. *)
Definition simulateNetworkCheck `{Platform} (rtspUrl : string) : bool :=
  match new_URL rtspUrl with
  | Some url => String.eqb (hostname url) "localhost" || startsWith (hostname url) "192.168."
  | None => false
  end.

Definition probeRTSPStream `{Platform} (rtspUrl : string)
    (username encryptedPassword : JsOpt string) : ProbeResult :=
  if truthy_str username && truthy_str encryptedPassword
     && negb (bool_decide (is_Some (new_URL rtspUrl)))
  then {| connected := false; probe_metadata := None; probe_error := Val "Invalid URL" |}
  else if simulateNetworkCheck rtspUrl
  then {| connected := true;
          probe_metadata := Some {| fps := 25; bitrate := 2000; resolution := "1920x1080" |};
          probe_error := Undefined |}
  else {| connected := false; probe_metadata := None;
          probe_error := Val "Stream unreachable" |}.

(** [checkCamera(cameraId)].  The status of the row is read and compared; no
    statement writes the new status to the row ("Status updates not available
    in current schema - using events instead"). *)
Definition checkCamera `{Platform} (cameraId : string) : M unit :=
  try_catch
    (camera ← gets (fun w => getCamera (storage w) cameraId);
     match camera with
     | None => modify (fun w => set_monitoredCameras (monitoredCameras w ∖ {[cameraId]}) w)
     | Some camera =>
         let status := probeRTSPStream (Camera.rtspUrl camera) (Camera.username camera)
                         (Camera.encryptedPassword camera) in
         let lastStatus := Camera.status camera in
         let newStatus := if connected status then "online" else "offline" in
         if negb (String.eqb lastStatus newStatus)
         then
           emit "camera-status"
             (PCameraStatus cameraId newStatus (probe_metadata status) (probe_error status));;
           if String.eqb newStatus "online" && negb (String.eqb lastStatus "online")
           then try_catch (startHLSStream cameraId) (fun _ => mret tt)
           else mret tt
         else mret tt
     end)
    (fun _ => mret tt).

(** One tick: the cameras of the monitored set, one after the other. *)
Definition checkAllCameras `{Platform} : M unit :=
  ids ← gets (fun w => elements (monitoredCameras w));
  for_each ids checkCamera.

Definition addCamera (cameraId : string) : M unit :=
  modify (fun w => set_monitoredCameras ({[cameraId]} ∪ monitoredCameras w) w).

Definition removeCamera (cameraId : string) : M unit :=
  modify (fun w => set_monitoredCameras (monitoredCameras w ∖ {[cameraId]}) w).

(** ** server/services/anprWorker.ts *)

Module Detection.
Record t := mk {
  bbox : BBox;
  confidence : Q;
  metadata : JsOpt string
}.
End Detection.

(** What one turn of the detection loop takes from outside: the detection
    itself, the answer of [runOCR] for it ([None] is [null]), the clock
    ([Date.now()], also the event's [timestamp]) and the [randomUUID()] of the
    event row. *)
Record Read := {
  detection : Detection.t;
  plateText : option string;
  now : Z;
  uuid : string
}.

(** What [extractFrame] leaves: the temporary file and its size. *)
Record FrameGrab := { framePath : string; frameBytes : Z }.

(** The literal [0.8], exactly: the double nearest to eight tenths. *)
Definition DEFAULT_CONFIDENCE_THRESHOLD : Q := 3602879701896397 # 4503599627370496.

(** [`${n}`] for an integer. *)
Definition decimal (n : Z) : string := NilZero.string_of_int (Z.to_int n).

(** [`${plateText}_${Math.floor(Date.now() / 5000)}`]. *)
Definition cacheKey (plateText : string) (now : Z) : string :=
  plateText +:+ "_" +:+ decimal (now / 5000).

(** [plateText && detection.confidence >= (anpr.confidenceThreshold || 0.8)]. *)
Definition accepted (anpr : AnprPolicy) (r : Read) : bool :=
  match plateText r with
  | Some p =>
      negb (String.eqb p "")
      && Qle_bool (or_defaultQ (confidenceThreshold anpr) DEFAULT_CONFIDENCE_THRESHOLD)
           (Detection.confidence (detection r))
  | None => false
  end.

(** The body of [for (const detection of detections)].  When the worker
    holds no set for the camera, [cache?.has] is [undefined] and [cache?.add]
    does nothing. *)
Definition processDetection (cameraId : string) (anpr : AnprPolicy) (frame : FrameGrab)
    (r : Read) : M unit :=
  if accepted anpr r then
    let plate := default "" (plateText r) in
    cache ← gets (fun w => processingCache w !! cameraId);
    let key := cacheKey plate (now r) in
    if negb (match cache with
             | Some keys => bool_decide (key ∈ keys)
             | None => false
             end)
    then
      match cache with
      | Some keys =>
          modify (fun w => set_processingCache
                             (<[cameraId := {[key]} ∪ keys]> (processingCache w)) w)
      | None => mret tt
      end;;
      anprEvent ← on_storage (createAnprEvent (uuid r) (now r)
        (AnprEvent.mk "" cameraId (now r) plate (Detection.confidence (detection r))
           (Val (framePath frame)) (Detection.bbox (detection r))
           (Detection.metadata (detection r)) 0));
      emit "anpr-event" (PAnprEvent cameraId anprEvent)
    else mret tt
  else mret tt.

(** The [finally] block of [processFrame]: [fs.unlink(framePath)] in a [try]
    whose [catch] ignores the error. *)
Definition discardFrame (framePath : string) (w : World) : World :=
  world_of (try_catch (unlink framePath) (fun _ => mret tt) w).

(** [processFrame(cameraId)]: [frame] is the outcome of [extractFrame] ([None]
    when no frame could be taken), [reads] the detections of [detectPlates]
    on it, each with the answer of [runOCR]. *)
Definition processFrame (cameraId : string) (frame : option FrameGrab)
    (reads : list Read) : M unit :=
  camera ← gets (fun w => getCamera (storage w) cameraId);
  match camera with
  | None => mret tt
  | Some camera =>
      match Camera.anpr camera with
      | Val anpr =>
          if enabled anpr then
            match frame with
            | None => mret tt
            | Some frame =>
                modify (fun w => set_files (<[framePath frame := frameBytes frame]> (files w)) w);;
                try_finally
                  (for_each reads (processDetection cameraId anpr frame))
                  (discardFrame (framePath frame))
            end
          else mret tt
      | _ => mret tt
      end
  end.

Definition stopProcessing (cameraId : string) : M unit :=
  modify (fun w => set_workers (delete cameraId (workers w)) w);;
  modify (fun w => set_processingCache (delete cameraId (processingCache w)) w).

(** The delay [setInterval(callback, ms)] runs a timer with: one below 1 or
    above 2147483647 is set to 1. *)
Definition timer_delay (ms : Z) : Z :=
  if (ms <? 1) || (2147483647 <? ms) then 1 else ms.

(** [startProcessing(cameraId)]: the timer is kept by the delay it runs
    with. *)
Definition startProcessing (cameraId : string) : M unit :=
  camera ← gets (fun w => getCamera (storage w) cameraId);
  match camera with
  | None => mret tt
  | Some camera =>
      match Camera.anpr camera with
      | Val anpr =>
          if enabled anpr then
            stopProcessing cameraId;;
            let sampleInterval := or_defaultZ (sampleEveryNthFrame anpr) 5 * 1000 in
            modify (fun w => set_workers (<[cameraId := timer_delay sampleInterval]>
                                            (workers w)) w);;
            modify (fun w => set_processingCache (<[cameraId := ∅]> (processingCache w)) w)
          else mret tt
      | _ => mret tt
      end
  end.

(** [processCamera(cameraId)]: the manual trigger. *)
Definition processCamera (cameraId : string) (frame : option FrameGrab)
    (reads : list Read) : M unit :=
  try_catch (processFrame cameraId frame reads) (fun _ => mret tt).

(** *** A tick as it runs

    [processFrame] reads the policy once, at its first lines, and then waits
    three times for work done outside: for the frame ([extractFrame]), for
    the detector ([detectPlates]) and, at every detection, for the text
    ([runOCR]).  Whatever else the server handles during a wait happens
    between the steps of the tick.  [processFrame] above is the tick during
    which nothing else happens. *)

(** The first lines of [processFrame]: the policy of the camera, when the
    camera is in the store and its policy is enabled. *)
Definition readPolicy (cameraId : string) : M (option AnprPolicy) :=
  camera ← gets (fun w => getCamera (storage w) cameraId);
  mret match camera with
       | Some camera =>
           match Camera.anpr camera with
           | Val anpr => if enabled anpr then Some anpr else None
           | _ => None
           end
       | None => None
       end.

(** [processFrame(cameraId)] with what the server does meanwhile:
    [during_extract] while the frame is taken, [during_detect] while the
    detector runs, and with each read what happens while its text is
    extracted.  The loop works with the policy read at the start. *)
Definition processFrameAsync (cameraId : string) (during_extract : World -> World)
    (frame : option FrameGrab) (during_detect : World -> World)
    (steps : list ((World -> World) * Read)) : M unit :=
  policy ← readPolicy cameraId;
  match policy with
  | None => mret tt
  | Some anpr =>
      modify during_extract;;
      match frame with
      | None => mret tt
      | Some frame =>
          modify (fun w => set_files (<[framePath frame := frameBytes frame]> (files w)) w);;
          try_finally
            (modify during_detect;;
             for_each steps (fun step =>
               modify (fst step);;
               processDetection cameraId anpr frame (snd step)))
            (discardFrame (framePath frame))
      end
  end.

Definition is_digit (c : ascii) : bool :=
  let n := N_of_ascii c in (48 <=? n)%N && (n <=? 57)%N.

Fixpoint take_digits (s : string) : string :=
  match s with
  | EmptyString => EmptyString
  | String c r => if is_digit c then String c (take_digits r) else EmptyString
  end.

Definition parse_digits (s : string) : option Z :=
  let d := take_digits s in
  if String.eqb d "" then None else Z.of_uint <$> NilEmpty.uint_of_string d.

(** [parseInt(s)]: an optional sign and the digits that follow, whatever
    comes after them; [None] is [NaN].  (White space in front, which
    [parseInt] skips, does not occur in a cache key.) *)
Definition parseInt (s : string) : option Z :=
  match s with
  | String "-" r => Z.opp <$> parse_digits r
  | String "+" r => parse_digits r
  | _ => parse_digits s
  end.

(** [key.split("_").pop() || "0"]. *)
Definition last_field (key : string) : string :=
  let f := default "" (last (split_on "_" key)) in
  if String.eqb f "" then "0" else f.

(** The filter of [cleanupCache]: a comparison with [NaN] is false. *)
Definition fresh_key (now : Z) (key : string) : bool :=
  match parseInt (last_field key) with
  | Some n => now - n * 5000 <? 30000
  | None => false
  end.

(** [cleanupCache()], run by a timer every 60000 ms. *)
Definition cleanupCache (now : Z) : M unit :=
  modify (fun w =>
    set_processingCache
      ((fun cache : gset string => filter (fun key => Is_true (fresh_key now key)) cache)
         <$> processingCache w) w).

(** ** server/routes.ts: the handlers *)

Inductive Body :=
| BMessage (message : string)
| BCamera (camera : Camera.t)
| BRecording (recording : JsOpt Recording.t)
| BEmpty.

Record Response := { res_status : Z; res_body : Body }.

(** [{...camera, encryptedPassword: undefined,
      username: camera.username ? "[HIDDEN]" : null}]. *)
Definition safeCamera (camera : Camera.t) : Camera.t :=
  Camera.mk (Camera.id camera) (Camera.name camera) (Camera.rtspUrl camera)
    (if truthy_str (Camera.username camera) then Val "[HIDDEN]" else Null)
    Undefined
    (Camera.password camera) (Camera.location camera) (Camera.tags camera)
    (Camera.enabledProtocols camera) (Camera.layout camera) (Camera.recording camera)
    (Camera.anpr camera) (Camera.status camera) (Camera.lastSeen camera)
    (Camera.metadata camera) (Camera.createdAt camera) (Camera.updatedAt camera).

(** [obj && typeof obj === "object" && "hls" in obj]. *)
Definition has_hls (p : JsOpt (list (string * bool))) : bool :=
  match p with
  | Val keys => existsb (fun kv => String.eqb (fst kv) "hls") keys
  | _ => false
  end.

Definition parse_or_throw (parsed : option CameraBody.t) : M CameraBody.t :=
  match parsed with
  | Some b => mret b
  | None => throw "ZodError"
  end.

(** [POST /api/cameras]: [iv] is the nonce [encryptCredentials] draws, [id]
    and [now] the [randomUUID()] and [new Date()] of [createCamera]. *)
Definition postCamera `{Platform} (body : CameraBody.t) (iv : list byte) (id : string)
    (now : Z) : M Response :=
  try_catch
    (cameraData ← parse_or_throw (parseInsertCamera body);
     let encryptedPassword :=
       if truthy_str (CameraBody.password cameraData)
       then Val (encryptCredentials iv (from_val "" (CameraBody.password cameraData)))
       else Null in
     let cameraToCreate := withoutPassword cameraData in
     camera ← on_storage (createCamera id now cameraToCreate
                            (if truthy_str encryptedPassword then encryptedPassword
                             else Undefined));
     addCamera (Camera.id camera);;
     (if has_hls (Camera.enabledProtocols camera)
      then startHLSStream (Camera.id camera)
      else mret tt);;
     broadcast "camera-added" (PCamera camera);;
     mret {| res_status := 201; res_body := BCamera (safeCamera camera) |})
    (fun _ => mret {| res_status := 400; res_body := BMessage "Failed to create camera" |}).

(** [PUT /api/cameras/:id].  When the update carries a password, the
    handler computes [encryptedPassword] and keeps [updatesWithoutPassword];
    the computed value is not used after that. *)
Definition putCamera `{Platform} (id : string) (body : CameraBody.t) (iv : list byte)
    (now : Z) : M Response :=
  try_catch
    (updates ← parse_or_throw (parseUpdateCamera body);
     let finalUpdates :=
       if truthy_str (CameraBody.password updates)
       then
         let encryptedPassword :=
           encryptCredentials iv (from_val "" (CameraBody.password updates)) in
         withoutPassword updates
       else updates in
     camera ← on_storage (updateCamera id finalUpdates now);
     match camera with
     | None => mret {| res_status := 404; res_body := BMessage "Camera not found" |}
     | Some camera =>
         (if truthy_str (CameraBody.rtspUrl updates)
             || truthy_obj (CameraBody.enabledProtocols updates)
          then restartStream (Camera.id camera)
          else mret tt);;
         broadcast "camera-updated" (PCamera camera);;
         mret {| res_status := 200; res_body := BCamera (safeCamera camera) |}
     end)
    (fun _ => mret {| res_status := 400; res_body := BMessage "Failed to update camera" |}).

(** [DELETE /api/cameras/:id]. *)
Definition deleteCameraRoute (id : string) : M Response :=
  try_catch
    (success ← on_storage (deleteCamera id);
     if (success : bool) then
       modify (add_log (CameraRowDeleted id));;
       removeCamera id;;
       stopStream id;;
       broadcast "camera-deleted" (PCameraDeleted id);;
       mret {| res_status := 204; res_body := BEmpty |}
     else mret {| res_status := 404; res_body := BMessage "Camera not found" |})
    (fun _ => mret {| res_status := 500; res_body := BMessage "Failed to delete camera" |}).

(** [POST /api/cameras/:id/start-record], past [authenticateToken]. *)
Definition startRecordRoute `{Platform} (id : string) (recordingId : string) (now : Z)
    : M Response :=
  try_catch
    (camera ← gets (fun w => getCamera (storage w) id);
     match camera with
     | None => mret {| res_status := 404; res_body := BMessage "Camera not found" |}
     | Some _ =>
         recording ← startRecording id recordingId now;
         broadcast "recording-started" (PRecording id (Val recording));;
         mret {| res_status := 200; res_body := BRecording (Val recording) |}
     end)
    (fun _ => mret {| res_status := 500; res_body := BMessage "Failed to start recording" |}).

(** [POST /api/cameras/:id/stop-record], past [authenticateToken]. *)
Definition stopRecordRoute (id : string) (now : Z) : M Response :=
  try_catch
    (recording ← stopRecording id now;
     match recording with
     | Val _ =>
         broadcast "recording-stopped" (PRecording id recording);;
         mret {| res_status := 200; res_body := BRecording recording |}
     | _ => mret {| res_status := 404; res_body := BMessage "No active recording found" |}
     end)
    (fun _ => mret {| res_status := 500; res_body := BMessage "Failed to stop recording" |}).

(** ** Notions the statements use *)

Fixpoint has_char (c : ascii) (s : string) : bool :=
  match s with
  | EmptyString => false
  | String a r => Ascii.eqb a c || has_char c r
  end.

(** A sealed string from its first separator on: what follows the nonce
    field. *)
Fixpoint from_first_colon (x : string) : string :=
  match x with
  | EmptyString => EmptyString
  | String c r => if Ascii.eqb c ":" then x else from_first_colon r
  end.

(** The sealed string [x] with its nonce field replaced by [field]. *)
Definition with_nonce_field (field x : string) : string := field +:+ from_first_colon x.

(** The actions a computation added to the log. *)
Definition new_actions {A} (w : World) (o : Outcome A) : list Action :=
  drop (length (log w)) (log (world_of o)).

Definition is_spawn (a : Action) : bool :=
  match a with Spawn _ => true | _ => false end.
Definition is_kill (a : Action) : bool :=
  match a with Kill _ => true | _ => false end.
Definition is_broadcast (a : Action) : bool :=
  match a with Broadcast _ => true | _ => false end.

(** The kills a stop of the live child of [id] performs. *)
Definition stream_kills (w : World) (id : string) : list Action :=
  match streams w !! id with
  | Some c => [Kill c]
  | None => []
  end.

(** The live child [startHLSStream] spawns for [cameraId] on address [u]. *)
Definition live_child (cameraId u : string) : Child :=
  {| child_input := u; child_output := ("streams/" +:+ cameraId +:+ "/live") +:+ "/index.m3u8" |}.

(** The update a [PUT] hands to the store. *)
Definition finalUpdates_of (updates : CameraBody.t) : CameraBody.t :=
  if truthy_str (CameraBody.password updates) then withoutPassword updates else updates.

(** Whether a [PUT] restarts the live stream. *)
Definition restarts (updates : CameraBody.t) : bool :=
  truthy_str (CameraBody.rtspUrl updates) || truthy_obj (CameraBody.enabledProtocols updates).

(** The world [stopStream id] leaves. *)
Definition stopped_world (w : World) (id : string) : World :=
  match streams w !! id with
  | Some c => set_streams (delete id (streams w)) (add_log (Kill c) w)
  | None => w
  end.

(** The world [startHLSStream id] leaves once the address [u] is resolved and
    the former child stopped. *)
Definition started_world (w : World) (id u : string) : World :=
  set_streams (<[id := live_child id u]> (streams w)) (add_log (Spawn (live_child id u)) w).

(** The world after the store has put [camera] under [id]. *)
Definition updated_world (w : World) (id : string) (camera : Camera.t) : World :=
  set_storage {| cameras := <[id := camera]> (cameras (storage w));
                 recordings := recordings (storage w);
                 anprEvents := anprEvents (storage w) |} w.

(** The world after [createCamera] and [healthMonitor.addCamera]. *)
Definition created_world (w : World) (id : string) (camera : Camera.t) : World :=
  set_monitoredCameras ({[id]} ∪ monitoredCameras w) (updated_world w id camera).

(** The status a probe of the camera derives. *)
Definition derived_status `{Platform} (camera : Camera.t) : string :=
  if connected (probeRTSPStream (Camera.rtspUrl camera) (Camera.username camera)
                  (Camera.encryptedPassword camera))
  then "online" else "offline".

(** The [camera-status] events of camera [id] among some actions. *)
Definition is_status_event (id : string) (a : Action) : bool :=
  match a with
  | Emit {| event := e; data := PCameraStatus i _ _ _ |} =>
      String.eqb e "camera-status" && String.eqb i id
  | _ => false
  end.

Fixpoint status_events (id : string) (l : list Action) : nat :=
  match l with
  | [] => 0%nat
  | a :: r => ((if is_status_event id a then 1 else 0) + status_events id r)%nat
  end.

(** The events one check of [camera] emits. *)
Definition status_changes `{Platform} (camera : Camera.t) : nat :=
  if String.eqb (Camera.status camera) (derived_status camera) then 0%nat else 1%nat.

(** Rows are filed under their own [id] (as [createCamera] and
    [createRecording] file them), and no camera has the empty id. *)
Definition well_filed (s : MemStorage) : Prop :=
  (forall k c, cameras s !! k = Some c -> Camera.id c = k)
  /\ (forall k r, recordings s !! k = Some r -> Recording.id r = k)
  /\ cameras s !! "" = None.

(** [a] immediately followed by [b] in [l]. *)
Definition adjacent (a b : Action) (l : list Action) : Prop :=
  exists l1 l2, l = l1 ++ a :: b :: l2.




(** The [anpr-event] emissions among some actions. *)
Definition is_anpr_event (a : Action) : bool :=
  match a with
  | Emit {| event := e; data := PAnprEvent _ _ |} => String.eqb e "anpr-event"
  | _ => false
  end.

Fixpoint anpr_events (l : list Action) : nat :=
  match l with
  | [] => 0%nat
  | a :: r => ((if is_anpr_event a then 1 else 0) + anpr_events r)%nat
  end.

(** The row [processDetection] creates for a read. *)
Definition event_of (cameraId : string) (frame : FrameGrab) (r : Read) : AnprEvent.t :=
  AnprEvent.mk (uuid r) cameraId (now r) (default "" (plateText r))
    (Detection.confidence (detection r)) (Val (framePath frame))
    (Detection.bbox (detection r))
    (if truthy_obj (Detection.metadata (detection r))
     then Detection.metadata (detection r) else Val "{}")
    (now r).

(** The world after [processDetection] has stored and emitted the event of
    read [r]. *)
Definition persisted_world (cameraId : string) (frame : FrameGrab) (r : Read) (w : World)
    : World :=
  let e := event_of cameraId frame r in
  let f := {| event := "anpr-event"; data := PAnprEvent cameraId e |} in
  append_log (Broadcast f :: sends (wsClients w) f)
    (add_log (Emit f)
       (set_storage {| cameras := cameras (storage w);
                       recordings := recordings (storage w);
                       anprEvents := <[uuid r := e]> (anprEvents (storage w)) |} w)).




(** The camera is in the store with ANPR enabled. *)
Definition watching (cameraId : string) (camera : Camera.t) (anpr : AnprPolicy) (w : World)
    : Prop :=
  cameras (storage w) !! cameraId = Some camera
  /\ Camera.anpr camera = Val anpr /\ enabled anpr = true.

(** The row [rid] and its file are still there. *)
Definition awaiting (w : World) (rid : string) (r : Recording.t) : Prop :=
  recordings (storage w) !! rid = Some r /\ is_Some (files w !! Recording.path r).

(** Rows are filed under their id, and only row [rid] has the file of [r]. *)
Definition sole_owner (w : World) (rid : string) (r : Recording.t) : Prop :=
  (forall k r', recordings (storage w) !! k = Some r' -> Recording.id r' = k)
  /\ (forall k r', recordings (storage w) !! k = Some r' ->
                   Recording.path r' = Recording.path r -> k = rid).

(** ** A small platform and a small installation, for worked examples *)

Definition demo_tag (p : list byte) : list byte :=
  match Byte.of_N (N.of_nat (length p) mod 256) with
  | Some b => [b]
  | None => []
  end.

Definition demo_encrypt (p : list byte) : list byte * list byte :=
  (rev p, demo_tag p).

Definition demo_decrypt (tag ct : list byte) : option (list byte) :=
  if bool_decide (Byte.to_N <$> tag = Byte.to_N <$> demo_tag (rev ct))
  then Some (rev ct) else None.

Fixpoint join_with (sep : string) (l : list string) : string :=
  match l with
  | [] => EmptyString
  | [x] => x
  | x :: r => x +:+ sep +:+ join_with sep r
  end.

(** Addresses of the shape [scheme://host[:port]/path]. *)
Definition demo_new_URL (s : string) : option URL :=
  match split_on "/" s with
  | scheme :: "" :: h :: rest =>
      if String.eqb h "" then None
      else Some {| protocol := scheme;
                   host := h;
                   hostname := default "" (head (split_on ":" h));
                   pathname := "/" +:+ join_with "/" rest;
                   search := "" |}
  | _ => None
  end.

Definition demo_localeCompare (a b : string) : Z :=
  match String.compare a b with
  | Lt => -1
  | Eq => 0
  | Gt => 1
  end.

(** A day of 24 hours: the platform of the examples keeps universal time. *)
Definition DAY_MS : Z := 86400000.

(** Days and milliseconds since the epoch, in place of a calendar date. *)
Definition demo_toISOString (t : Z) : string :=
  decimal (t / DAY_MS) +:+ "T" +:+ decimal (t mod DAY_MS) +:+ "Z".

Definition demo : Platform := {|
  gcm_encrypt := demo_encrypt;
  gcm_decrypt := demo_decrypt;
  new_URL := demo_new_URL;
  localeCompare := demo_localeCompare;
  toISOString := demo_toISOString;
  daysBefore := fun t n => t - n * DAY_MS
|}.

Definition demo_iv : list byte :=
  [x00; x01; x02; x03; x04; x05; x06; x07; x08; x09; x0a; x0b; x0c; x0d; x0e; x0f].

Definition demo_camera (id rtspUrl status : string) : Camera.t :=
  Camera.mk id "Gate" rtspUrl (Val "operator") Null Undefined (Val "North gate") Null
    (Val [("hls", true); ("webrtc", false)]) Undefined
    (Val {| mode := "manual"; segmentSeconds := 6; retainDays := Some 7 |})
    (Val {| enabled := true; sampleEveryNthFrame := Some 5;
            confidenceThreshold := Some (8 # 10) |})
    status Null Null 0 0.

Definition demo_recording (id cameraId : string) (startTime : Z) (endTime : JsOpt Z)
    : Recording.t :=
  Recording.mk id cameraId startTime startTime endTime
    ("records/" +:+ cameraId +:+ "/" +:+ id +:+ ".mp4") Null Null "mp4" (Val "{}") startTime.

Definition demo_child (cameraId : string) : Child :=
  {| child_input := "rtsp://192.168.1.10/stream";
     child_output := "streams/" +:+ cameraId +:+ "/live/index.m3u8" |}.

Definition demo_recorder : Child :=
  {| child_input := "rtsp://192.168.1.10/stream";
     child_output := "records/cam-1/rec-1.mp4" |}.

Definition demo_event : AnprEvent.t :=
  AnprEvent.mk "evt-0" "cam-1" 500 "XYZ7890" (95 # 100) (Val "temp/anpr/frame_cam-1_500.jpg")
    {| bbox_x := 1; bbox_y := 2; bbox_width := 90; bbox_height := 30 |} (Val "{}") 500.

(** One reachable camera, live and recording since instant 1000, with one
    plate read, watched by one open client; a second camera at an unreachable
    address. *)
Definition demo_world : World := {|
  storage := {|
    cameras := {[ "cam-1" := demo_camera "cam-1" "rtsp://192.168.1.10/stream" "offline";
                  "cam-2" := demo_camera "cam-2" "rtsp://10.0.0.5/stream" "offline" ]};
    recordings := {[ "rec-1" := demo_recording "rec-1" "cam-1" 1000 Null ]};
    anprEvents := {[ "evt-0" := demo_event ]} |};
  streams := {[ "cam-1" := demo_child "cam-1" ]};
  ff_recordings := {[ "cam-1" := (demo_recorder, "rec-1") ]};
  monitoredCameras := {[ "cam-1"; "cam-2" ]};
  workers := {[ "cam-1" := 5000 ]};
  processingCache := {[ "cam-1" := ∅ ]};
  files := {[ "records/cam-1/rec-1.mp4" := 4096 ]};
  wsClients := [ {| ws_id := 1; readyState := OPEN |} ];
  log := []
|}.

(** An update that names the address the camera [cam-1] already has. *)
Definition same_address_update : CameraBody.t :=
  CameraBody.mk Undefined (Val "rtsp://192.168.1.10/stream") Undefined Undefined Undefined
    Undefined Undefined Undefined Undefined Undefined Undefined.

(** An update with a new name and a new password. *)
Definition password_update : CameraBody.t :=
  CameraBody.mk (Val "Yard") Undefined Undefined (Val "s3cret") Undefined
    Undefined Undefined Undefined Undefined Undefined Undefined.

(** An update that submits every key, the password among them. *)
Definition full_update : CameraBody.t :=
  CameraBody.mk (Val "Yard") (Val "rtsp://192.168.1.11/yard") (Val "guard") (Val "s3cret")
    (Val "South yard") (Val ["yard"; "south"]) (Val [("webrtc", true)])
    (Val {| layout_row := 1; layout_col := 2; layout_size := 3 |})
    (Val {| mode := "continuous"; segmentSeconds := 10; retainDays := Some 30 |})
    (Val {| enabled := false; sampleEveryNthFrame := Some 2;
            confidenceThreshold := Some (9 # 10) |})
    (Val "{note}").

(** A create request with credentials. *)
Definition create_request : CameraBody.t :=
  CameraBody.mk (Val "Dock") (Val "rtsp://192.168.1.20/stream") (Val "admin") (Val "s3cret")
    Undefined Undefined (Val [("hls", true)]) Undefined Undefined Undefined Undefined.

(** The installation with [cam-2] recorded [online] (as a seeded row may
    be). *)
Definition demo_world_online : World :=
  updated_world demo_world "cam-2" (demo_camera "cam-2" "rtsp://10.0.0.5/stream" "online").

(** The sweep at an instant eight days after the start of [rec-1]. *)
Definition demo_sweep_clock (id : string) : Z := 1000 + 8 * DAY_MS.

Definition demo_frame : FrameGrab :=
  {| framePath := "temp/anpr/frame_cam-1_4000.jpg"; frameBytes := 2048 |}.

(** A read of plate [ABC1234] with confidence nine tenths. *)
Definition demo_read (now : Z) (uuid : string) : Read :=
  {| detection := Detection.mk {| bbox_x := 10; bbox_y := 20; bbox_width := 100;
                                  bbox_height := 40 |} (9 # 10) Null;
     plateText := Some "ABC1234";
     now := now;
     uuid := uuid |}.


(** An update that raises the confidence threshold of a camera to 0.95. *)
Definition threshold_update : CameraBody.t :=
  CameraBody.mk Undefined Undefined Undefined Undefined Undefined Undefined Undefined
    Undefined Undefined
    (Val {| enabled := true; sampleEveryNthFrame := Some 5;
            confidenceThreshold := Some (95 # 100) |})
    Undefined.

(** The server handles that update for [cam-1]. *)
Definition raise_threshold (w : World) : World :=
  world_of (@putCamera demo "cam-1" threshold_update demo_iv 3500 w).

(** A tick on [cam-1] during which the threshold is raised: the update is
    handled while the text of the one detection is extracted. *)
Definition interrupted_tick : M unit :=
  processFrameAsync "cam-1" (fun w => w) (Some demo_frame) (fun w => w)
    [(raise_threshold, demo_read 4000 "evt-1")].

(** The world in which that tick creates its event. *)
Definition world_at_creation : World :=
  raise_threshold
    (set_files (<[framePath demo_frame := frameBytes demo_frame]> (files demo_world))
       demo_world).


(** * More of the server *)

From Stdlib Require Import Sorted.

(** ** server/storage.ts: the read side *)

(** [CameraWithStats]: the row and three figures. *)
Record CameraWithStats := {
  cws_camera : Camera.t;
  recordingCount : nat;
  anprEventCount : nat;
  isRecording : bool
}.

(** [!r.endTime]: a date is an object, so only [null] and [undefined] are
    falsy. *)
Definition no_endTime (r : Recording.t) : bool := negb (is_val (Recording.endTime r)).

Definition getCameraWithStats (s : MemStorage) (id : string) : option CameraWithStats :=
  match cameras s !! id with
  | None => None
  | Some camera =>
      Some {| cws_camera := camera;
              recordingCount :=
                length (List.filter (fun r => String.eqb (Recording.cameraId r) id)
                          (values (recordings s)));
              anprEventCount :=
                length (List.filter (fun e => String.eqb (AnprEvent.cameraId e) id)
                          (values (anprEvents s)));
              isRecording :=
                existsb (fun r => String.eqb (Recording.cameraId r) id && no_endTime r)
                  (values (recordings s)) |}
  end.

(** [getAnprEventsCount(cameraId, since)]. *)
Definition getAnprEventsCount (s : MemStorage) (cameraId : string) (since : option Z) : nat :=
  let events :=
    List.filter (fun e => String.eqb (AnprEvent.cameraId e) cameraId) (values (anprEvents s)) in
  match since with
  | Some t => length (List.filter (fun e => t <=? AnprEvent.timestamp e) events)
  | None => length events
  end.

Record SystemStats := {
  totalCameras : nat;
  activeCameras : nat;
  activeRecordings : nat;
  todayAnprEvents : nat;
  storageUsed : Z;
  storageTotal : Z
}.

(** [getSystemStats()]: [today] is the instant of the last local midnight,
    [new Date()] after [setHours(0, 0, 0, 0)]. *)
Definition getSystemStats (s : MemStorage) (today : Z) : SystemStats :=
  {| totalCameras := size (cameras s);
     activeCameras :=
       length (List.filter (fun c => String.eqb (Camera.status c) "online")
                 (values (cameras s)));
     activeRecordings := length (List.filter no_endTime (values (recordings s)));
     todayAnprEvents :=
       length (List.filter (fun e => today <=? AnprEvent.timestamp e) (values (anprEvents s)));
     storageUsed := 0;
     storageTotal := 0 |}.

(** ** server/services/ffmpegManager.ts: [takeSnapshot] *)

(** [takeSnapshot(cameraId)]: [now] is the [new Date()] of the file name,
    [outcome] how the child ends: [Some size] for exit code 0 with the picture
    written, [None] for an [error] event or any other exit code (the message
    of the rejection, which names the code, is not kept: the route drops
    it). *)
Definition takeSnapshot `{Platform} (cameraId : string) (now : Z) (outcome : option Z)
    : M string :=
  camera ← gets (fun w => getCamera (storage w) cameraId);
  match camera with
  | None => throw ("Camera " +:+ cameraId +:+ " not found")
  | Some camera =>
      rtspUrl ← resolveRtspUrl camera;
      let snapshotsDir := "snapshots/" +:+ cameraId in
      let filename := "snapshot_" +:+ dash_colons_dots (toISOString now) +:+ ".jpg" in
      let outputPath := snapshotsDir +:+ "/" +:+ filename in
      modify (add_log (Spawn {| child_input := rtspUrl; child_output := outputPath |}));;
      match outcome with
      | Some size =>
          modify (fun w => set_files (<[outputPath := size]> (files w)) w);;
          mret outputPath
      | None => throw "FFmpeg exited"
      end
  end.

(** ** server/routes.ts: the other handlers *)

(** An answer: a status with a JSON body, or a status with
    [{ message }]. *)
Inductive Reply (A : Type) : Type :=
| Ok (status : Z) (body : A)
| Fail (status : Z) (message : string).
Arguments Ok {A} status body.
Arguments Fail {A} status message.

Definition reply_status {A} (r : Reply A) : Z :=
  match r with
  | Ok status _ => status
  | Fail status _ => status
  end.

(** [GET /api/cameras]. *)
Definition getCamerasRoute `{Platform} : M (Reply (list Camera.t)) :=
  try_catch
    (allCameras ← gets (fun w => getCameras (storage w));
     mret (Ok 200 (safeCamera <$> allCameras)))
    (fun _ => mret (Fail 500 "Failed to fetch cameras")).

(** [GET /api/cameras/:id]. *)
Definition getCameraRoute (id : string) : M (Reply CameraWithStats) :=
  try_catch
    (camera ← gets (fun w => getCameraWithStats (storage w) id);
     match camera with
     | None => mret (Fail 404 "Camera not found")
     | Some camera =>
         mret (Ok 200 {| cws_camera := safeCamera (cws_camera camera);
                         recordingCount := recordingCount camera;
                         anprEventCount := anprEventCount camera;
                         isRecording := isRecording camera |})
     end)
    (fun _ => mret (Fail 500 "Failed to fetch camera")).

(** [POST /api/cameras/:id/snapshot], past [authenticateToken]. *)
Definition snapshotRoute `{Platform} (id : string) (now : Z) (outcome : option Z)
    : M (Reply string) :=
  try_catch
    (camera ← gets (fun w => getCamera (storage w) id);
     match camera with
     | None => mret (Fail 404 "Camera not found")
     | Some _ =>
         snapshotPath ← takeSnapshot id now outcome;
         mret (Ok 200 snapshotPath)
     end)
    (fun _ => mret (Fail 500 "Failed to take snapshot")).

(** [POST /api/anpr/process], past [authenticateToken]: [cameraId] is the
    property of the body, absent or empty when falsy.  The handler does not
    wait for the worker. *)
Definition anprProcessRoute (cameraId : JsOpt string) (frame : option FrameGrab)
    (reads : list Read) : M (Reply string) :=
  try_catch
    (if truthy_str cameraId then
       processCamera (from_val "" cameraId) frame reads;;
       mret (Ok 200 (from_val "" cameraId))
     else mret (Fail 400 "Camera ID required"))
    (fun _ => mret (Fail 500 "Failed to process ANPR")).

(** ** What the children do later *)

(** The [error] and [exit] handlers [startHLSStream] installs on the child:
    [this.streams.delete(cameraId)]. *)
Definition streamEnded (cameraId : string) : M unit :=
  modify (fun w => set_streams (delete cameraId (streams w)) w).

(** Five seconds after an exit with a code other than 0:
    [this.startHLSStream(cameraId).catch(console.error)]. *)
Definition streamRetry `{Platform} (cameraId : string) : M unit :=
  try_catch (startHLSStream cameraId) (fun _ => mret tt).

(** The [error] and [exit] handlers [startRecording] installs on the child:
    [this.recordings.delete(cameraId)]. *)
Definition recorderEnded (cameraId : string) : M unit :=
  modify (fun w => set_ff_recordings (delete cameraId (ff_recordings w)) w).

(** ** server/routes.ts: the socket server *)

(** The handler of [wss.on('connection')]: it writes to the console and
    installs a handler for the close of the socket, which writes to the
    console too.  Neither adds the socket to [wsClients] or removes it. *)
Definition onConnection (ws : Z) : M unit := mret tt.

Definition onClose (ws : Z) : M unit := mret tt.

(** ** The server over time *)

(** What can happen to the running server: a request to a handler of
    [routes.ts] that changes something, the firing of one of the three timers
    of the services, a tick of a worker's own timer, a call of the worker's
    public [startProcessing] and [stopProcessing], the end of a child, or a
    socket that connects or closes.  (The reading routes change nothing; the
    two [auth] routes only touch the users, which are left out.) *)
Inductive Request :=
| PostCamera (body : CameraBody.t) (iv : list byte) (id : string) (now : Z)
| PutCamera (id : string) (body : CameraBody.t) (iv : list byte) (now : Z)
| DeleteCamera (id : string)
| StartRecord (id recordingId : string) (now : Z)
| StopRecord (id : string) (now : Z)
| Snapshot (id : string) (now : Z) (outcome : option Z)
| AnprProcess (cameraId : JsOpt string) (frame : option FrameGrab) (reads : list Read)
| HealthTick
| CacheCleanup (now : Z)
| RetentionSweep (clock : string -> Z)
| WorkerTick (cameraId : string) (frame : option FrameGrab) (reads : list Read)
| StartProcessing (cameraId : string)
| StopProcessing (cameraId : string)
| StreamEnded (cameraId : string)
| StreamRetry (cameraId : string)
| RecorderEnded (cameraId : string)
| Connect (ws : Z)
| Disconnect (ws : Z).

Definition handle `{Platform} (r : Request) (w : World) : World :=
  match r with
  | PostCamera body iv id now => world_of (postCamera body iv id now w)
  | PutCamera id body iv now => world_of (putCamera id body iv now w)
  | DeleteCamera id => world_of (deleteCameraRoute id w)
  | StartRecord id recordingId now => world_of (startRecordRoute id recordingId now w)
  | StopRecord id now => world_of (stopRecordRoute id now w)
  | Snapshot id now outcome => world_of (snapshotRoute id now outcome w)
  | AnprProcess cameraId frame reads => world_of (anprProcessRoute cameraId frame reads w)
  | HealthTick => world_of (checkAllCameras w)
  | CacheCleanup now => world_of (cleanupCache now w)
  | RetentionSweep clock => world_of (cleanupOldRecordings clock w)
  | WorkerTick cameraId frame reads => world_of (processCamera cameraId frame reads w)
  | StartProcessing cameraId => world_of (startProcessing cameraId w)
  | StopProcessing cameraId => world_of (stopProcessing cameraId w)
  | StreamEnded cameraId => world_of (streamEnded cameraId w)
  | StreamRetry cameraId => world_of (streamRetry cameraId w)
  | RecorderEnded cameraId => world_of (recorderEnded cameraId w)
  | Connect ws => world_of (onConnection ws w)
  | Disconnect ws => world_of (onClose ws w)
  end.

Definition run `{Platform} (requests : list Request) (w : World) : World :=
  foldl (fun w r => handle r w) w requests.


(** The server as its modules leave it when loaded. *)
Definition boot : World := {|
  storage := {| cameras := ∅; recordings := ∅; anprEvents := ∅ |};
  streams := ∅;
  ff_recordings := ∅;
  monitoredCameras := ∅;
  workers := ∅;
  processingCache := ∅;
  files := ∅;
  wsClients := [];
  log := []
|}.

(** A computation keeps a property of the world, however it ends. *)
Definition preserves {A} (P : World -> Prop) (m : M A) : Prop :=
  forall w, P w -> P (world_of (m w)).

Definition is_send (a : Action) : bool :=
  match a with Send _ _ => true | _ => false end.

(** No client is registered and nothing was ever sent. *)
Definition silent (w : World) : Prop :=
  wsClients w = [] /\ forallb (fun a => negb (is_send a)) (log w) = true.

(** What every row of a store that only [createCamera] and [updateCamera]
    wrote satisfies. *)
Definition as_created (s : MemStorage) : Prop :=
  forall k c, cameras s !! k = Some c ->
    Camera.status c = "offline" /\ Camera.encryptedPassword c = Null.

(** The occurrences of a character. *)
Fixpoint count_char (c : ascii) (s : string) : nat :=
  match s with
  | EmptyString => 0%nat
  | String a r => ((if Ascii.eqb a c then 1 else 0) + count_char c r)%nat
  end.

(** The [randomUUID()] of a created camera is not the empty string. *)
Definition proper (r : Request) : Prop :=
  match r with
  | PostCamera _ _ id _ => id <> ""
  | _ => True
  end.


(** [w'] differs from [w] at most in the live children, the monitored set
    and the log. *)
Definition same_but_streams (w w' : World) : Prop :=
  storage w' = storage w
  /\ ff_recordings w' = ff_recordings w
  /\ workers w' = workers w
  /\ processingCache w' = processingCache w
  /\ files w' = files w
  /\ wsClients w' = wsClients w.

(** * Properties *)

(** ** Strings *)

Lemma split_on_absent sep s : has_char sep s = false -> split_on sep s = [s].
Proof.
  induction s as [|a r IH]; simpl; [done|].
  intros [Ha Hr]%orb_false_iff. rewrite Ha, (IH Hr). done.
Qed.

Lemma split_on_field sep a r :
  has_char sep a = false ->
  split_on sep (a +:+ String sep r) = a :: split_on sep r.
Proof.
  induction a as [|c a IH]; simpl.
  - intros _. by rewrite Ascii.eqb_refl.
  - intros [Hc Ha]%orb_false_iff. rewrite Hc, (IH Ha). done.
Qed.

Lemma hex_pair_decodes b r :
  from_hex (String (hex_digit (Byte.to_N b / 16))
              (String (hex_digit (Byte.to_N b mod 16)) r)) = b :: from_hex r.
Proof. destruct b; reflexivity. Qed.

Lemma from_hex_to_hex bs : from_hex (to_hex bs) = bs.
Proof.
  induction bs as [|b r IH]; [done|].
  cbn [to_hex]. rewrite hex_pair_decodes. by rewrite IH.
Qed.

Lemma hex_pair_no_colon b r :
  has_char ":" (String (hex_digit (Byte.to_N b / 16))
                  (String (hex_digit (Byte.to_N b mod 16)) r)) = has_char ":" r.
Proof. destruct b; reflexivity. Qed.

Lemma to_hex_no_colon bs : has_char ":" (to_hex bs) = false.
Proof.
  induction bs as [|b r IH]; [done|].
  cbn [to_hex]. by rewrite hex_pair_no_colon.
Qed.

Lemma utf8_decode_encode s : utf8_decode (utf8_encode s) = s.
Proof. apply String.string_of_list_byte_of_string. Qed.

Lemma decryptCredentials_fields `{Platform} ivField tag ct :
  has_char ":" ivField = false ->
  decryptCredentials (ivField +:+ ":" +:+ to_hex tag +:+ ":" +:+ to_hex ct)
  = utf8_decode <$> gcm_decrypt tag ct.
Proof.
  intros Hiv. unfold decryptCredentials.
  replace (ivField +:+ ":" +:+ to_hex tag +:+ ":" +:+ to_hex ct)
    with (ivField +:+ String ":" (to_hex tag +:+ String ":" (to_hex ct))) by reflexivity.
  rewrite (split_on_field ":" ivField _ Hiv).
  rewrite (split_on_field ":" (to_hex tag) _ (to_hex_no_colon tag)).
  rewrite (split_on_absent ":" (to_hex ct) (to_hex_no_colon ct)).
  by rewrite !from_hex_to_hex.
Qed.

Lemma from_first_colon_field a r :
  has_char ":" a = false -> from_first_colon (a +:+ String ":" r) = String ":" r.
Proof.
  induction a as [|c a IH]; simpl; [done|].
  intros [Hc Ha]%orb_false_iff. rewrite Hc. auto.
Qed.

Lemma decryptCredentials_encryptCredentials `{Platform} iv text :
  gcm_sound -> decryptCredentials (encryptCredentials iv text) = Some text.
Proof.
  intros Hsound. unfold encryptCredentials.
  pose proof (Hsound (utf8_encode text)) as Hopen.
  destruct (gcm_encrypt (utf8_encode text)) as [encrypted authTag]. simpl in Hopen.
  rewrite decryptCredentials_fields by apply to_hex_no_colon.
  rewrite Hopen. simpl. by rewrite utf8_decode_encode.
Qed.

(** C5 (the code against the claim): [decryptCredentials] opens what
    [encryptCredentials] sealed, and it still opens it, to the same plain
    text, when the nonce field of the sealed string has been replaced by any
    other text without a separator: the bytes of that field can be flipped
    without [decryptCredentials] failing. *)
Theorem decryptCredentials_ignores_nonce `{Platform} (iv : list byte) (text field : string) :
  gcm_sound ->
  has_char ":" field = false ->
  decryptCredentials (with_nonce_field field (encryptCredentials iv text)) = Some text.
Proof.
  intros Hsound Hfield. unfold encryptCredentials, with_nonce_field.
  pose proof (Hsound (utf8_encode text)) as Hopen.
  destruct (gcm_encrypt (utf8_encode text)) as [encrypted authTag]. simpl in Hopen.
  replace (to_hex iv +:+ ":" +:+ to_hex authTag +:+ ":" +:+ to_hex encrypted)
    with (to_hex iv +:+ String ":" (to_hex authTag +:+ ":" +:+ to_hex encrypted))
    by reflexivity.
  rewrite from_first_colon_field by apply to_hex_no_colon.
  change (field +:+ String ":" (to_hex authTag +:+ ":" +:+ to_hex encrypted))
    with (field +:+ ":" +:+ to_hex authTag +:+ ":" +:+ to_hex encrypted).
  rewrite decryptCredentials_fields by done.
  rewrite Hopen. simpl. by rewrite utf8_decode_encode.
Qed.

Lemma demo_sound : @gcm_sound demo.
Proof.
  intros p. simpl. unfold demo_decrypt, demo_encrypt. simpl.
  rewrite rev_involutive. by rewrite bool_decide_eq_true_2.
Qed.


(** C5, the failing input: the sealed string with the first character of its
    nonce field changed opens as the untouched one does. *)
Example decryptCredentials_altered_nonce :
  @encryptCredentials demo demo_iv "s3cret"
  = "000102030405060708090a0b0c0d0e0f:06:746572633373"
  /\ @decryptCredentials demo "f00102030405060708090a0b0c0d0e0f:06:746572633373"
     = Some "s3cret"
  /\ @decryptCredentials demo "100102030405060708090a0b0c0d0e0f:06:746572633373"
     = Some "s3cret".
Proof. repeat split; reflexivity. Qed.

Lemma decryptCredentials_ignores_nonce_witness :
  has_char ":" "100102030405060708090a0b0c0d0e0f" = false
  /\ @decryptCredentials demo
       (with_nonce_field "100102030405060708090a0b0c0d0e0f"
          (@encryptCredentials demo demo_iv "s3cret"))
     = Some "s3cret".
Proof.
  split; [reflexivity|].
  apply (@decryptCredentials_ignores_nonce demo demo_iv "s3cret"
           "100102030405060708090a0b0c0d0e0f");
    [apply demo_sound | reflexivity].
Defined.

(** ** Running a computation *)

Ltac run :=
  repeat progress
    (unfold mbind, M_bind, mret, M_ret, gets, modify, throw, try_catch, try_finally,
       on_storage;
     cbn beta iota).

(** ** The recording route *)

Lemma startRecording_already `{Platform} w id recordingId now camera info :
  cameras (storage w) !! id = Some camera ->
  ff_recordings w !! id = Some info ->
  startRecording id recordingId now w
  = Threw ("Camera " +:+ id +:+ " is already recording") w.
Proof.
  intros Hc Hr. unfold startRecording, getCamera. run.
  rewrite Hc. run. rewrite Hr.
  rewrite bool_decide_eq_true_2 by eauto. reflexivity.
Qed.


(** C6 (as the code has it): on a camera the manager holds a recording child
    for, [startRecording] throws before it creates a row or spawns a child,
    and the route answers 500, "Failed to start recording"; the world is left
    as it was: no row is added, nothing is broadcast. *)
Theorem startRecordRoute_already_recording `{Platform} w id recordingId now camera info :
  cameras (storage w) !! id = Some camera ->
  ff_recordings w !! id = Some info ->
  startRecording id recordingId now w
  = Threw ("Camera " +:+ id +:+ " is already recording") w
  /\ startRecordRoute id recordingId now w
     = Returned {| res_status := 500; res_body := BMessage "Failed to start recording" |} w.
Proof.
  intros Hc Hr. split; [by eapply startRecording_already|].
  unfold startRecordRoute, getCamera. run. rewrite Hc. run.
  erewrite startRecording_already by eauto. reflexivity.
Qed.

Lemma startRecordRoute_already_recording_witness :
  cameras (storage demo_world) !! "cam-1"
  = Some (demo_camera "cam-1" "rtsp://192.168.1.10/stream" "offline")
  /\ ff_recordings demo_world !! "cam-1" = Some (demo_recorder, "rec-1")
  /\ @startRecordRoute demo "cam-1" "rec-2" 5000 demo_world
     = Returned {| res_status := 500; res_body := BMessage "Failed to start recording" |}
         demo_world.
Proof.
  split; [reflexivity|]. split; [reflexivity|].
  apply (@startRecordRoute_already_recording demo demo_world "cam-1" "rec-2" 5000
           (demo_camera "cam-1" "rtsp://192.168.1.10/stream" "offline")
           (demo_recorder, "rec-1")); reflexivity.
Defined.

(** C6 (as stated) fails: the conflict of a second start is answered with
    status 500, which is no 4xx. *)
Lemma startRecordRoute_conflict_not_4xx :
  ~ (forall r, result_of (@startRecordRoute demo "cam-1" "rec-2" 5000 demo_world) = Some r ->
               400 <= res_status r <= 499).
Proof.
  intros Hclaim.
  specialize (Hclaim {| res_status := 500; res_body := BMessage "Failed to start recording" |}).
  assert (400 <= 500 <= 499) as [_ Hle] by (apply Hclaim; reflexivity). lia.
Qed.

(** ** What the manager's operations do *)

Lemma new_actions_appended {A} (w w' : World) (a : A) (l : list Action) :
  log w' = log w ++ l -> new_actions w (Returned a w') = l.
Proof. intros Hl. unfold new_actions. simpl. rewrite Hl. apply drop_app_length. Qed.

Lemma stopStream_run w id :
  stopStream id w
  = Returned tt match streams w !! id with
                | Some c => set_streams (delete id (streams w)) (add_log (Kill c) w)
                | None => w
                end.
Proof. unfold stopStream. run. by destruct (streams w !! id). Qed.

Lemma resolveRtspUrl_world `{Platform} camera w :
  world_of (resolveRtspUrl camera w) = w.
Proof.
  unfold resolveRtspUrl.
  destruct (truthy_str (Camera.username camera) && truthy_str (Camera.encryptedPassword camera));
    [|done].
  destruct (decryptCredentials _); [|done]. by destruct (new_URL _).
Qed.

Lemma resolveRtspUrl_cases `{Platform} camera w :
  (exists u, resolveRtspUrl camera w = Returned u w)
  \/ (exists e, resolveRtspUrl camera w = Threw e w).
Proof.
  pose proof (resolveRtspUrl_world camera w) as Hw.
  destruct (resolveRtspUrl camera w) as [u w'|e w']; simpl in Hw; subst; eauto.
Qed.

(** ** The camera routes *)

Lemma deleteCameraRoute_run w id camera :
  cameras (storage w) !! id = Some camera ->
  let f := {| event := "camera-deleted"; data := PCameraDeleted id |} in
  exists w',
    deleteCameraRoute id w = Returned {| res_status := 204; res_body := BEmpty |} w'
    /\ log w' = log w ++ CameraRowDeleted id :: stream_kills w id
                        ++ Broadcast f :: sends (wsClients w) f
    /\ storage w' = snd (deleteCamera id (storage w))
    /\ streams w' = delete id (streams w)
    /\ ff_recordings w' = ff_recordings w
    /\ monitoredCameras w' = monitoredCameras w ∖ {[id]}.
Proof.
  intros Hc f. unfold deleteCameraRoute, deleteCamera, removeCamera. run.
  rewrite bool_decide_eq_true_2 by eauto. run.
  rewrite stopStream_run. unfold broadcast, stream_kills. run. simpl.
  destruct (streams w !! id) as [c|] eqn:Hs; simpl.
  - eexists. split; [reflexivity|]. simpl. rewrite <- !app_assoc. done.
  - eexists. split; [reflexivity|]. simpl. rewrite <- !app_assoc.
    repeat split; try done. symmetry. by apply delete_id.
Qed.

(** C4 (as the code has it): the route deletes the camera row first, then
    takes the camera off the monitor and stops the live child, and answers
    204; it does not touch the recording child, whose entry stays with the
    manager, and no recording row that is still there has been changed (none
    is finalized). *)
Theorem deleteCameraRoute_row_first_recording_untouched w id camera :
  cameras (storage w) !! id = Some camera ->
  let o := deleteCameraRoute id w in
  let f := {| event := "camera-deleted"; data := PCameraDeleted id |} in
  result_of o = Some {| res_status := 204; res_body := BEmpty |}
  /\ new_actions w o
     = CameraRowDeleted id :: stream_kills w id ++ Broadcast f :: sends (wsClients w) f
  /\ cameras (storage (world_of o)) !! id = None
  /\ (id ∉ monitoredCameras (world_of o))
  /\ streams (world_of o) !! id = None
  /\ ff_recordings (world_of o) = ff_recordings w
  /\ (forall rid r, recordings (storage (world_of o)) !! rid = Some r ->
                    recordings (storage w) !! rid = Some r).
Proof.
  intros Hc o f. subst o.
  destruct (deleteCameraRoute_run w id camera Hc) as (w' & -> & Hlog & Hst & Hs & Hr & Hm).
  split; [done|]. split; [by apply new_actions_appended|].
  simpl. rewrite Hst, Hs, Hr, Hm. simpl.
  split; [apply lookup_delete_eq|]. split.
  { intros [_ Hout]%elem_of_difference. apply Hout. by apply elem_of_singleton. }
  split; [apply lookup_delete_eq|]. done.
Qed.

Lemma deleteCameraRoute_row_first_recording_untouched_witness :
  cameras (storage demo_world) !! "cam-1"
  = Some (demo_camera "cam-1" "rtsp://192.168.1.10/stream" "offline")
  /\ new_actions demo_world (deleteCameraRoute "cam-1" demo_world)
     = [CameraRowDeleted "cam-1"; Kill (demo_child "cam-1");
        Broadcast {| event := "camera-deleted"; data := PCameraDeleted "cam-1" |};
        Send 1 {| event := "camera-deleted"; data := PCameraDeleted "cam-1" |}]
  /\ ff_recordings (world_of (deleteCameraRoute "cam-1" demo_world))
     = ff_recordings demo_world.
Proof.
  split; [reflexivity|].
  pose proof (deleteCameraRoute_row_first_recording_untouched demo_world "cam-1"
                (demo_camera "cam-1" "rtsp://192.168.1.10/stream" "offline") eq_refl)
    as (_ & Hactions & _ & _ & _ & Hrec & _).
  split; [exact Hactions | exact Hrec].
Defined.

(** C4 (as stated) fails: with [cam-1] recording, the route does not stop the
    recording child before it deletes the row, and the recording row and the
    event row of the camera are still in the store afterwards. *)
Lemma deleteCameraRoute_keeps_recording :
  ~ (let o := deleteCameraRoute "cam-1" demo_world in
     (exists before after,
        new_actions demo_world o = before ++ Kill demo_recorder :: after
        /\ CameraRowDeleted "cam-1" ∈ after)
     /\ (forall rid r, recordings (storage (world_of o)) !! rid = Some r ->
                       Recording.cameraId r <> "cam-1")
     /\ (forall eid e, anprEvents (storage (world_of o)) !! eid = Some e ->
                       AnprEvent.cameraId e <> "cam-1")).
Proof.
  intros (_ & Hrows & _).
  apply (Hrows "rec-1" (demo_recording "rec-1" "cam-1" 1000 Null)); reflexivity.
Qed.

(** After the route: the recording child is still the manager's, the row of
    the recording has no end time, the event row is there. *)
Example deleteCameraRoute_leaves_rows :
  let w' := world_of (deleteCameraRoute "cam-1" demo_world) in
  ff_recordings w' !! "cam-1" = Some (demo_recorder, "rec-1")
  /\ recordings (storage w') !! "rec-1" = Some (demo_recording "rec-1" "cam-1" 1000 Null)
  /\ anprEvents (storage w') !! "evt-0" = Some demo_event.
Proof. repeat split; reflexivity. Qed.

Lemma stopStream_stopped w id : stopStream id w = Returned tt (stopped_world w id).
Proof. apply stopStream_run. Qed.

Lemma stopped_world_streams w id : streams (stopped_world w id) !! id = None.
Proof.
  unfold stopped_world. destruct (streams w !! id) eqn:Hs; simpl; [|done].
  apply lookup_delete_eq.
Qed.

Lemma stopped_world_again w id : stopped_world (stopped_world w id) id = stopped_world w id.
Proof.
  unfold stopped_world at 1. by rewrite stopped_world_streams.
Qed.

Lemma stopped_world_storage w id : storage (stopped_world w id) = storage w.
Proof. unfold stopped_world. by destruct (streams w !! id). Qed.

Lemma stopped_world_log w id : log (stopped_world w id) = log w ++ stream_kills w id.
Proof.
  unfold stopped_world, stream_kills. destruct (streams w !! id); simpl; [done|].
  by rewrite app_nil_r.
Qed.

Lemma stopped_world_wsClients w id : wsClients (stopped_world w id) = wsClients w.
Proof. unfold stopped_world. by destruct (streams w !! id). Qed.

Lemma stopped_world_ff_recordings w id :
  ff_recordings (stopped_world w id) = ff_recordings w.
Proof. unfold stopped_world. by destruct (streams w !! id). Qed.

Lemma startHLSStream_started `{Platform} w id camera :
  cameras (storage w) !! id = Some camera ->
  startHLSStream id w
  = match resolveRtspUrl camera (stopped_world w id) with
    | Returned u _ => Returned tt (started_world (stopped_world w id) id u)
    | Threw e _ => Threw e (stopped_world w id)
    end.
Proof.
  intros Hc. unfold startHLSStream, getCamera. run. rewrite Hc. run.
  rewrite stopStream_stopped.
  destruct (resolveRtspUrl_cases camera (stopped_world w id)) as [[u ->]|[e ->]];
    reflexivity.
Qed.

Lemma restartStream_run `{Platform} w id camera :
  cameras (storage w) !! id = Some camera ->
  restartStream id w
  = match resolveRtspUrl camera (stopped_world w id) with
    | Returned u _ => Returned tt (started_world (stopped_world w id) id u)
    | Threw e _ => Threw e (stopped_world w id)
    end.
Proof.
  intros Hc. unfold restartStream. run. rewrite stopStream_stopped.
  rewrite (startHLSStream_started (stopped_world w id) id camera)
    by (by rewrite stopped_world_storage).
  by rewrite stopped_world_again.
Qed.

Lemma parseUpdateCamera_id body : is_Some (parseUpdateCamera body) ->
  parseUpdateCamera body = Some body.
Proof. intros [b Hp]. unfold parseUpdateCamera in *. destruct (_ && _); congruence. Qed.

Lemma parseInsertCamera_id body : is_Some (parseInsertCamera body) ->
  parseInsertCamera body = Some body.
Proof. intros [b Hp]. unfold parseInsertCamera in *. destruct (_ && _); congruence. Qed.

(** [PUT] on a camera of the store, step by step. *)
Lemma putCamera_eq `{Platform} w id body iv now old :
  cameras (storage w) !! id = Some old ->
  Camera.id old = id ->
  is_Some (parseUpdateCamera body) ->
  let camera := applyUpdates old (finalUpdates_of body) now in
  let f := {| event := "camera-updated"; data := PCamera camera |} in
  let ok := {| res_status := 200; res_body := BCamera (safeCamera camera) |} in
  let w1 := updated_world w id camera in
  putCamera id body iv now w
  = if restarts body then
      match resolveRtspUrl camera (stopped_world w1 id) with
      | Returned u _ =>
          Returned ok (append_log (Broadcast f :: sends (wsClients w) f)
                         (started_world (stopped_world w1 id) id u))
      | Threw _ _ =>
          Returned {| res_status := 400; res_body := BMessage "Failed to update camera" |}
            (stopped_world w1 id)
      end
    else Returned ok (append_log (Broadcast f :: sends (wsClients w) f) w1).
Proof.
  intros Hc Hid Hp camera f ok w1.
  unfold putCamera. run. rewrite (parseUpdateCamera_id body Hp). unfold parse_or_throw. run.
  unfold updateCamera. rewrite Hc. cbn zeta beta iota.
  fold (finalUpdates_of body). fold camera. fold (updated_world w id camera). fold w1.
  fold (restarts body).
  assert (Camera.id camera = id) as -> by (by rewrite <- Hid).
  destruct (restarts body).
  - rewrite (restartStream_run w1 id camera) by apply lookup_insert_eq.
    destruct (resolveRtspUrl_cases camera (stopped_world w1 id)) as [[u ->]|[e ->]].
    + unfold broadcast. run. simpl. by rewrite stopped_world_wsClients.
    + reflexivity.
  - unfold broadcast. run. reflexivity.
Qed.

Lemma sends_open clients f ws :
  ws ∈ clients -> readyState ws = OPEN -> Send (ws_id ws) f ∈ sends clients f.
Proof.
  intros Hin Hopen. unfold sends. apply list_elem_of_omap.
  exists ws. split; [done|]. by rewrite Hopen.
Qed.

(** C8 (as the code has it): an update of a camera of the store restarts the
    live stream exactly when it supplies a non-empty [rtspUrl] or an
    [enabledProtocols] object, whether or not they differ from the stored
    ones; and unless that restart throws it broadcasts [camera-updated]
    once, whatever the content of the update. *)
Theorem putCamera_restarts_on_supplied_keys `{Platform} w id body iv now old :
  cameras (storage w) !! id = Some old ->
  Camera.id old = id ->
  is_Some (parseUpdateCamera body) ->
  let o := putCamera id body iv now w in
  let f := {| event := "camera-updated";
              data := PCamera (applyUpdates old (finalUpdates_of body) now) |} in
  (restarts body = false ->
     new_actions w o = Broadcast f :: sends (wsClients w) f
     /\ streams (world_of o) = streams w
     /\ res_status <$> result_of o = Some 200)
  /\ (restarts body = true ->
        (exists u,
            new_actions w o
            = stream_kills w id ++ Spawn (live_child id u) :: Broadcast f :: sends (wsClients w) f
            /\ res_status <$> result_of o = Some 200)
        \/ (new_actions w o = stream_kills w id
            /\ res_status <$> result_of o = Some 400)).
Proof.
  intros Hc Hid Hp o f. subst o.
  rewrite (putCamera_eq w id body iv now old Hc Hid Hp). cbn zeta.
  set (camera := applyUpdates old (finalUpdates_of body) now) in *.
  set (w1 := updated_world w id camera).
  split; intros ->.
  - split; [by apply new_actions_appended|]. done.
  - destruct (resolveRtspUrl_cases camera (stopped_world w1 id)) as [[u ->]|[e ->]].
    + left. exists u. split; [|done]. apply new_actions_appended.
      simpl. rewrite stopped_world_log. simpl. by rewrite <- !app_assoc.
    + right. split; [|done]. apply new_actions_appended.
      by rewrite stopped_world_log.
Qed.

Lemma putCamera_restarts_on_supplied_keys_witness :
  new_actions demo_world (@putCamera demo "cam-1" same_address_update demo_iv 0 demo_world)
  = [Kill (demo_child "cam-1");
     Spawn (live_child "cam-1" "rtsp://192.168.1.10/stream");
     Broadcast {| event := "camera-updated";
                  data := PCamera (demo_camera "cam-1" "rtsp://192.168.1.10/stream" "offline") |};
     Send 1 {| event := "camera-updated";
               data := PCamera (demo_camera "cam-1" "rtsp://192.168.1.10/stream" "offline") |}].
Proof.
  destruct (@putCamera_restarts_on_supplied_keys demo demo_world "cam-1" same_address_update
              demo_iv 0 (demo_camera "cam-1" "rtsp://192.168.1.10/stream" "offline")
              eq_refl eq_refl (ex_intro _ same_address_update eq_refl)) as [_ Hrestart].
  destruct (Hrestart eq_refl) as [[u [Hactions _]]|[Hactions _]];
    vm_compute in Hactions |- *; reflexivity.
Defined.

(** C8 (as stated) fails: an update whose content is what the camera already
    has (here its own address, at the instant of its last update) kills and
    respawns the live child and broadcasts [camera-updated]. *)
Lemma putCamera_identical_content_restarts :
  ~ (forall body,
       applyUpdates (demo_camera "cam-1" "rtsp://192.168.1.10/stream" "offline")
         (finalUpdates_of body) 0
       = demo_camera "cam-1" "rtsp://192.168.1.10/stream" "offline" ->
       forallb (fun a => negb (is_spawn a || is_kill a || is_broadcast a))
         (new_actions demo_world (@putCamera demo "cam-1" body demo_iv 0 demo_world)) = true).
Proof.
  intros Hclaim. specialize (Hclaim same_address_update eq_refl).
  vm_compute in Hclaim. discriminate.
Qed.

(** C10: whatever a [PUT] on a camera of the store carries, the camera is
    stored with the [encryptedPassword] it had before.  The stored row is the
    former one with every submitted key replaced by the submitted value (a
    key submitted as [null] included) and [updatedAt] set; [id], [status],
    [lastSeen] and [createdAt] stay; a (non-empty) password in the update is
    dropped and leaves the row's [password] key as it was.  This holds
    whether the route answers 200 or, after a failed restart, 400. *)
Theorem putCamera_keeps_encryptedPassword `{Platform} w id body iv now old :
  cameras (storage w) !! id = Some old ->
  Camera.id old = id ->
  is_Some (parseUpdateCamera body) ->
  let w' := world_of (putCamera id body iv now w) in
  exists camera,
    cameras (storage w') !! id = Some camera
    /\ Camera.encryptedPassword camera = Camera.encryptedPassword old
    /\ camera
       = Camera.mk (Camera.id old)
           (match CameraBody.name body with Val v => v | _ => Camera.name old end)
           (match CameraBody.rtspUrl body with Val v => v | _ => Camera.rtspUrl old end)
           (match CameraBody.username body with
            | Undefined => Camera.username old
            | submitted => submitted
            end)
           (Camera.encryptedPassword old)
           (if truthy_str (CameraBody.password body) then Camera.password old
            else match CameraBody.password body with
                 | Undefined => Camera.password old
                 | submitted => submitted
                 end)
           (match CameraBody.location body with
            | Undefined => Camera.location old
            | submitted => submitted
            end)
           (match CameraBody.tags body with
            | Undefined => Camera.tags old
            | submitted => submitted
            end)
           (match CameraBody.enabledProtocols body with
            | Undefined => Camera.enabledProtocols old
            | submitted => submitted
            end)
           (match CameraBody.layout body with
            | Undefined => Camera.layout old
            | submitted => submitted
            end)
           (match CameraBody.recording body with
            | Undefined => Camera.recording old
            | submitted => submitted
            end)
           (match CameraBody.anpr body with
            | Undefined => Camera.anpr old
            | submitted => submitted
            end)
           (Camera.status old)
           (Camera.lastSeen old)
           (match CameraBody.metadata body with
            | Undefined => Camera.metadata old
            | submitted => submitted
            end)
           (Camera.createdAt old)
           now.
Proof.
  intros Hc Hid Hp w'. subst w'.
  rewrite (putCamera_eq w id body iv now old Hc Hid Hp). cbn zeta.
  set (camera := applyUpdates old (finalUpdates_of body) now).
  exists camera. split; [|split; [done|]].
  - destruct (restarts body).
    + destruct (resolveRtspUrl_cases camera (stopped_world (updated_world w id camera) id))
        as [[u ->]|[e ->]]; simpl; rewrite stopped_world_storage; apply lookup_insert_eq.
    + simpl. apply lookup_insert_eq.
  - subst camera. unfold finalUpdates_of, applyUpdates, spread, from_val.
    destruct (truthy_str (CameraBody.password body)); cbn; f_equal;
      repeat match goal with
             | |- context [match ?x with _ => _ end] => destruct x
             end; reflexivity.
Qed.

Lemma putCamera_keeps_encryptedPassword_witness :
  cameras (storage (world_of (@putCamera demo "cam-1" full_update demo_iv 9 demo_world)))
    !! "cam-1"
  = Some (Camera.mk "cam-1" "Yard" "rtsp://192.168.1.11/yard" (Val "guard") Null Undefined
            (Val "South yard") (Val ["yard"; "south"]) (Val [("webrtc", true)])
            (Val {| layout_row := 1; layout_col := 2; layout_size := 3 |})
            (Val {| mode := "continuous"; segmentSeconds := 10; retainDays := Some 30 |})
            (Val {| enabled := false; sampleEveryNthFrame := Some 2;
                    confidenceThreshold := Some (9 # 10) |})
            "offline" Null (Val "{note}") 0 9).
Proof.
  destruct (@putCamera_keeps_encryptedPassword demo demo_world "cam-1" full_update
              demo_iv 9 (demo_camera "cam-1" "rtsp://192.168.1.10/stream" "offline")
              eq_refl eq_refl (ex_intro _ full_update eq_refl))
    as (camera & Hstored & _ & Hrow).
  rewrite Hstored, Hrow. reflexivity.
Defined.

(** [POST] with a body the schema accepts, step by step. *)
Lemma postCamera_eq `{Platform} w body iv id now :
  is_Some (parseInsertCamera body) ->
  let encrypted :=
    if truthy_str (CameraBody.password body)
    then Val (encryptCredentials iv (from_val "" (CameraBody.password body)))
    else Null in
  let camera :=
    fst (createCamera id now (withoutPassword body)
           (if truthy_str encrypted then encrypted else Undefined) (storage w)) in
  let f := {| event := "camera-added"; data := PCamera camera |} in
  let w1 := created_world w id camera in
  postCamera body iv id now w
  = Returned {| res_status := 201; res_body := BCamera (safeCamera camera) |}
      (append_log (Broadcast f :: sends (wsClients w) f)
         (if has_hls (Camera.enabledProtocols camera)
          then started_world (stopped_world w1 id) id (Camera.rtspUrl camera)
          else w1)).
Proof.
  intros Hp encrypted camera f w1.
  unfold postCamera. run. rewrite (parseInsertCamera_id body Hp). unfold parse_or_throw. run.
  unfold createCamera, addCamera. run. cbn [Camera.id Camera.enabledProtocols].
  fold (updated_world w id camera). 
  change (set_monitoredCameras _ (updated_world w id camera)) with w1.
  change (CameraBody.enabledProtocols (withoutPassword body))
    with (Camera.enabledProtocols camera).
  destruct (has_hls (Camera.enabledProtocols camera)).
  - rewrite (startHLSStream_started w1 id camera) by apply lookup_insert_eq.
    unfold resolveRtspUrl. cbn [Camera.encryptedPassword camera fst createCamera truthy_str].
    rewrite andb_false_r. unfold broadcast. run. simpl.
    by rewrite stopped_world_wsClients.
  - unfold broadcast. run. reflexivity.
Qed.

(** ** The health monitor *)

Lemma status_events_app id l1 l2 :
  status_events id (l1 ++ l2) = (status_events id l1 + status_events id l2)%nat.
Proof. induction l1 as [|a l1 IH]; simpl; [done|]. rewrite IH. lia. Qed.

Lemma status_events_sends id clients f : status_events id (sends clients f) = 0%nat.
Proof.
  induction clients as [|ws clients IH]; [done|].
  unfold sends in *. simpl. destruct (readyState ws =? OPEN); simpl; done.
Qed.

Lemma status_events_kills id w j : status_events id (stream_kills w j) = 0%nat.
Proof. unfold stream_kills. by destruct (streams w !! j). Qed.

(** One check, whatever it finds: the store is left as it was, the cameras
    that have a row stay monitored, and the only status event it can add is
    one for the camera checked. *)
Lemma checkCamera_effect `{Platform} j w :
  exists w' l,
    checkCamera j w = Returned tt w'
    /\ storage w' = storage w
    /\ log w' = log w ++ l
    /\ (forall i, is_Some (cameras (storage w) !! i) ->
                  i ∈ monitoredCameras w -> i ∈ monitoredCameras w')
    /\ (forall i, i <> j -> status_events i l = 0%nat)
    /\ status_events j l
       = match cameras (storage w) !! j with
         | Some camera => status_changes camera
         | None => 0%nat
         end.
Proof.
  unfold checkCamera, getCamera. run.
  destruct (cameras (storage w) !! j) as [camera|] eqn:Hc; run.
  - unfold status_changes, derived_status.
    set (status := probeRTSPStream _ _ _).
    set (newStatus := if connected status then "online" else "offline").
    destruct (String.eqb (Camera.status camera) newStatus) eqn:Hsame; simpl.
    + exists w, []. rewrite app_nil_r. by repeat split.
    + unfold emit, broadcast. run.
      set (f := {| event := "camera-status"; data := _ |}).
      set (w1 := append_log (Broadcast f :: sends _ f) (add_log (Emit f) w)).
      assert (status_events j [Emit f] = 1%nat) as Hone.
      { simpl. by rewrite String.eqb_refl. }
      assert (forall i, i <> j -> status_events i [Emit f] = 0%nat) as Hnone.
      { intros i Hi. simpl. apply String.eqb_neq in Hi. rewrite String.eqb_sym in Hi.
        by rewrite Hi. }
      assert (log w1 = (log w ++ [Emit f]) ++ Broadcast f :: sends (wsClients w) f) as Hlog1
        by reflexivity.
      assert (forall i l, status_events i (Emit f :: l)
                          = (status_events i [Emit f] + status_events i l)%nat) as Hcons.
      { intros i l. apply (status_events_app i [Emit f] l). }
      destruct (String.eqb newStatus "online" && negb (String.eqb (Camera.status camera) "online")).
      * rewrite (startHLSStream_started w1 j camera) by done.
        destruct (resolveRtspUrl_cases camera (stopped_world w1 j)) as [[u ->]|[e ->]]; run.
        -- eexists _, (Emit f :: (Broadcast f :: sends (wsClients w) f)
                         ++ stream_kills w1 j ++ [Spawn (live_child j u)]).
           split; [reflexivity|]. cbn [storage log append_log add_log started_world set_streams monitoredCameras]. rewrite stopped_world_storage.
           rewrite stopped_world_log. cbn [storage log append_log add_log started_world set_streams monitoredCameras].
           split; [done|]. split; [by rewrite ?Hlog1, <- !app_assoc|].
           split. { intros i _ Hi. unfold stopped_world. by destruct (streams w1 !! j). }
           split; [intros i Hi|]; rewrite Hcons, ?Hone, ?(Hnone i Hi); simpl;
             rewrite !status_events_app, status_events_sends, status_events_kills; done.
        -- eexists _, (Emit f :: (Broadcast f :: sends (wsClients w) f) ++ stream_kills w1 j).
           split; [reflexivity|]. rewrite stopped_world_storage.
           rewrite stopped_world_log. cbn [storage log append_log add_log started_world set_streams monitoredCameras].
           split; [done|]. split; [by rewrite ?Hlog1, <- !app_assoc|].
           split. { intros i _ Hi. unfold stopped_world. by destruct (streams w1 !! j). }
           split; [intros i Hi|]; rewrite Hcons, ?Hone, ?(Hnone i Hi); simpl;
             rewrite !status_events_app, status_events_sends, status_events_kills; done.
      * eexists _, (Emit f :: Broadcast f :: sends (wsClients w) f).
        split; [reflexivity|]. cbn [storage log append_log add_log started_world set_streams monitoredCameras].
        split; [done|]. split; [by rewrite ?Hlog1, <- !app_assoc|].
        split; [done|].
        split; [intros i Hi|]; rewrite Hcons, ?Hone, ?(Hnone i Hi); simpl;
          rewrite status_events_sends; done.
  - eexists _, []. split; [reflexivity|]. simpl. rewrite app_nil_r.
    split; [done|]. split; [done|]. split; [|done].
    intros i [c Hi] Hin. apply elem_of_difference. split; [done|].
    intros ->%elem_of_singleton. congruence.
Qed.

(** One tick over distinct cameras: each camera with a row contributes the
    events of its own check, the others none. *)
Lemma for_each_checkCamera_effect `{Platform} ids :
  NoDup ids ->
  forall w,
  exists w' l,
    for_each ids checkCamera w = Returned tt w'
    /\ storage w' = storage w
    /\ log w' = log w ++ l
    /\ (forall i, is_Some (cameras (storage w) !! i) ->
                  i ∈ monitoredCameras w -> i ∈ monitoredCameras w')
    /\ (forall i camera, cameras (storage w) !! i = Some camera ->
          status_events i l = if bool_decide (i ∈ ids) then status_changes camera else 0%nat).
Proof.
  induction 1 as [|j ids Hj Hnodup IH]; intros w.
  - exists w, []. simpl. rewrite app_nil_r. repeat split; try done.
  - destruct (checkCamera_effect j w) as (w1 & l1 & Hrun & Hst1 & Hlog1 & Hmon1 & Hother & Hown).
    destruct (IH w1) as (w2 & l2 & Hrest & Hst2 & Hlog2 & Hmon2 & Hcount).
    exists w2, (l1 ++ l2). simpl. run. rewrite Hrun, Hrest.
    split; [done|]. split; [congruence|].
    split; [by rewrite Hlog2, Hlog1, app_assoc|]. split.
    { intros i Hi Hin. apply Hmon2; [by rewrite Hst1|]. by apply Hmon1. }
    intros i camera Hc. rewrite status_events_app.
    rewrite (Hcount i camera) by (by rewrite Hst1).
    destruct (decide (i = j)) as [->|Hne].
    + rewrite Hown, Hc. rewrite (bool_decide_eq_false_2 (j ∈ ids)) by done.
      rewrite bool_decide_eq_true_2 by apply list_elem_of_here. lia.
    + rewrite (Hother i Hne). simpl.
      destruct (bool_decide (i ∈ ids)) eqn:Hin.
      * apply bool_decide_eq_true in Hin.
        rewrite bool_decide_eq_true_2 by (by apply list_elem_of_further). done.
      * apply bool_decide_eq_false in Hin.
        rewrite bool_decide_eq_false_2; [done|].
        intros [?|?]%elem_of_cons; done.
Qed.

Lemma checkAllCameras_effect `{Platform} w :
  exists w' l,
    checkAllCameras w = Returned tt w'
    /\ storage w' = storage w
    /\ log w' = log w ++ l
    /\ (forall i, is_Some (cameras (storage w) !! i) ->
                  i ∈ monitoredCameras w -> i ∈ monitoredCameras w')
    /\ (forall i camera, cameras (storage w) !! i = Some camera ->
          i ∈ monitoredCameras w -> status_events i l = status_changes camera).
Proof.
  destruct (for_each_checkCamera_effect (elements (monitoredCameras w))
              (NoDup_elements _) w) as (w' & l & Hrun & Hst & Hlog & Hmon & Hcount).
  exists w', l. unfold checkAllCameras. run. rewrite Hrun.
  repeat split; try done.
  intros i camera Hc Hin. rewrite (Hcount i camera Hc).
  by rewrite bool_decide_eq_true_2 by (by apply elem_of_elements).
Qed.

(** C7 (as the code has it): a tick emits a [camera-status] event for a
    monitored camera exactly when the status it derives differs from the one
    the row records; the row is never rewritten, so of two consecutive ticks
    that derive [offline] each emits an event, or neither does: two events
    when the row records another status, none when it records [offline]. *)
Theorem checkAllCameras_offline_twice `{Platform} w id camera :
  cameras (storage w) !! id = Some camera ->
  id ∈ monitoredCameras w ->
  let o1 := checkAllCameras w in
  let o2 := checkAllCameras (world_of o1) in
  status_events id (new_actions w o1)
  = (if String.eqb (Camera.status camera) (derived_status camera) then 0 else 1)%nat
  /\ cameras (storage (world_of o2)) !! id = Some camera
  /\ (derived_status camera = "offline" ->
      status_events id (new_actions w o2)
      = (if String.eqb (Camera.status camera) "offline" then 0 else 2)%nat).
Proof.
  intros Hc Hin o1 o2. subst o1 o2.
  destruct (checkAllCameras_effect w) as (w1 & l1 & -> & Hst1 & Hlog1 & Hmon1 & Hcount1).
  simpl.
  destruct (checkAllCameras_effect w1) as (w2 & l2 & -> & Hst2 & Hlog2 & Hmon2 & Hcount2).
  rewrite (new_actions_appended w w1 tt l1 Hlog1).
  rewrite (new_actions_appended w w2 tt (l1 ++ l2)) by (by rewrite Hlog2, Hlog1, app_assoc).
  rewrite status_events_app.
  rewrite (Hcount1 id camera Hc Hin).
  rewrite (Hcount2 id camera) by (rewrite ?Hst1; eauto).
  simpl. rewrite Hst2, Hst1.
  split; [done|]. split; [done|].
  intros Hoff. unfold status_changes. rewrite Hoff.
  by destruct (String.eqb (Camera.status camera) "offline").
Qed.

Lemma checkAllCameras_offline_twice_witness :
  status_events "cam-2"
    (new_actions demo_world
       (@checkAllCameras demo (world_of (@checkAllCameras demo demo_world))))
  = 0%nat.
Proof.
  destruct (@checkAllCameras_offline_twice demo demo_world "cam-2"
              (demo_camera "cam-2" "rtsp://10.0.0.5/stream" "offline") eq_refl)
    as (_ & _ & Htwice).
  - vm_compute. reflexivity.
  - exact (Htwice eq_refl).
Defined.

(** C7 (as stated) fails: [cam-2] is recorded [offline] and cannot be
    reached; two ticks that both derive [offline] emit no [camera-status]
    event for it, not one. *)
Lemma checkAllCameras_offline_twice_not_one :
  ~ (forall id camera,
       cameras (storage demo_world) !! id = Some camera ->
       id ∈ monitoredCameras demo_world ->
       @derived_status demo camera = "offline" ->
       status_events id
         (new_actions demo_world
            (@checkAllCameras demo (world_of (@checkAllCameras demo demo_world))))
       = 1%nat).
Proof.
  intros Hclaim.
  specialize (Hclaim "cam-2" (demo_camera "cam-2" "rtsp://10.0.0.5/stream" "offline") eq_refl).
  assert ("cam-2" ∈ monitoredCameras demo_world) as Hin by (vm_compute; reflexivity).
  specialize (Hclaim Hin eq_refl). vm_compute in Hclaim. discriminate.
Qed.

(** A row recorded [online] for a camera that cannot be reached: each of two
    ticks emits [camera-status: offline]. *)
Example checkAllCameras_offline_twice_two_events :
  status_events "cam-2"
    (new_actions demo_world_online
       (@checkAllCameras demo (world_of (@checkAllCameras demo demo_world_online))))
  = 2%nat.
Proof. vm_compute. reflexivity. Qed.

(** ** The retention sweep *)

Lemma sort_insert_elem_of {A} (cmp : A -> A -> Z) x y l :
  y ∈ sort_insert cmp x l <-> y = x \/ y ∈ l.
Proof.
  induction l as [|z l IH]; simpl.
  - set_solver.
  - destruct (cmp x z <=? 0).
    + rewrite !elem_of_cons. tauto.
    + rewrite elem_of_cons, IH, elem_of_cons. tauto.
Qed.

Lemma js_sort_elem_of {A} (cmp : A -> A -> Z) y l : y ∈ js_sort cmp l <-> y ∈ l.
Proof.
  unfold js_sort. induction l as [|x l IH]; simpl; [done|].
  rewrite sort_insert_elem_of, IH, elem_of_cons. tauto.
Qed.

Lemma values_elem_of {A} (m : gmap string A) x : x ∈ values m <-> exists k, m !! k = Some x.
Proof.
  unfold values. rewrite list_elem_of_fmap. split.
  - intros [[k v] [-> Hin]]. exists k. by apply elem_of_map_to_list.
  - intros [k Hk]. exists (k, x). split; [done|]. by apply elem_of_map_to_list.
Qed.

Lemma List_filter_elem_of {A} (p : A -> bool) x l :
  x ∈ List.filter p l <-> x ∈ l /\ p x = true.
Proof. rewrite !list_elem_of_In. apply filter_In. Qed.

(** What [getRecordings] returns for a camera and a cutoff. *)
Lemma getRecordings_elem_of s id cutoff r :
  r ∈ getRecordings {| f_cameraId := Some id; f_from := None; f_to := Some cutoff |} s ->
  (exists k, recordings s !! k = Some r)
  /\ (id = "" \/ Recording.cameraId r = id)
  /\ Recording.startTime r <= cutoff.
Proof.
  unfold getRecordings. rewrite js_sort_elem_of. simpl.
  rewrite !List_filter_elem_of. intros [[Hin _] Hto]. simpl in Hto.
  apply Z.leb_le in Hto.
  destruct (String.eqb id "") eqn:Hid.
  - apply String.eqb_eq in Hid. apply values_elem_of in Hin. auto.
  - apply List_filter_elem_of in Hin as [Hin Hcam].
    apply String.eqb_eq in Hcam. apply values_elem_of in Hin. auto.
Qed.

Lemma adjacent_app_l a b l l' : adjacent a b l -> adjacent a b (l' ++ l).
Proof. intros (l1 & l2 & ->). exists (l' ++ l1), l2. by rewrite <- app_assoc. Qed.

Lemma adjacent_app_r a b l l' : adjacent a b l -> adjacent a b (l ++ l').
Proof.
  intros (l1 & l2 & ->). exists l1, (l2 ++ l'). rewrite <- app_assoc. reflexivity.
Qed.

Lemma cleanupRecording_run r w :
  exists w' l,
    cleanupRecording r w = Returned tt w'
    /\ cameras (storage w') = cameras (storage w)
    /\ log w' = log w ++ l
    /\ ((recordings (storage w') = recordings (storage w) /\ l = [])
        \/ (recordings (storage w') = delete (Recording.id r) (recordings (storage w))
            /\ l = [Unlink (Recording.path r); RecordingRowDeleted (Recording.id r)])).
Proof.
  unfold cleanupRecording, unlink. run.
  destruct (bool_decide (is_Some (files w !! Recording.path r))); run.
  - eexists _, _. split; [reflexivity|]. simpl. rewrite <- app_assoc. simpl.
    split; [done|]. split; [done|]. by right.
  - exists w, []. rewrite app_nil_r. split; [done|]. split; [done|]. split; [done|].
    by left.
Qed.

Lemma sweep_recordings_effect olds :
  forall w,
  exists w' l,
    for_each olds cleanupRecording w = Returned tt w'
    /\ cameras (storage w') = cameras (storage w)
    /\ recordings (storage w') ⊆ recordings (storage w)
    /\ log w' = log w ++ l
    /\ (forall k, is_Some (recordings (storage w) !! k) ->
                  recordings (storage w') !! k = None ->
                  exists r, r ∈ olds /\ Recording.id r = k
                            /\ adjacent (Unlink (Recording.path r)) (RecordingRowDeleted k) l).
Proof.
  induction olds as [|r olds IH]; intros w.
  - exists w, []. simpl. rewrite app_nil_r. repeat split; try done.
    intros k [x Hx] Hnone. congruence.
  - destruct (cleanupRecording_run r w) as (w1 & l1 & Hrun & Hc1 & Hlog1 & Hcase).
    destruct (IH w1) as (w2 & l2 & Hrest & Hc2 & Hsub2 & Hlog2 & Hdel2).
    exists w2, (l1 ++ l2). simpl. run. rewrite Hrun, Hrest.
    split; [done|]. split; [congruence|].
    assert (recordings (storage w1) ⊆ recordings (storage w)) as Hsub1.
    { destruct Hcase as [[-> _]|[-> _]]; [done|]. apply delete_subseteq. }
    split; [by etrans|]. split; [by rewrite Hlog2, Hlog1, app_assoc|].
    intros k Hk Hnone.
    destruct (recordings (storage w1) !! k) as [x|] eqn:Hk1.
    + destruct (Hdel2 k) as (r' & Hin & Hid & Hadj); [eauto|done|].
      exists r'. split; [by apply list_elem_of_further|]. split; [done|].
      by apply adjacent_app_l.
    + destruct Hcase as [[Heq _]|[Heq ->]].
      * rewrite Heq in Hk1. destruct Hk as [x Hx]. congruence.
      * rewrite Heq in Hk1. destruct (decide (Recording.id r = k)) as [Hid|Hne].
        -- exists r. split; [apply list_elem_of_here|]. split; [done|].
           subst k. exists [], l2. reflexivity.
        -- rewrite lookup_delete_ne in Hk1 by done. destruct Hk as [x Hx]. congruence.
Qed.

Lemma cleanupCamera_effect `{Platform} now camera w :
  (forall k r, recordings (storage w) !! k = Some r -> Recording.id r = k) ->
  exists w' l,
    cleanupCamera now camera w = Returned tt w'
    /\ cameras (storage w') = cameras (storage w)
    /\ recordings (storage w') ⊆ recordings (storage w)
    /\ log w' = log w ++ l
    /\ (forall k r, recordings (storage w) !! k = Some r ->
                    recordings (storage w') !! k = None ->
                    (Camera.id camera = "" \/ Recording.cameraId r = Camera.id camera)
                    /\ Recording.startTime r <= cutoffDate camera now
                    /\ adjacent (Unlink (Recording.path r)) (RecordingRowDeleted k) l).
Proof.
  intros Hfiled. unfold cleanupCamera. run.
  set (olds := getRecordings _ _).
  destruct (sweep_recordings_effect olds w) as (w' & l & Hrun & Hc & Hsub & Hlog & Hdel).
  exists w', l. repeat split; try done;
    destruct (Hdel k) as (r' & Hin & Hid & Hadj); eauto;
    apply getRecordings_elem_of in Hin as ([k' Hk'] & Hcam & Hstart);
    pose proof (Hfiled k' r' Hk') as Hid'; assert (k' = k) as -> by congruence;
    assert (r' = r) as -> by congruence; done.
Qed.

Lemma cleanupCameras_effect `{Platform} cams (clock : string -> Z) :
  forall w,
  (forall k r, recordings (storage w) !! k = Some r -> Recording.id r = k) ->
  exists w' l,
    for_each cams (fun camera => cleanupCamera (clock (Camera.id camera)) camera) w
    = Returned tt w'
    /\ cameras (storage w') = cameras (storage w)
    /\ recordings (storage w') ⊆ recordings (storage w)
    /\ log w' = log w ++ l
    /\ (forall k r, recordings (storage w) !! k = Some r ->
                    recordings (storage w') !! k = None ->
                    exists camera,
                      camera ∈ cams
                      /\ (Camera.id camera = "" \/ Recording.cameraId r = Camera.id camera)
                      /\ Recording.startTime r <= cutoffDate camera (clock (Camera.id camera))
                      /\ adjacent (Unlink (Recording.path r)) (RecordingRowDeleted k) l).
Proof.
  induction cams as [|camera cams IH]; intros w Hfiled.
  - exists w, []. simpl. rewrite app_nil_r. repeat split; try done.
    intros k r Hk Hnone. congruence.
  - destruct (cleanupCamera_effect (clock (Camera.id camera)) camera w Hfiled)
      as (w1 & l1 & Hrun & Hc1 & Hsub1 & Hlog1 & Hdel1).
    assert (forall k r, recordings (storage w1) !! k = Some r -> Recording.id r = k)
      as Hfiled1.
    { intros k r Hk. apply (Hfiled k r). by eapply lookup_weaken. }
    destruct (IH w1 Hfiled1) as (w2 & l2 & Hrest & Hc2 & Hsub2 & Hlog2 & Hdel2).
    exists w2, (l1 ++ l2). simpl. run. rewrite Hrun, Hrest.
    split; [done|]. split; [congruence|]. split; [by etrans|].
    split; [by rewrite Hlog2, Hlog1, app_assoc|].
    intros k r Hk Hnone.
    destruct (recordings (storage w1) !! k) as [x|] eqn:Hk1.
    + assert (x = r) as ->.
      { pose proof (lookup_weaken _ _ _ _ Hk1 Hsub1). congruence. }
      destruct (Hdel2 k r Hk1 Hnone) as (c & Hin & Hcam & Hstart & Hadj).
      exists c. split; [by apply list_elem_of_further|].
      repeat split; try done. by apply adjacent_app_l.
    + destruct (Hdel1 k r Hk Hk1) as (Hcam & Hstart & Hadj).
      exists camera. split; [apply list_elem_of_here|].
      repeat split; try done. by apply adjacent_app_r.
Qed.

Lemma getRecordings_elem_of_iff s id cutoff r :
  id <> "" ->
  r ∈ getRecordings {| f_cameraId := Some id; f_from := None; f_to := Some cutoff |} s
  <-> (exists k, recordings s !! k = Some r)
      /\ Recording.cameraId r = id
      /\ Recording.startTime r <= cutoff.
Proof.
  intros Hid. unfold getRecordings. rewrite js_sort_elem_of. simpl.
  apply String.eqb_neq in Hid. rewrite Hid.
  rewrite !List_filter_elem_of, values_elem_of. simpl.
  rewrite String.eqb_eq, Z.leb_le. tauto.
Qed.

Lemma cleanupRecording_other r' w rid r :
  awaiting w rid r ->
  Recording.id r' <> rid ->
  Recording.path r' <> Recording.path r ->
  awaiting (world_of (cleanupRecording r' w)) rid r.
Proof.
  intros [Hr Hf] Hid Hpath. unfold cleanupRecording, unlink. run.
  destruct (bool_decide (is_Some (files w !! Recording.path r'))); run; simpl.
  - split; simpl.
    + by rewrite lookup_delete_ne.
    + by rewrite lookup_delete_ne.
  - done.
Qed.

Lemma cleanupRecording_own r w :
  is_Some (files w !! Recording.path r) ->
  recordings (storage (world_of (cleanupRecording r w))) !! Recording.id r = None.
Proof.
  intros Hf. unfold cleanupRecording, unlink. run.
  rewrite bool_decide_eq_true_2 by done. run. simpl. apply lookup_delete_eq.
Qed.

Lemma for_each_cleanupRecording_returns olds w :
  for_each olds cleanupRecording w
  = Returned tt (world_of (for_each olds cleanupRecording w)).
Proof.
  destruct (sweep_recordings_effect olds w) as (w' & l & -> & _). done.
Qed.

Lemma cleanupRecording_returns r w :
  cleanupRecording r w = Returned tt (world_of (cleanupRecording r w)).
Proof. destruct (cleanupRecording_run r w) as (w' & l & -> & _). done. Qed.

Lemma sweep_recordings_others olds :
  forall w rid r,
  awaiting w rid r ->
  (forall r', r' ∈ olds -> Recording.id r' <> rid /\ Recording.path r' <> Recording.path r) ->
  awaiting (world_of (for_each olds cleanupRecording w)) rid r.
Proof.
  induction olds as [|r0 olds IH]; intros w rid r Haw Holds; [done|].
  simpl. run. rewrite (cleanupRecording_returns r0 w).
  apply IH.
  - destruct (Holds r0) as [? ?]; [apply list_elem_of_here|].
    by apply cleanupRecording_other.
  - intros r' Hr'. apply Holds. by apply list_elem_of_further.
Qed.

Lemma sweep_recordings_deletes olds :
  forall w rid r,
  awaiting w rid r ->
  Recording.id r = rid ->
  r ∈ olds ->
  (forall r', r' ∈ olds -> r' = r \/ (Recording.id r' <> rid
                                      /\ Recording.path r' <> Recording.path r)) ->
  recordings (storage (world_of (for_each olds cleanupRecording w))) !! rid = None.
Proof.
  induction olds as [|r0 olds IH]; intros w rid r Haw Hid Hin Holds.
  - by apply elem_of_nil in Hin.
  - simpl. run. rewrite (cleanupRecording_returns r0 w).
    destruct (Holds r0) as [->|[Hid0 Hpath0]]; [apply list_elem_of_here| |].
    + destruct (sweep_recordings_effect olds (world_of (cleanupRecording r w)))
        as (w' & l & -> & _ & Hsub & _). simpl.
      destruct Haw as [_ Hf]. pose proof (cleanupRecording_own r w Hf) as Hgone.
      rewrite Hid in Hgone.
      destruct (recordings (storage w') !! rid) eqn:E; [|done].
      pose proof (lookup_weaken _ _ _ _ E Hsub). congruence.
    + apply (IH _ rid r).
      * by apply cleanupRecording_other.
      * done.
      * apply elem_of_cons in Hin as [->|Hin]; [done|done].
      * intros r' Hr'. apply Holds. by apply list_elem_of_further.
Qed.

Lemma sole_owner_weaken w w' rid r :
  recordings (storage w') ⊆ recordings (storage w) ->
  sole_owner w rid r -> sole_owner w' rid r.
Proof.
  intros Hsub [Hfiled Hunique]. split.
  - intros k r' Hk. apply (Hfiled k r'). by eapply lookup_weaken.
  - intros k r' Hk. apply (Hunique k r'). by eapply lookup_weaken.
Qed.

Lemma cleanupCamera_world `{Platform} now camera w :
  cleanupCamera now camera w
  = Returned tt
      (world_of (for_each
                   (getRecordings {| f_cameraId := Some (Camera.id camera);
                                     f_from := None;
                                     f_to := Some (cutoffDate camera now) |} (storage w))
                   cleanupRecording w)).
Proof. unfold cleanupCamera. run. apply for_each_cleanupRecording_returns. Qed.

Lemma cleanupCamera_others `{Platform} now c0 w rid r :
  awaiting w rid r ->
  sole_owner w rid r ->
  Camera.id c0 <> "" ->
  Camera.id c0 <> Recording.cameraId r ->
  awaiting (world_of (cleanupCamera now c0 w)) rid r.
Proof.
  intros Haw [Hfiled Hunique] Hne Hother. rewrite cleanupCamera_world. simpl.
  apply sweep_recordings_others; [done|].
  intros r' [[k Hk] [Hcam _]]%getRecordings_elem_of_iff; [|done].
  pose proof (Hfiled k r' Hk) as Hid.
  assert (k <> rid) as Hk'.
  { intros ->. destruct Haw as [Hr _]. congruence. }
  split; [congruence|]. intros Hpath. by apply Hk', (Hunique k r').
Qed.

Lemma cleanupCamera_deletes `{Platform} now c w rid r :
  awaiting w rid r ->
  sole_owner w rid r ->
  Camera.id c <> "" ->
  Camera.id c = Recording.cameraId r ->
  Recording.startTime r <= cutoffDate c now ->
  recordings (storage (world_of (cleanupCamera now c w))) !! rid = None.
Proof.
  intros Haw [Hfiled Hunique] Hne Hcam Hstart. rewrite cleanupCamera_world. simpl.
  pose proof Haw as [Hr _].
  apply (sweep_recordings_deletes _ w rid r); [done|by apply Hfiled| |].
  - apply getRecordings_elem_of_iff; [done|]. eauto.
  - intros r' [[k Hk] _]%getRecordings_elem_of_iff; [|done].
    pose proof (Hfiled k r' Hk) as Hid.
    destruct (decide (k = rid)) as [->|Hk']; [left; congruence|].
    right. split; [congruence|]. intros Hpath. by apply Hk', (Hunique k r').
Qed.

Lemma cleanupCameras_deletes `{Platform} cams (clock : string -> Z) c rid r :
  Camera.id c = Recording.cameraId r ->
  Recording.startTime r <= cutoffDate c (clock (Camera.id c)) ->
  (forall c0, c0 ∈ cams -> Camera.id c0 <> "" /\ (Camera.id c0 = Camera.id c -> c0 = c)) ->
  c ∈ cams ->
  forall w,
  awaiting w rid r ->
  sole_owner w rid r ->
  recordings
    (storage (world_of (for_each cams
                          (fun camera => cleanupCamera (clock (Camera.id camera)) camera) w)))
    !! rid = None.
Proof.
  intros Hcam Hstart. induction cams as [|c0 cams IH]; intros Hcams Hin w Haw Hsole.
  - by apply elem_of_nil in Hin.
  - simpl. run. rewrite cleanupCamera_world.
    set (w1 := world_of (for_each _ cleanupRecording w)).
    assert (recordings (storage w1) ⊆ recordings (storage w)) as Hsub.
    { subst w1. destruct (sweep_recordings_effect
                            (getRecordings {| f_cameraId := Some (Camera.id c0);
                                              f_from := None;
                                              f_to := Some (cutoffDate c0 (clock (Camera.id c0))) |}
                               (storage w)) w) as (w' & l & -> & _ & Hsub & _). done. }
    assert (w1 = world_of (cleanupCamera (clock (Camera.id c0)) c0 w)) as Hw1
      by (by rewrite cleanupCamera_world).
    destruct (Hcams c0) as [Hne Hsame]; [apply list_elem_of_here|].
    destruct (decide (Camera.id c0 = Camera.id c)) as [Heq|Hneq].
    + rewrite (Hsame Heq) in *.
      pose proof (cleanupCamera_deletes (clock (Camera.id c)) c w rid r Haw Hsole Hne Hcam Hstart)
        as Hgone.
      rewrite <- Hw1 in Hgone.
      destruct (cleanupCameras_effect cams clock w1) as (w2 & l & -> & _ & Hsub2 & _).
      { apply (sole_owner_weaken w w1 rid r Hsub Hsole). }
      simpl. destruct (recordings (storage w2) !! rid) eqn:E; [|done].
      pose proof (lookup_weaken _ _ _ _ E Hsub2). congruence.
    + apply IH.
      * intros c' Hc'. apply Hcams. by apply list_elem_of_further.
      * apply elem_of_cons in Hin as [->|Hin]; done.
      * rewrite Hw1. apply cleanupCamera_others; try done. congruence.
      * by apply (sole_owner_weaken w w1 rid r Hsub).
Qed.

(** Whatever its end time, a recording of a camera of the store that started
    at or before the cutoff, and whose file exists and is its own, is deleted
    by the sweep. *)
Lemma cleanupOldRecordings_deletes_old `{Platform} w clock rid r camera :
  well_filed (storage w) ->
  recordings (storage w) !! rid = Some r ->
  cameras (storage w) !! Recording.cameraId r = Some camera ->
  Recording.startTime r <= cutoffDate camera (clock (Recording.cameraId r)) ->
  is_Some (files w !! Recording.path r) ->
  (forall k r', recordings (storage w) !! k = Some r' ->
                Recording.path r' = Recording.path r -> k = rid) ->
  recordings (storage (world_of (cleanupOldRecordings clock w))) !! rid = None.
Proof.
  intros (Hcams & Hrecs & Hempty) Hr Hc Hstart Hfile Hunique.
  unfold cleanupOldRecordings.
  change ((gets (fun w => getCameras (storage w)) ≫= _) w)
    with (for_each (getCameras (storage w))
            (fun camera => cleanupCamera (clock (Camera.id camera)) camera) w).
  pose proof (Hcams _ _ Hc) as Hid.
  apply (cleanupCameras_deletes _ clock camera rid r); try done.
  - unfold cutoffDate. by rewrite Hid.
  - intros c0 [k Hk]%js_sort_elem_of%values_elem_of.
    pose proof (Hcams _ _ Hk) as Hid0. split; [congruence|].
    intros Hsame. assert (k = Recording.cameraId r) as -> by congruence. congruence.
  - unfold getCameras. apply js_sort_elem_of, values_elem_of. eauto.
Qed.

(** C3 (as the code has it): in a store whose rows are filed under their
    ids, the sweep deletes only recordings of a camera of the store whose
    start is at or before that camera's cutoff, the date of the clock moved
    back by the retention days on the local calendar ([setDate]), and each of
    them by unlinking its file and, right after, deleting its row; and it
    deletes every such recording whose file exists and is the file of no
    other row, whatever its end time: a row without an end time is not
    spared. *)
Theorem cleanupOldRecordings_deletes_only_old :
  (forall (P : Platform) w clock rid r,
      well_filed (storage w) ->
      recordings (storage w) !! rid = Some r ->
      let o := cleanupOldRecordings clock w in
      recordings (storage (world_of o)) !! rid = None ->
      exists camera,
        cameras (storage w) !! Recording.cameraId r = Some camera
        /\ Recording.startTime r
           <= daysBefore (clock (Recording.cameraId r)) (retainDays_of camera)
        /\ adjacent (Unlink (Recording.path r)) (RecordingRowDeleted rid) (new_actions w o))
  /\ (forall (P : Platform) w clock rid r camera,
        well_filed (storage w) ->
        recordings (storage w) !! rid = Some r ->
        cameras (storage w) !! Recording.cameraId r = Some camera ->
        Recording.startTime r
        <= daysBefore (clock (Recording.cameraId r)) (retainDays_of camera) ->
        is_Some (files w !! Recording.path r) ->
        (forall k r', recordings (storage w) !! k = Some r' ->
                      Recording.path r' = Recording.path r -> k = rid) ->
        recordings (storage (world_of (cleanupOldRecordings clock w))) !! rid = None).
Proof.
  split.
  - intros P w clock rid r (Hcams & Hrecs & Hempty) Hr o Hgone. subst o.
    unfold cleanupOldRecordings in *.
    change ((gets (fun w => getCameras (storage w)) ≫= _) w)
      with (for_each (getCameras (storage w))
              (fun camera => cleanupCamera (clock (Camera.id camera)) camera) w) in *.
    destruct (cleanupCameras_effect (getCameras (storage w)) clock w Hrecs)
      as (w' & l & Hrun & Hc & Hsub & Hlog & Hdel).
    rewrite Hrun in *. simpl in Hgone.
    destruct (Hdel rid r Hr Hgone) as (camera & Hin & Hcam & Hstart & Hadj).
    unfold getCameras in Hin. apply js_sort_elem_of, values_elem_of in Hin as [kc Hkc].
    pose proof (Hcams kc camera Hkc) as Hid.
    assert (Camera.id camera <> "") as Hne by (intros He; congruence).
    destruct Hcam as [?|Hcam]; [done|].
    exists camera. rewrite Hcam, Hid. split; [done|]. split.
    + unfold cutoffDate in Hstart. by rewrite Hid in Hstart.
    + by rewrite (new_actions_appended w w' tt l Hlog).
  - intros P w clock rid r camera. apply cleanupOldRecordings_deletes_old.
Qed.

Lemma demo_world_well_filed : well_filed (storage demo_world).
Proof.
  split; [|split].
  - intros k c Hk. simpl in Hk.
    apply lookup_insert_Some in Hk as [[<- <-]|[_ Hk]]; [done|].
    by apply lookup_singleton_Some in Hk as [<- <-].
  - intros k r Hk. simpl in Hk. by apply lookup_singleton_Some in Hk as [<- <-].
  - reflexivity.
Qed.

Lemma cleanupOldRecordings_deletes_only_old_witness :
  recordings (storage demo_world) !! "rec-1" = Some (demo_recording "rec-1" "cam-1" 1000 Null)
  /\ recordings (storage (world_of (@cleanupOldRecordings demo demo_sweep_clock demo_world)))
       !! "rec-1" = None
  /\ exists camera,
       cameras (storage demo_world) !! "cam-1" = Some camera
       /\ 1000 <= @daysBefore demo (demo_sweep_clock "cam-1") (retainDays_of camera).
Proof.
  split; [reflexivity|].
  assert (recordings
            (storage (world_of (@cleanupOldRecordings demo demo_sweep_clock demo_world)))
            !! "rec-1" = None) as Hgone.
  { apply (proj2 cleanupOldRecordings_deletes_only_old demo demo_world demo_sweep_clock
             "rec-1" (demo_recording "rec-1" "cam-1" 1000 Null)
             (demo_camera "cam-1" "rtsp://192.168.1.10/stream" "offline")
             demo_world_well_filed eq_refl eq_refl).
    - vm_compute. discriminate.
    - exists 4096. reflexivity.
    - intros k r' Hk _. simpl in Hk. by apply lookup_singleton_Some in Hk as [<- _]. }
  split; [exact Hgone|].
  destruct (proj1 cleanupOldRecordings_deletes_only_old demo demo_world demo_sweep_clock
              "rec-1" (demo_recording "rec-1" "cam-1" 1000 Null)
              demo_world_well_filed eq_refl Hgone)
    as (camera & Hcamera & Hstart & _).
  exists camera. split; [exact Hcamera | exact Hstart].
Defined.

(** C3 (as stated) fails: [rec-1] has no end time and started eight days
    before the sweep; the sweep unlinks its file and deletes its row. *)
Lemma cleanupOldRecordings_deletes_active :
  ~ (forall rid r,
       recordings (storage demo_world) !! rid = Some r ->
       Recording.endTime r = Null ->
       recordings (storage (world_of (@cleanupOldRecordings demo demo_sweep_clock demo_world)))
         !! rid = Some r).
Proof.
  intros Hclaim.
  specialize (Hclaim "rec-1" (demo_recording "rec-1" "cam-1" 1000 Null) eq_refl eq_refl).
  vm_compute in Hclaim. discriminate.
Qed.

(** ** Cache keys *)

Lemma split_on_not_nil sep s : split_on sep s <> [].
Proof.
  destruct s as [|c r]; simpl; [done|].
  destruct (Ascii.eqb c sep); [done|]. by destruct (split_on sep r).
Qed.







(** ** The ANPR worker *)

Lemma processDetection_run cameraId anpr frame r w :
  processDetection cameraId anpr frame r w
  = Returned tt
      (if accepted anpr r then
         let key := cacheKey (default "" (plateText r)) (now r) in
         match processingCache w !! cameraId with
         | Some keys =>
             if bool_decide (key ∈ keys) then w
             else persisted_world cameraId frame r
                    (set_processingCache (<[cameraId := {[key]} ∪ keys]> (processingCache w)) w)
         | None => persisted_world cameraId frame r w
         end
       else w).
Proof.
  unfold processDetection. destruct (accepted anpr r); [|done]. run.
  destruct (processingCache w !! cameraId) as [keys|]; cbn zeta.
  - destruct (bool_decide _); [done|]. unfold emit, broadcast, createAnprEvent. run.
    reflexivity.
  - unfold emit, broadcast, createAnprEvent. run. reflexivity.
Qed.

Lemma accepted_threshold anpr r :
  accepted anpr r = true ->
  default "" (plateText r) <> ""
  /\ (or_defaultQ (confidenceThreshold anpr) DEFAULT_CONFIDENCE_THRESHOLD
      <= Detection.confidence (detection r))%Q
  /\ (forall t, confidenceThreshold anpr = Some t ->
                (t <= Detection.confidence (detection r))%Q).
Proof.
  unfold accepted. destruct (plateText r) as [p|]; [|done].
  intros [Hp Hq]%andb_true_iff. apply negb_true_iff, String.eqb_neq in Hp.
  apply Qle_bool_iff in Hq. split; [done|]. split; [done|].
  intros t Ht. rewrite Ht in Hq. simpl in Hq.
  destruct (Qeq_bool t 0) eqn:Hz; [|done].
  apply Qeq_bool_eq in Hz. rewrite Hz.
  apply (Qle_trans _ DEFAULT_CONFIDENCE_THRESHOLD); [done|exact Hq].
Qed.

(** The events a run of the detection loop stores come from accepted reads. *)
Lemma for_each_processDetection_events cameraId anpr frame reads :
  forall w,
  exists w',
    for_each reads (processDetection cameraId anpr frame) w = Returned tt w'
    /\ (forall i e, anprEvents (storage w') !! i = Some e ->
          anprEvents (storage w) !! i = Some e
          \/ exists r, r ∈ reads /\ accepted anpr r = true /\ e = event_of cameraId frame r).
Proof.
  induction reads as [|r reads IH]; intros w.
  - exists w. split; [done|]. auto.
  - simpl. run. rewrite processDetection_run.
    set (w1 := if accepted anpr r then _ else _).
    destruct (IH w1) as (w2 & -> & Hev). exists w2. split; [done|].
    intros i e Hi. destruct (Hev i e Hi) as [Hin|(r' & Hr' & Hacc & ->)].
    + subst w1. destruct (accepted anpr r) eqn:Hacc; [|by left]. cbn zeta in Hin.
      assert (forall w0, anprEvents (storage (persisted_world cameraId frame r w0)) !! i = Some e ->
                         anprEvents (storage w0) !! i = Some e
                         \/ e = event_of cameraId frame r) as Hp.
      { intros w0. unfold persisted_world. simpl. intros Hl.
        apply lookup_insert_Some in Hl as [[_ <-]|[_ Hl]]; auto. }
      destruct (processingCache w !! cameraId) as [keys|].
      * destruct (bool_decide _); [by left|].
        destruct (Hp _ Hin) as [?| ->]; [by left|].
        right. exists r. split; [apply list_elem_of_here|]. done.
      * destruct (Hp _ Hin) as [?| ->]; [by left|].
        right. exists r. split; [apply list_elem_of_here|]. done.
    + right. exists r'. split; [by apply list_elem_of_further|]. done.
Qed.

Lemma unlink_frame_world path w :
  exists l,
    discardFrame path w = append_log l (set_files (delete path (files w)) w)
    /\ anpr_events l = 0%nat.
Proof.
  unfold discardFrame, unlink. run.
  destruct (bool_decide (is_Some (files w !! path))) eqn:Hp; run.
  - exists [Unlink path]. split; [|done]. simpl. unfold append_log, set_files. simpl.
    reflexivity.
  - exists []. split; [|done]. simpl. apply bool_decide_eq_false in Hp.
    assert (files w !! path = None) as Hnone.
    { destruct (files w !! path) eqn:E; [|done]. exfalso. apply Hp. eauto. }
    rewrite (delete_id _ _ Hnone). unfold append_log, set_files. simpl.
    rewrite app_nil_r. by destruct w.
Qed.

Lemma anpr_events_app l1 l2 :
  anpr_events (l1 ++ l2) = (anpr_events l1 + anpr_events l2)%nat.
Proof. induction l1 as [|a l1 IH]; simpl; [done|]. rewrite IH. lia. Qed.

Lemma anpr_events_sends clients f : anpr_events (sends clients f) = 0%nat.
Proof.
  induction clients as [|ws clients IH]; [done|].
  unfold sends in *. simpl. destruct (readyState ws =? OPEN); simpl; done.
Qed.




Lemma discardFrame_keeps path w :
  exists l,
    log (discardFrame path w) = log w ++ l
    /\ anpr_events l = 0%nat
    /\ storage (discardFrame path w) = storage w
    /\ processingCache (discardFrame path w) = processingCache w.
Proof.
  destruct (unlink_frame_world path w) as (l & -> & Hl). exists l. done.
Qed.









Lemma persisted_world_log cameraId frame r w :
  exists l, log (persisted_world cameraId frame r w) = log w ++ l /\ anpr_events l = 1%nat.
Proof.
  eexists. unfold persisted_world. simpl. rewrite <- app_assoc. split; [reflexivity|].
  simpl. by rewrite anpr_events_sends.
Qed.





(** The manual trigger on a camera for which no worker was started finds no
    entry set: two reads in one bucket store two events. *)
Example processCamera_without_entry_set :
  processingCache demo_world !! "cam-2" = None
  /\ anpr_events
       (new_actions demo_world
          (processCamera "cam-2" (Some demo_frame)
             [demo_read 4000 "evt-1"; demo_read 4500 "evt-2"] demo_world))
     = 2%nat.
Proof. split; vm_compute; reflexivity. Qed.
(** ** Keeping a property of the world *)

Lemma preserves_ret {A} P (a : A) : preserves P (mret a).
Proof. intros w Hw. exact Hw. Qed.

Lemma preserves_throw {A} P e : preserves P (@throw A e).
Proof. intros w Hw. exact Hw. Qed.

Lemma preserves_gets {A} P (f : World -> A) : preserves P (gets f).
Proof. intros w Hw. exact Hw. Qed.

Lemma preserves_bind {A B} P (m : M A) (k : A -> M B) :
  preserves P m -> (forall a, preserves P (k a)) -> preserves P (mbind k m).
Proof.
  intros Hm Hk w Hw. specialize (Hm w Hw).
  unfold mbind, M_bind. destruct (m w) as [a w'|e w']; simpl in *.
  - apply Hk, Hm.
  - exact Hm.
Qed.

Lemma preserves_try_catch {A} P (m : M A) (h : string -> M A) :
  preserves P m -> (forall e, preserves P (h e)) -> preserves P (try_catch m h).
Proof.
  intros Hm Hh w Hw. specialize (Hm w Hw).
  unfold try_catch. destruct (m w) as [a w'|e w']; simpl in *.
  - exact Hm.
  - apply Hh, Hm.
Qed.

Lemma preserves_try_finally {A} P (m : M A) (f : World -> World) :
  preserves P m -> (forall w, P w -> P (f w)) -> preserves P (try_finally m f).
Proof.
  intros Hm Hf w Hw. specialize (Hm w Hw).
  unfold try_finally. destruct (m w) as [a w'|e w']; simpl in *; apply Hf, Hm.
Qed.

Lemma preserves_for_each {A} P (l : list A) (f : A -> M unit) :
  (forall x, preserves P (f x)) -> preserves P (for_each l f).
Proof.
  intros Hf. induction l as [|x l IH]; simpl.
  - apply preserves_ret.
  - apply preserves_bind; [apply Hf | intros _; exact IH].
Qed.

Lemma preserves_modify P (f : World -> World) :
  (forall w, P w -> P (f w)) -> preserves P (modify f).
Proof. intros Hf w Hw. apply Hf, Hw. Qed.

Lemma preserves_on_storage {A} P (f : MemStorage -> A * MemStorage) :
  (forall w, P w -> P (set_storage (f (storage w)).2 w)) -> preserves P (on_storage f).
Proof.
  intros Hf w Hw. unfold on_storage. specialize (Hf w Hw).
  destruct (f (storage w)) as [a s]. exact Hf.
Qed.

(** One step through the structure of a computation. *)
Ltac preserve_step :=
  lazymatch goal with
  | |- preserves _ (mret _) => apply preserves_ret
  | |- preserves _ (throw _) => apply preserves_throw
  | |- preserves _ (gets _) => apply preserves_gets
  | |- preserves _ (mbind _ _) => apply preserves_bind; [|intros ?]
  | |- preserves _ (try_catch _ _) => apply preserves_try_catch; [|intros ?]
  | |- preserves _ (try_finally _ _) => apply preserves_try_finally
  | |- preserves _ (for_each _ _) => apply preserves_for_each; intros ?
  | |- preserves _ (modify _) => apply preserves_modify
  | |- preserves _ (on_storage _) => apply preserves_on_storage
  | |- preserves _ (match ?x with _ => _ end) => destruct x
  | |- preserves _ (let _ := _ in _) => cbv zeta
  end.

Ltac preserve := repeat preserve_step.

Ltac unfold_services :=
  unfold postCamera, putCamera, deleteCameraRoute, startRecordRoute, stopRecordRoute,
    snapshotRoute, anprProcessRoute, checkAllCameras, checkCamera, cleanupCache,
    cleanupOldRecordings, cleanupCamera, cleanupRecording, processCamera, processFrame,
    processDetection, startProcessing, stopProcessing, takeSnapshot, startRecording,
    stopRecording, restartStream, streamEnded, streamRetry, recorderEnded, onConnection,
    onClose, startHLSStream,
    stopStream, resolveRtspUrl, unlink, addCamera, removeCamera, emit, broadcast,
    parse_or_throw.

Lemma silent_discardFrame path w : silent w -> silent (discardFrame path w).
Proof.
  unfold discardFrame. revert w. change (preserves silent (try_catch (unlink path) (fun _ => mret tt))).
  unfold unlink. preserve.
  all: intros w [Hc Hl]; split; simpl; [exact Hc|].
  all: rewrite ?forallb_app, ?Hl; reflexivity.
Qed.

Lemma handle_silent `{Platform} r : forall w, silent w -> silent (handle r w).
Proof.
  destruct r; cbn [handle].
  all: match goal with |- forall w, silent w -> silent (world_of (?m w)) =>
         change (preserves silent m) end.
  all: unfold_services; preserve.
  all: try apply silent_discardFrame.
  all: intros w [Hc Hl]; split; simpl; [exact Hc|].
  all: rewrite ?Hc; simpl; rewrite ?forallb_app, ?Hl; reflexivity.
Qed.

Lemma run_app `{Platform} l1 l2 w : run (l1 ++ l2) w = run l2 (run l1 w).
Proof. unfold run. apply foldl_app. Qed.

Lemma run_invariant `{Platform} (P : World -> Prop) (Q : Request -> Prop) :
  (forall r w, Q r -> P w -> P (handle r w)) ->
  forall requests w, Forall Q requests -> P w -> P (run requests w).
Proof.
  intros Hstep requests. induction requests as [|r l IH]; intros w HQ Hw; simpl.
  - exact Hw.
  - inversion HQ; subst. apply IH; [assumption|]. apply Hstep; assumption.
Qed.

Lemma boot_silent : silent boot.
Proof. split; reflexivity. Qed.

(** X1: nothing in the sources registers a WebSocket client, so no request and
    no timer ever sends a frame: if no client is registered and nothing was
    sent, that is still so after any sequence of requests and ticks. *)
Theorem run_silent `{Platform} requests w : silent w -> silent (run requests w).
Proof.
  intros Hw. apply (run_invariant silent (fun _ => True)); auto.
  - intros r w' _. apply handle_silent.
  - apply Forall_forall. auto.
Qed.

Lemma run_silent_witness :
  silent boot
  /\ silent (@run demo [PostCamera create_request demo_iv "cam-9" 7; HealthTick;
                        StartRecord "cam-9" "rec-9" 8; StopRecord "cam-9" 9;
                        DeleteCamera "cam-9"] boot).
Proof.
  split; [exact boot_silent|].
  apply (@run_silent demo), boot_silent.
Defined.

(** *** The rows of the store *)

Lemma as_created_cameras s s' :
  cameras s' = cameras s -> as_created s -> as_created s'.
Proof. intros E Hs k c. rewrite E. apply Hs. Qed.

Lemma as_created_createCamera id now b e s :
  as_created s -> as_created (createCamera id now b e s).2.
Proof.
  intros Hs k c. simpl. destruct (decide (k = id)) as [->|Hk].
  - rewrite lookup_insert_eq. intros [= <-]. split; reflexivity.
  - rewrite lookup_insert_ne by congruence. apply Hs.
Qed.

Lemma as_created_updateCamera id u now s :
  as_created s -> as_created (updateCamera id u now s).2.
Proof.
  intros Hs. unfold updateCamera. destruct (cameras s !! id) as [c0|] eqn:E; [|exact Hs].
  intros k c. simpl. destruct (decide (k = id)) as [->|Hk].
  - rewrite lookup_insert_eq. intros [= <-]. simpl. apply (Hs id c0 E).
  - rewrite lookup_insert_ne by congruence. apply Hs.
Qed.

Lemma as_created_deleteCamera id s :
  as_created s -> as_created (deleteCamera id s).2.
Proof.
  intros Hs k c. simpl. intros Hk. apply lookup_delete_Some in Hk as [_ Hk].
  apply (Hs k c Hk).
Qed.

Lemma as_created_updateRecording id e d z s :
  as_created s -> as_created (updateRecording id e d z s).2.
Proof.
  intros Hs. unfold updateRecording. destruct (recordings s !! id); exact Hs.
Qed.

Lemma handle_as_created `{Platform} r w :
  as_created (storage w) -> as_created (storage (handle r w)).
Proof.
  revert w. destruct r; cbn [handle].
  all: match goal with |- forall w, ?P (storage w) -> ?P (storage (world_of (?m w))) =>
         change (preserves (fun w => P (storage w)) m) end.
  all: unfold_services; preserve.
  all: try (intros w Hw; exact Hw).
  all: try (intros w Hw; unfold discardFrame, unlink; run;
            destruct (bool_decide _); exact Hw).
  all: intros w Hw; cbn [storage set_storage].
  all: first [ apply as_created_createCamera, Hw
             | apply as_created_updateCamera, Hw
             | apply as_created_deleteCamera, Hw
             | apply as_created_updateRecording, Hw
             | idtac ].
Qed.

Lemma filter_none_length {A} (p : A -> bool) l :
  (forall x, x ∈ l -> p x = false) -> length (List.filter p l) = 0%nat.
Proof.
  induction l as [|x l IH]; intros Hl; simpl; [reflexivity|].
  rewrite (Hl x) by apply list_elem_of_here.
  apply IH. intros y Hy. apply Hl. apply list_elem_of_further, Hy.
Qed.

Lemma boot_as_created : as_created (storage boot).
Proof. intros k c Hk. simpl in Hk. rewrite lookup_empty in Hk. discriminate. Qed.

(** X2: [createCamera] files every row with status [offline] and a null
    [encryptedPassword], and no request or timer writes either column again:
    in a store where every camera is so, every camera stays so, whatever
    happens, and [getSystemStats] counts no active camera. *)
Theorem run_as_created `{Platform} requests w today :
  as_created (storage w) ->
  as_created (storage (run requests w))
  /\ activeCameras (getSystemStats (storage (run requests w)) today) = 0%nat.
Proof.
  intros Hw.
  assert (Hr : as_created (storage (run requests w))).
  { apply (run_invariant (fun w => as_created (storage w)) (fun _ => True)); auto.
    - intros r w' _. apply handle_as_created.
    - apply Forall_forall. auto. }
  split; [exact Hr|].
  unfold getSystemStats, activeCameras. apply filter_none_length.
  intros c Hc. apply values_elem_of in Hc as [k Hk].
  destruct (Hr k c Hk) as [-> _]. reflexivity.
Qed.

Lemma run_as_created_witness :
  as_created (storage boot)
  /\ cameras (storage (@run demo [PostCamera create_request demo_iv "cam-9" 7; HealthTick] boot))
       !! "cam-9"
     = Some (Camera.mk "cam-9" "Dock" "rtsp://192.168.1.20/stream" (Val "admin") Null Undefined
               Undefined Undefined (Val [("hls", true)]) Undefined Undefined Undefined
               "offline" Null Null 7 7)
  /\ activeCameras
       (getSystemStats
          (storage (@run demo [PostCamera create_request demo_iv "cam-9" 7; HealthTick] boot)) 0)
     = 0%nat.
Proof.
  split; [exact boot_as_created|]. split; [vm_compute; reflexivity|].
  apply (@run_as_created demo), boot_as_created.
Defined.

Lemma well_filed_createCamera id now b e s :
  id <> "" -> well_filed s -> well_filed (createCamera id now b e s).2.
Proof.
  intros Hid (Hc & Hr & He). split; [|split]; simpl.
  - intros k c. destruct (decide (k = id)) as [->|Hk].
    + rewrite lookup_insert_eq. intros [= <-]. reflexivity.
    + rewrite lookup_insert_ne by congruence. apply Hc.
  - exact Hr.
  - rewrite lookup_insert_ne by congruence. exact He.
Qed.

Lemma well_filed_updateCamera id u now s :
  well_filed s -> well_filed (updateCamera id u now s).2.
Proof.
  intros (Hc & Hr & He). unfold updateCamera.
  destruct (cameras s !! id) as [c0|] eqn:E; [|split; [|split]; assumption].
  split; [|split]; simpl.
  - intros k c. destruct (decide (k = id)) as [->|Hk].
    + rewrite lookup_insert_eq. intros [= <-]. simpl. apply (Hc id c0 E).
    + rewrite lookup_insert_ne by congruence. apply Hc.
  - exact Hr.
  - rewrite lookup_insert_ne by (intros ->; congruence). exact He.
Qed.

Lemma well_filed_deleteCamera id s :
  well_filed s -> well_filed (deleteCamera id s).2.
Proof.
  intros (Hc & Hr & He). split; [|split]; simpl.
  - intros k c Hk. apply lookup_delete_Some in Hk as [_ Hk]. apply (Hc k c Hk).
  - exact Hr.
  - apply lookup_delete_None. right. exact He.
Qed.

Lemma well_filed_createRecording id now r s :
  well_filed s -> well_filed (createRecording id now r s).2.
Proof.
  intros (Hc & Hr & He). split; [|split]; simpl; [exact Hc| |exact He].
  intros k r'. destruct (decide (k = id)) as [->|Hk].
  - rewrite lookup_insert_eq. intros [= <-]. reflexivity.
  - rewrite lookup_insert_ne by congruence. apply Hr.
Qed.

Lemma well_filed_updateRecording id e d z s :
  well_filed s -> well_filed (updateRecording id e d z s).2.
Proof.
  intros (Hc & Hr & He). unfold updateRecording.
  destruct (recordings s !! id) as [r0|] eqn:E; [|split; [|split]; assumption].
  split; [|split]; simpl; [exact Hc| |exact He].
  intros k r'. destruct (decide (k = id)) as [->|Hk].
  - rewrite lookup_insert_eq. intros [= <-]. simpl. apply (Hr id r0 E).
  - rewrite lookup_insert_ne by congruence. apply Hr.
Qed.

Lemma well_filed_deleteRecording id s :
  well_filed s -> well_filed (deleteRecording id s).
Proof.
  intros (Hc & Hr & He). split; [|split]; simpl; [exact Hc| |exact He].
  intros k r Hk. apply lookup_delete_Some in Hk as [_ Hk]. apply (Hr k r Hk).
Qed.

Lemma well_filed_createAnprEvent id now e s :
  well_filed s -> well_filed (createAnprEvent id now e s).2.
Proof. intros (Hc & Hr & He). split; [|split]; simpl; assumption. Qed.

Lemma handle_well_filed `{Platform} r w :
  proper r -> well_filed (storage w) -> well_filed (storage (handle r w)).
Proof.
  revert w. destruct r; cbn [handle proper]; intros w Hproper; revert w.
  all: match goal with |- forall w, ?P (storage w) -> ?P (storage (world_of (?m w))) =>
         change (preserves (fun w => P (storage w)) m) end.
  all: unfold_services; preserve.
  all: try (intros w Hw; exact Hw).
  all: try (intros w Hw; unfold discardFrame, unlink; run;
            destruct (bool_decide _); exact Hw).
  all: intros w Hw; cbn [storage set_storage].
  all: first [ apply well_filed_createCamera; [exact Hproper | exact Hw]
             | apply well_filed_updateCamera, Hw
             | apply well_filed_deleteCamera, Hw
             | apply well_filed_createRecording, Hw
             | apply well_filed_updateRecording, Hw
             | apply well_filed_deleteRecording, Hw
             | apply well_filed_createAnprEvent, Hw ].
Qed.

Lemma boot_well_filed : well_filed (storage boot).
Proof.
  split; [|split]; simpl; [intros k c|intros k c|]; rewrite lookup_empty; [discriminate..|reflexivity].
Qed.

(** X3: every row is filed under its own id and no camera under the empty id,
    after any sequence of requests and ticks on a store where that was so
    (the identifiers of created cameras being non-empty). *)
Theorem run_well_filed `{Platform} requests w :
  Forall proper requests -> well_filed (storage w) -> well_filed (storage (run requests w)).
Proof.
  intros HQ Hw.
  apply (run_invariant (fun w => well_filed (storage w)) proper); auto.
  intros r w'. apply handle_well_filed.
Qed.

Lemma run_well_filed_witness :
  Forall proper [PostCamera create_request demo_iv "cam-9" 7; StartRecord "cam-9" "rec-9" 8;
                 PutCamera "cam-9" password_update demo_iv 9]
  /\ well_filed
       (storage (@run demo [PostCamera create_request demo_iv "cam-9" 7;
                            StartRecord "cam-9" "rec-9" 8;
                            PutCamera "cam-9" password_update demo_iv 9] boot)).
Proof.
  assert (HQ : Forall proper [PostCamera create_request demo_iv "cam-9" 7;
                              StartRecord "cam-9" "rec-9" 8;
                              PutCamera "cam-9" password_update demo_iv 9]).
  { repeat constructor. simpl. discriminate. }
  split; [exact HQ|].
  apply (@run_well_filed demo); [exact HQ | exact boot_well_filed].
Defined.
(** *** The monitored set and the map of the live children *)




Lemma startHLSStream_unknown `{Platform} w id :
  cameras (storage w) !! id = None ->
  startHLSStream id w = Threw ("Camera " +:+ id +:+ " not found") w.
Proof. intros E. unfold startHLSStream, getCamera. run. rewrite E. reflexivity. Qed.







Lemma postCamera_invalid `{Platform} w body iv id now :
  parseInsertCamera body = None ->
  postCamera body iv id now w
  = Returned {| res_status := 400; res_body := BMessage "Failed to create camera" |} w.
Proof. intros E. unfold postCamera, parse_or_throw. run. rewrite E. reflexivity. Qed.


Lemma deleteCameraRoute_unknown w id :
  cameras (storage w) !! id = None ->
  deleteCameraRoute id w
  = Returned {| res_status := 404; res_body := BMessage "Camera not found" |} w.
Proof.
  intros E. unfold deleteCameraRoute, deleteCamera. run.
  rewrite bool_decide_eq_false_2 by (rewrite E; intros [? ?]; discriminate).
  f_equal. rewrite delete_id by exact E.
  destruct w as [[? ? ?] ? ? ? ? ? ? ? ?]. reflexivity.
Qed.





(** ** More on the credentials *)

Lemma split_on_length sep s : length (split_on sep s) = S (count_char sep s).
Proof.
  induction s as [|c r IH]; simpl; [reflexivity|].
  destruct (Ascii.eqb c sep); simpl.
  - rewrite IH. reflexivity.
  - destruct (split_on sep r) as [|h t]; simpl in *; [discriminate|exact IH].
Qed.

(** X5: a string with fewer than three fields makes [decryptCredentials]
    throw, whatever the cipher. *)
Theorem decryptCredentials_too_few_fields `{Platform} (encryptedText : string) :
  (count_char ":" encryptedText < 2)%nat -> decryptCredentials encryptedText = None.
Proof.
  intros Hn. unfold decryptCredentials.
  pose proof (split_on_length ":" encryptedText) as Hl.
  destruct (split_on ":" encryptedText) as [|a [|b [|c l]]]; try reflexivity.
  simpl in Hl. lia.
Qed.

Lemma decryptCredentials_too_few_fields_witness :
  (count_char ":" "000102030405060708090a0b0c0d0e0f:06746572633373" < 2)%nat
  /\ @decryptCredentials demo "000102030405060708090a0b0c0d0e0f:06746572633373" = None.
Proof.
  assert (Hn : (count_char ":" "000102030405060708090a0b0c0d0e0f:06746572633373" < 2)%nat)
    by (vm_compute; lia).
  split; [exact Hn|].
  apply (@decryptCredentials_too_few_fields demo), Hn.
Defined.

(** X6: [decryptCredentials] reads the first three fields only: what follows
    a fourth separator changes nothing. *)
Theorem decryptCredentials_trailing_fields `{Platform} (a b c rest : string) :
  has_char ":" a = false ->
  has_char ":" b = false ->
  has_char ":" c = false ->
  decryptCredentials (a +:+ ":" +:+ b +:+ ":" +:+ c +:+ ":" +:+ rest)
  = decryptCredentials (a +:+ ":" +:+ b +:+ ":" +:+ c).
Proof.
  intros Ha Hb Hc. unfold decryptCredentials.
  change (":" +:+ b +:+ ":" +:+ c +:+ ":" +:+ rest)
    with (String ":" (b +:+ String ":" (c +:+ String ":" rest))).
  change (":" +:+ b +:+ ":" +:+ c) with (String ":" (b +:+ String ":" c)).
  rewrite !split_on_field by assumption.
  rewrite (split_on_absent ":" c Hc). reflexivity.
Qed.

Lemma decryptCredentials_trailing_fields_witness :
  has_char ":" "000102030405060708090a0b0c0d0e0f" = false
  /\ @decryptCredentials demo
       ("000102030405060708090a0b0c0d0e0f" +:+ ":" +:+ "06" +:+ ":" +:+ "746572633373"
        +:+ ":" +:+ "anything:else")
     = @decryptCredentials demo
         ("000102030405060708090a0b0c0d0e0f" +:+ ":" +:+ "06" +:+ ":" +:+ "746572633373")
  /\ @decryptCredentials demo "000102030405060708090a0b0c0d0e0f:06:746572633373"
     = Some "s3cret".
Proof.
  split; [reflexivity|]. split; [|reflexivity].
  apply (@decryptCredentials_trailing_fields demo); reflexivity.
Defined.
(** ** More on the store *)

Lemma sort_insert_length {A} (cmp : A -> A -> Z) x l :
  length (sort_insert cmp x l) = S (length l).
Proof.
  induction l as [|y l IH]; simpl; [reflexivity|].
  destruct (cmp x y <=? 0); simpl; [reflexivity|]. rewrite IH. reflexivity.
Qed.

Lemma js_sort_length {A} (cmp : A -> A -> Z) l : length (js_sort cmp l) = length l.
Proof.
  induction l as [|x l IH]; simpl; [reflexivity|].
  unfold js_sort in *. simpl. rewrite sort_insert_length, IH. reflexivity.
Qed.

Lemma sort_insert_sorted {A} (cmp : A -> A -> Z) (R : A -> A -> Prop) x l :
  (forall a b, cmp a b <= 0 -> R a b) ->
  (forall a b, ~ cmp a b <= 0 -> R b a) ->
  (forall a b c, R a b -> R b c -> R a c) ->
  StronglySorted R l -> StronglySorted R (sort_insert cmp x l).
Proof.
  intros Hle Hgt Htr. induction l as [|y l IH]; intros Hl; simpl.
  - constructor; constructor.
  - inversion Hl as [|? ? Hs Hall]; subst.
    destruct (Z.leb_spec (cmp x y) 0) as [Hc|Hc].
    + constructor; [exact Hl|]. constructor; [apply Hle, Hc|].
      eapply Forall_impl; [exact Hall|]. intros z Hz. eapply Htr; [apply Hle, Hc | exact Hz].
    + constructor; [apply IH, Hs|].
      apply Forall_forall. intros z Hz. apply sort_insert_elem_of in Hz as [->|Hz].
      * apply Hgt. lia.
      * rewrite Forall_forall in Hall. apply Hall, Hz.
Qed.

Lemma js_sort_sorted {A} (cmp : A -> A -> Z) (R : A -> A -> Prop) l :
  (forall a b, cmp a b <= 0 -> R a b) ->
  (forall a b, ~ cmp a b <= 0 -> R b a) ->
  (forall a b c, R a b -> R b c -> R a c) ->
  StronglySorted R (js_sort cmp l).
Proof.
  intros Hle Hgt Htr. induction l as [|x l IH]; simpl; [constructor|].
  apply (sort_insert_sorted cmp R); assumption.
Qed.

(** X7: [getRecordings] answers exactly the rows that pass the three filters
    (an empty [cameraId] filters nothing), the latest start first. *)
Theorem getRecordings_sorted_filtered (filters : RecordingFilters) (s : MemStorage) :
  StronglySorted (fun a b => Recording.startTime b <= Recording.startTime a)
    (getRecordings filters s)
  /\ forall r,
       r ∈ getRecordings filters s
       <-> (exists k, recordings s !! k = Some r)
           /\ (forall c, f_cameraId filters = Some c -> c = "" \/ Recording.cameraId r = c)
           /\ (forall f, f_from filters = Some f -> f <= Recording.startTime r)
           /\ (forall t, f_to filters = Some t -> Recording.startTime r <= t).
Proof.
  split.
  - unfold getRecordings. apply js_sort_sorted; intros; lia.
  - intros r. unfold getRecordings. rewrite js_sort_elem_of, !List_filter_elem_of.
    assert (Hcam : r ∈ match f_cameraId filters with
                       | Some c => if String.eqb c "" then values (recordings s)
                                   else List.filter (fun r => String.eqb (Recording.cameraId r) c)
                                          (values (recordings s))
                       | None => values (recordings s)
                       end
                   <-> (exists k, recordings s !! k = Some r)
                       /\ (forall c, f_cameraId filters = Some c ->
                                     c = "" \/ Recording.cameraId r = c)).
    { destruct (f_cameraId filters) as [c|].
      - destruct (String.eqb_spec c "") as [->|Hc].
        + rewrite values_elem_of.
          split; [intros Hr; split; [exact Hr|]; intros c' [= <-]; left; reflexivity|].
          intros [Hr _]; exact Hr.
        + rewrite List_filter_elem_of, values_elem_of. split.
          * intros [Hr Hc']. split; [exact Hr|]. intros c' [= <-]. right.
            apply String.eqb_eq, Hc'.
          * intros [Hr Hc']. split; [exact Hr|].
            destruct (Hc' c eq_refl) as [?|?]; [contradiction|]. apply String.eqb_eq. assumption.
      - rewrite values_elem_of. split; [intros Hr; split; [exact Hr|]; intros ? [=]|].
        intros [Hr _]; exact Hr. }
    rewrite Hcam. clear Hcam.
    destruct (f_from filters) as [f|], (f_to filters) as [t|]; simpl;
      rewrite ?Z.leb_le; split.
    all: intros H; repeat match goal with
                          | H : _ /\ _ |- _ => destruct H
                          end.
    all: repeat split; try assumption; try reflexivity.
    all: try (intros ? [= <-]; assumption).
    all: try (intros ? [=]).
    all: try match goal with H : forall x, Some ?a = Some x -> _ |- _ => apply (H a eq_refl) end.
Qed.
Lemma filter_true {A} (l : list A) : List.filter (fun _ => true) l = l.
Proof. induction l as [|x l IH]; simpl; [reflexivity|]. rewrite IH. reflexivity. Qed.

(** X8: the figures of [getCameraWithStats] agree with the other readers of
    the store: for a camera with a non-empty id, [recordingCount] is the
    number of rows [getRecordings] answers for the camera and [anprEventCount]
    is [getAnprEventsCount] without a date; [isRecording] says whether a row
    of the camera has no end time. *)
Theorem getCameraWithStats_counts (s : MemStorage) (id : string) (stats : CameraWithStats) :
  id <> "" ->
  getCameraWithStats s id = Some stats ->
  cameras s !! id = Some (cws_camera stats)
  /\ recordingCount stats
     = length (getRecordings {| f_cameraId := Some id; f_from := None; f_to := None |} s)
  /\ anprEventCount stats = getAnprEventsCount s id None
  /\ (isRecording stats = true
      <-> exists k r, recordings s !! k = Some r /\ Recording.cameraId r = id
                      /\ is_val (Recording.endTime r) = false).
Proof.
  intros Hid. unfold getCameraWithStats.
  destruct (cameras s !! id) as [camera|] eqn:E; [|discriminate].
  intros [= <-]. simpl. split; [reflexivity|]. split; [|split; [reflexivity|]].
  - unfold getRecordings. simpl.
    apply String.eqb_neq in Hid. rewrite Hid.
    rewrite js_sort_length, !filter_true. reflexivity.
  - rewrite existsb_exists. split.
    + intros (r & Hr & Hp). apply list_elem_of_In, values_elem_of in Hr as [k Hk].
      apply andb_true_iff in Hp as [Hc He]. exists k, r.
      split; [exact Hk|]. split; [apply String.eqb_eq, Hc|].
      apply negb_true_iff, He.
    + intros (k & r & Hk & Hc & He). exists r. split.
      * apply list_elem_of_In, values_elem_of. eauto.
      * apply andb_true_iff. split; [apply String.eqb_eq, Hc|].
        apply negb_true_iff, He.
Qed.

Lemma getCameraWithStats_counts_witness :
  "cam-1" <> ""
  /\ exists stats,
       getCameraWithStats (storage demo_world) "cam-1" = Some stats
       /\ recordingCount stats = 1%nat
       /\ recordingCount stats
          = length (getRecordings {| f_cameraId := Some "cam-1"; f_from := None; f_to := None |}
                      (storage demo_world))
       /\ anprEventCount stats = getAnprEventsCount (storage demo_world) "cam-1" None
       /\ isRecording stats = true.
Proof.
  split; [discriminate|].
  destruct (getCameraWithStats (storage demo_world) "cam-1") as [stats|] eqn:E;
    [|vm_compute in E; discriminate].
  exists stats. split; [reflexivity|].
  destruct (getCameraWithStats_counts (storage demo_world) "cam-1" stats) as (_ & Hr & Ha & _);
    [discriminate | exact E |].
  split; [|split; [exact Hr|split; [exact Ha|]]].
  - vm_compute in E. injection E as <-. reflexivity.
  - vm_compute in E. injection E as <-. reflexivity.
Defined.
(** ** More on the transcoder manager *)

Lemma resolveRtspUrl_any_world `{Platform} camera w w' :
  resolveRtspUrl camera w'
  = match resolveRtspUrl camera w with
    | Returned u _ => Returned u w'
    | Threw e _ => Threw e w'
    end.
Proof.
  unfold resolveRtspUrl. destruct (_ && _); [|reflexivity].
  destruct (decryptCredentials _); [|reflexivity].
  destruct (new_URL _); reflexivity.
Qed.

Lemma new_actions_threw {A} (w w' : World) (e : string) (l : list Action) :
  log w' = log w ++ l -> new_actions w (@Threw A e w') = l.
Proof. intros E. unfold new_actions. simpl. rewrite E. apply drop_app_length. Qed.

Lemma stopped_world_other w id j : j <> id -> streams (stopped_world w id) !! j = streams w !! j.
Proof.
  intros Hj. unfold stopped_world. destruct (streams w !! id); [|reflexivity].
  simpl. apply lookup_delete_ne. congruence.
Qed.

(** X9: [startHLSStream] on a camera of the store replaces the live child of
    that camera and touches no other: the former child, if any, is killed
    first; when the address resolves a new child is spawned on it and
    registered, and when it does not the call throws and the camera is left
    without a live child. *)
Theorem startHLSStream_replaces_child `{Platform} w id camera :
  cameras (storage w) !! id = Some camera ->
  let o := startHLSStream id w in
  storage (world_of o) = storage w
  /\ ff_recordings (world_of o) = ff_recordings w
  /\ (forall j, j <> id -> streams (world_of o) !! j = streams w !! j)
  /\ ((exists u, resolveRtspUrl camera w = Returned u w
                 /\ result_of o = Some tt
                 /\ new_actions w o = stream_kills w id ++ [Spawn (live_child id u)]
                 /\ streams (world_of o) !! id = Some (live_child id u))
      \/ (exists e, resolveRtspUrl camera w = Threw e w
                    /\ result_of o = None
                    /\ new_actions w o = stream_kills w id
                    /\ streams (world_of o) !! id = None)).
Proof.
  intros E o. subst o. rewrite (startHLSStream_started w id camera E).
  rewrite (resolveRtspUrl_any_world camera w (stopped_world w id)).
  destruct (resolveRtspUrl_cases camera w) as [[u Hu]|[e He]].
  - rewrite Hu. cbn [world_of result_of].
    split; [simpl; apply stopped_world_storage|].
    split; [simpl; apply stopped_world_ff_recordings|].
    split; [intros j Hj; simpl; rewrite lookup_insert_ne by congruence;
            apply stopped_world_other, Hj|].
    left. exists u. split; [reflexivity|]. split; [reflexivity|]. split.
    + apply new_actions_appended. simpl. rewrite stopped_world_log, <- app_assoc. reflexivity.
    + simpl. apply lookup_insert_eq.
  - rewrite He. cbn [world_of result_of].
    split; [apply stopped_world_storage|].
    split; [apply stopped_world_ff_recordings|].
    split; [intros j Hj; apply stopped_world_other, Hj|].
    right. exists e. split; [reflexivity|]. split; [reflexivity|]. split.
    + apply new_actions_threw, stopped_world_log.
    + apply stopped_world_streams.
Qed.

Lemma startHLSStream_replaces_child_witness :
  cameras (storage demo_world) !! "cam-1"
  = Some (demo_camera "cam-1" "rtsp://192.168.1.10/stream" "offline")
  /\ new_actions demo_world (@startHLSStream demo "cam-1" demo_world)
     = [Kill (demo_child "cam-1"); Spawn (live_child "cam-1" "rtsp://192.168.1.10/stream")]
  /\ storage (world_of (@startHLSStream demo "cam-1" demo_world)) = storage demo_world.
Proof.
  split; [reflexivity|]. split; [vm_compute; reflexivity|].
  apply (@startHLSStream_replaces_child demo demo_world "cam-1"
           (demo_camera "cam-1" "rtsp://192.168.1.10/stream" "offline")).
  reflexivity.
Defined.

(** X10: for a camera of the store [restartStream] does what [startHLSStream]
    does; for an id the store does not know both throw, [startHLSStream]
    leaving everything as it was and [restartStream] having killed the child
    registered under that id. *)
Theorem restartStream_startHLSStream `{Platform} w id :
  (is_Some (cameras (storage w) !! id) -> restartStream id w = startHLSStream id w)
  /\ (cameras (storage w) !! id = None ->
      startHLSStream id w = Threw ("Camera " +:+ id +:+ " not found") w
      /\ restartStream id w = Threw ("Camera " +:+ id +:+ " not found") (stopped_world w id)).
Proof.
  split.
  - intros [camera E]. rewrite (restartStream_run w id camera E).
    symmetry. apply startHLSStream_started, E.
  - intros E. split; [apply startHLSStream_unknown, E|].
    unfold restartStream. run. rewrite stopStream_stopped.
    apply startHLSStream_unknown. rewrite stopped_world_storage. exact E.
Qed.

Lemma restartStream_startHLSStream_witness :
  is_Some (cameras (storage demo_world) !! "cam-1")
  /\ @restartStream demo "cam-1" demo_world = @startHLSStream demo "cam-1" demo_world
  /\ cameras (storage demo_world) !! "cam-7" = None
  /\ @restartStream demo "cam-7" demo_world
     = Threw ("Camera " +:+ "cam-7" +:+ " not found") (stopped_world demo_world "cam-7").
Proof.
  assert (H1 : is_Some (cameras (storage demo_world) !! "cam-1")) by (vm_compute; eauto).
  assert (H2 : cameras (storage demo_world) !! "cam-7" = None) by reflexivity.
  split; [exact H1|]. split; [|split; [exact H2|]].
  - apply (@restartStream_startHLSStream demo demo_world "cam-1"), H1.
  - apply (@restartStream_startHLSStream demo demo_world "cam-7"), H2.
Defined.

Lemma encryptCredentials_truthy `{Platform} iv text :
  truthy_str (Val (encryptCredentials iv text)) = true.
Proof.
  unfold encryptCredentials. destruct (gcm_encrypt _) as [ct tag]. simpl.
  destruct (to_hex iv); reflexivity.
Qed.

(** X11: the address the children are given.  With a user name and a secret
    sealed by [encryptCredentials], it is the stored address with the user
    name and the opened password written in front of the host, as they are;
    without a user name or without a secret it is the stored address, whether
    or not that address parses. *)
Theorem resolveRtspUrl_credentials `{Platform} camera w :
  (forall iv user pw u,
      gcm_sound ->
      Camera.username camera = Val user -> user <> "" ->
      Camera.encryptedPassword camera = Val (encryptCredentials iv pw) ->
      new_URL (Camera.rtspUrl camera) = Some u ->
      resolveRtspUrl camera w
      = Returned (protocol u +:+ "//" +:+ user +:+ ":" +:+ pw +:+ "@" +:+ host u
                  +:+ pathname u +:+ search u) w)
  /\ (truthy_str (Camera.username camera) = false
      \/ truthy_str (Camera.encryptedPassword camera) = false ->
      resolveRtspUrl camera w = Returned (Camera.rtspUrl camera) w).
Proof.
  split.
  - intros iv user pw u Hs Hu Hne Hp Hurl. unfold resolveRtspUrl.
    rewrite Hu, Hp, encryptCredentials_truthy. simpl.
    apply String.eqb_neq in Hne. rewrite Hne. simpl.
    rewrite decryptCredentials_encryptCredentials by exact Hs.
    rewrite Hurl. reflexivity.
  - intros Hf. unfold resolveRtspUrl.
    destruct Hf as [-> | ->]; rewrite ?andb_false_r; reflexivity.
Qed.

Lemma resolveRtspUrl_credentials_witness :
  @resolveRtspUrl demo
    (Camera.mk "cam-3" "Gate" "rtsp://192.168.1.30/stream" (Val "admin")
       (Val (@encryptCredentials demo demo_iv "p@ss/word")) Undefined Undefined Undefined
       Undefined Undefined Undefined Undefined "offline" Null Null 0 0) boot
  = Returned "rtsp://admin:p@ss/word@192.168.1.30/stream" boot.
Proof.
  apply (proj1 (@resolveRtspUrl_credentials demo _ boot) demo_iv "admin" "p@ss/word"
           {| protocol := "rtsp:"; host := "192.168.1.30"; hostname := "192.168.1.30";
              pathname := "/stream"; search := "" |}).
  - exact demo_sound.
  - reflexivity.
  - discriminate.
  - reflexivity.
  - reflexivity.
Defined.
Lemma startRecording_run `{Platform} w id rid now camera u :
  cameras (storage w) !! id = Some camera ->
  ff_recordings w !! id = None ->
  resolveRtspUrl camera w = Returned u w ->
  let outputPath :=
    ("records/" +:+ id +:+ "/" +:+ default "" (head (split_on "T" (toISOString now))))
    +:+ "/" +:+ "recording_" +:+ dash_colons_dots (toISOString now) +:+ ".mp4" in
  let recording := Recording.mk rid id now now Null outputPath Null Null "mp4" (Val "{}") now in
  let ffmpeg := {| child_input := u; child_output := outputPath |} in
  startRecording id rid now w
  = Returned recording
      (set_ff_recordings (<[id := (ffmpeg, rid)]> (ff_recordings w))
         (add_log (Spawn ffmpeg)
            (set_storage {| cameras := cameras (storage w);
                            recordings := <[rid := recording]> (recordings (storage w));
                            anprEvents := anprEvents (storage w) |} w))).
Proof.
  intros E Hf Hu. unfold startRecording, getCamera. run. rewrite E, Hf.
  rewrite bool_decide_eq_false_2 by (intros [? ?]; discriminate).
  rewrite Hu. reflexivity.
Qed.

(** X12: a recording started and then stopped.  [startRecording] on a camera
    that is not recording files an open row, spawns one child writing to the
    row's path and registers it; [stopRecording] then kills that child,
    forgets it, and closes the row with the end time, the whole seconds
    between start and end, and the size of the file (0 when there is none). *)
Theorem startRecording_then_stopRecording `{Platform} w id rid t1 t2 camera u :
  cameras (storage w) !! id = Some camera ->
  ff_recordings w !! id = None ->
  resolveRtspUrl camera w = Returned u w ->
  let o1 := startRecording id rid t1 w in
  let o2 := stopRecording id t2 (world_of o1) in
  exists recording,
    result_of o1 = Some recording
    /\ Recording.id recording = rid
    /\ Recording.cameraId recording = id
    /\ Recording.startTime recording = t1
    /\ Recording.endTime recording = Null
    /\ recordings (storage (world_of o1)) !! rid = Some recording
    /\ new_actions w o1 = [Spawn {| child_input := u; child_output := Recording.path recording |}]
    /\ ff_recordings (world_of o1) !! id
       = Some ({| child_input := u; child_output := Recording.path recording |}, rid)
    /\ exists closed,
         result_of o2 = Some (Val closed)
         /\ Recording.id closed = rid
         /\ Recording.path closed = Recording.path recording
         /\ Recording.startTime closed = t1
         /\ Recording.endTime closed = Val t2
         /\ Recording.durationSec closed = Val ((t2 - t1) / 1000)
         /\ Recording.sizeBytes closed
            = Val (default 0 (files (world_of o1) !! Recording.path recording))
         /\ recordings (storage (world_of o2)) !! rid = Some closed
         /\ new_actions (world_of o1) o2
            = [Kill {| child_input := u; child_output := Recording.path recording |}]
         /\ ff_recordings (world_of o2) !! id = None.
Proof.
  intros E Hf Hu o1 o2. subst o1 o2.
  rewrite (startRecording_run w id rid t1 camera u E Hf Hu). cbn [world_of result_of].
  eexists. split; [reflexivity|]. cbn [Recording.id Recording.cameraId Recording.startTime
                                        Recording.endTime Recording.path].
  do 4 (split; [reflexivity|]).
  split; [simpl; apply lookup_insert_eq|].
  split; [apply new_actions_appended; reflexivity|].
  split; [simpl; apply lookup_insert_eq|].
  unfold stopRecording, getRecording, updateRecording. run.
  cbn [ff_recordings set_ff_recordings]. rewrite lookup_insert_eq. run.
  cbn [storage set_ff_recordings add_log append_log set_storage recordings].
  rewrite lookup_insert_eq. run.
  cbn [storage set_ff_recordings add_log append_log set_storage recordings].
  rewrite lookup_insert_eq. cbn [world_of result_of].
  eexists. split; [reflexivity|].
  cbn [Recording.id Recording.cameraId Recording.startTime Recording.endTime Recording.path
       Recording.durationSec Recording.sizeBytes].
  do 6 (split; [reflexivity|]).
  split; [simpl; apply lookup_insert_eq|].
  split; [apply new_actions_appended; reflexivity|].
  simpl. apply lookup_delete_eq.
Qed.

Lemma startRecording_then_stopRecording_witness :
  cameras (storage demo_world) !! "cam-2"
  = Some (demo_camera "cam-2" "rtsp://10.0.0.5/stream" "offline")
  /\ ff_recordings demo_world !! "cam-2" = None
  /\ @resolveRtspUrl demo (demo_camera "cam-2" "rtsp://10.0.0.5/stream" "offline") demo_world
     = Returned "rtsp://10.0.0.5/stream" demo_world
  /\ exists recording closed,
       result_of (@startRecording demo "cam-2" "rec-2" 2000 demo_world) = Some recording
       /\ result_of (stopRecording "cam-2" 65500
                       (world_of (@startRecording demo "cam-2" "rec-2" 2000 demo_world)))
          = Some (Val closed)
       /\ Recording.durationSec closed = Val 63
       /\ Recording.sizeBytes closed = Val 0.
Proof.
  split; [reflexivity|]. split; [reflexivity|]. split; [reflexivity|].
  destruct (@startRecording_then_stopRecording demo demo_world "cam-2" "rec-2" 2000 65500
              (demo_camera "cam-2" "rtsp://10.0.0.5/stream" "offline")
              "rtsp://10.0.0.5/stream" eq_refl eq_refl eq_refl)
    as (recording & H1 & _ & _ & _ & _ & _ & _ & _ & closed & H2 & _ & _ & _ & _ & Hd & Hs & _).
  exists recording, closed. split; [exact H1|]. split; [exact H2|].
  split; [exact Hd|]. rewrite Hs. vm_compute in H1. injection H1 as <-. reflexivity.
Defined.

(** X13: [stop-record] answers 404 in two cases.  When the camera is not
    recording nothing changes.  When it is recording but the row of the
    recording is gone from the store, the child is killed and forgotten all
    the same, and nothing is broadcast. *)
Theorem stopRecordRoute_not_found w id now :
  (ff_recordings w !! id = None ->
   stopRecordRoute id now w
   = Returned {| res_status := 404; res_body := BMessage "No active recording found" |} w)
  /\ (forall ffmpeg rid,
        ff_recordings w !! id = Some (ffmpeg, rid) ->
        recordings (storage w) !! rid = None ->
        let o := stopRecordRoute id now w in
        result_of o
        = Some {| res_status := 404; res_body := BMessage "No active recording found" |}
        /\ new_actions w o = [Kill ffmpeg]
        /\ ff_recordings (world_of o) = delete id (ff_recordings w)
        /\ storage (world_of o) = storage w).
Proof.
  split.
  - intros E. unfold stopRecordRoute, stopRecording. run. rewrite E. reflexivity.
  - intros ffmpeg rid E Hr o. subst o.
    unfold stopRecordRoute, stopRecording, getRecording. run. rewrite E. run.
    cbn [storage set_ff_recordings add_log append_log]. rewrite Hr.
    cbn [world_of result_of]. split; [reflexivity|].
    split; [apply new_actions_appended; reflexivity|]. split; reflexivity.
Qed.

Lemma stopRecordRoute_not_found_witness :
  ff_recordings demo_world !! "cam-2" = None
  /\ stopRecordRoute "cam-2" 9000 demo_world
     = Returned {| res_status := 404; res_body := BMessage "No active recording found" |}
         demo_world
  /\ ff_recordings (world_of (@cleanupOldRecordings demo demo_sweep_clock demo_world)) !! "cam-1"
     = Some (demo_recorder, "rec-1")
  /\ recordings (storage (world_of (@cleanupOldRecordings demo demo_sweep_clock demo_world)))
       !! "rec-1" = None
  /\ new_actions (world_of (@cleanupOldRecordings demo demo_sweep_clock demo_world))
       (stopRecordRoute "cam-1" (1000 + 9 * DAY_MS)
          (world_of (@cleanupOldRecordings demo demo_sweep_clock demo_world)))
     = [Kill demo_recorder].
Proof.
  split; [reflexivity|]. split.
  - apply (proj1 (stopRecordRoute_not_found demo_world "cam-2" 9000)). reflexivity.
  - split; [vm_compute; reflexivity|]. split; [vm_compute; reflexivity|].
    apply (proj2 (stopRecordRoute_not_found
                    (world_of (@cleanupOldRecordings demo demo_sweep_clock demo_world))
                    "cam-1" (1000 + 9 * DAY_MS)) demo_recorder "rec-1");
      vm_compute; reflexivity.
Defined.
(** ** More on the retention sweep *)

(** X14: the retention sweep only removes recording rows and files: the
    cameras, the plate events, the children and every other part of the
    server are as before, no child is killed, and no row or file is added or
    changed. *)
Theorem cleanupOldRecordings_only_removes `{Platform} w clock :
  let o := cleanupOldRecordings clock w in
  let w' := world_of o in
  result_of o = Some tt
  /\ cameras (storage w') = cameras (storage w)
  /\ anprEvents (storage w') = anprEvents (storage w)
  /\ recordings (storage w') ⊆ recordings (storage w)
  /\ files w' ⊆ files w
  /\ streams w' = streams w
  /\ ff_recordings w' = ff_recordings w
  /\ monitoredCameras w' = monitoredCameras w
  /\ processingCache w' = processingCache w
  /\ forallb (fun a => negb (is_kill a || is_spawn a)) (new_actions w o) = true.
Proof.
  intros o w'. subst w' o. split.
  - unfold cleanupOldRecordings. run.
    generalize (getCameras (storage w)). intros cams. revert w.
    induction cams as [|c cams IH]; intros w; [reflexivity|].
    simpl. run. rewrite cleanupCamera_world. apply IH.
  - set (P := fun w' : World =>
        cameras (storage w') = cameras (storage w)
        /\ anprEvents (storage w') = anprEvents (storage w)
        /\ recordings (storage w') ⊆ recordings (storage w)
        /\ files w' ⊆ files w
        /\ streams w' = streams w
        /\ ff_recordings w' = ff_recordings w
        /\ monitoredCameras w' = monitoredCameras w
        /\ processingCache w' = processingCache w
        /\ exists l, log w' = log w ++ l
                     /\ forallb (fun a => negb (is_kill a || is_spawn a)) l = true).
    assert (HP : preserves P (cleanupOldRecordings clock)).
    { unfold cleanupOldRecordings, cleanupCamera, cleanupRecording, unlink. preserve.
      all: intros w0 (H1 & H2 & H3 & H4 & H5 & H6 & H7 & H8 & l & H9 & H10).
      all: split; [assumption|]; split; [assumption|].
      all: split; [try assumption|]; [try (simpl; etrans; [apply delete_subseteq | exact H3])..|].
      all: split; [try assumption|]; [try (simpl; etrans; [apply delete_subseteq | exact H4])..|].
      all: do 4 (split; [assumption|]).
      all: first [ exists l; split; [exact H9 | exact H10]
                 | eexists; split; [simpl; rewrite H9, <- app_assoc; reflexivity|];
                   rewrite forallb_app, H10; reflexivity ]. }
    destruct (HP w) as (H1 & H2 & H3 & H4 & H5 & H6 & H7 & H8 & l & H9 & H10).
    { repeat split; try reflexivity. exists []. split; [symmetry; apply app_nil_r | reflexivity]. }
    repeat split; try assumption.
    unfold new_actions. rewrite H9, drop_app_length. exact H10.
Qed.

Lemma cleanupRecording_keeps r' w rid r :
  recordings (storage w) !! rid = Some r ->
  files w !! Recording.path r = None ->
  (Recording.id r' = rid -> Recording.path r' = Recording.path r) ->
  recordings (storage (world_of (cleanupRecording r' w))) !! rid = Some r
  /\ files (world_of (cleanupRecording r' w)) !! Recording.path r = None.
Proof.
  intros Hr Hf Hsame. unfold cleanupRecording, unlink. run.
  destruct (bool_decide (is_Some (files w !! Recording.path r'))) eqn:Hb; simpl.
  - apply bool_decide_eq_true in Hb.
    assert (Hp : Recording.path r' <> Recording.path r).
    { intros Hp. rewrite Hp, Hf in Hb. destruct Hb; discriminate. }
    assert (Hi : Recording.id r' <> rid) by (intros Hi; apply Hp, Hsame, Hi).
    split.
    + rewrite lookup_delete_ne by exact Hi. exact Hr.
    + rewrite lookup_delete_ne by exact Hp. exact Hf.
  - split; assumption.
Qed.

Lemma sweep_recordings_keeps olds rid r :
  (forall r', r' ∈ olds -> Recording.id r' = rid -> Recording.path r' = Recording.path r) ->
  forall w,
  recordings (storage w) !! rid = Some r ->
  files w !! Recording.path r = None ->
  recordings (storage (world_of (for_each olds cleanupRecording w))) !! rid = Some r
  /\ files (world_of (for_each olds cleanupRecording w)) !! Recording.path r = None.
Proof.
  induction olds as [|r' olds IH]; intros Holds w Hr Hf; [split; assumption|].
  simpl. run. rewrite cleanupRecording_returns.
  destruct (cleanupRecording_keeps r' w rid r Hr Hf) as [Hr' Hf'].
  { apply Holds, list_elem_of_here. }
  apply IH; [|assumption..].
  intros r'' Hin. apply Holds, list_elem_of_further, Hin.
Qed.

Lemma cleanupCamera_keeps `{Platform} now c w rid r :
  (forall k r', recordings (storage w) !! k = Some r' -> Recording.id r' = k) ->
  recordings (storage w) !! rid = Some r ->
  files w !! Recording.path r = None ->
  recordings (storage (world_of (cleanupCamera now c w))) !! rid = Some r
  /\ files (world_of (cleanupCamera now c w)) !! Recording.path r = None.
Proof.
  intros Hfiled Hr Hf. rewrite cleanupCamera_world. cbn [world_of].
  apply sweep_recordings_keeps; [|assumption..].
  intros r' Hin Hid. apply getRecordings_elem_of in Hin as [[k Hk] _].
  pose proof (Hfiled k r' Hk) as Hk'. rewrite Hid in Hk'. subst k.
  rewrite Hr in Hk. injection Hk as <-. reflexivity.
Qed.

Lemma cleanupCamera_filed `{Platform} now c w :
  (forall k r', recordings (storage w) !! k = Some r' -> Recording.id r' = k) ->
  forall k r', recordings (storage (world_of (cleanupCamera now c w))) !! k = Some r' ->
               Recording.id r' = k.
Proof.
  intros Hfiled k r' Hk.
  destruct (cleanupCamera_effect now c w Hfiled) as (w' & l & E & _ & Hsub & _).
  rewrite E in Hk. cbn [world_of] in Hk.
  apply Hfiled. eapply lookup_weaken; [exact Hk | exact Hsub].
Qed.

(** X15: the sweep keeps the row of a recording whose file is not there,
    however old the recording: [fs.unlink] throws before the row is
    deleted. *)
Theorem cleanupOldRecordings_keeps_row_without_file `{Platform} w clock rid r :
  (forall k r', recordings (storage w) !! k = Some r' -> Recording.id r' = k) ->
  recordings (storage w) !! rid = Some r ->
  files w !! Recording.path r = None ->
  recordings (storage (world_of (cleanupOldRecordings clock w))) !! rid = Some r.
Proof.
  intros Hfiled Hr Hf. unfold cleanupOldRecordings. run.
  generalize (getCameras (storage w)). intros cams. revert w Hfiled Hr Hf.
  induction cams as [|c cams IH]; intros w Hfiled Hr Hf; [exact Hr|].
  simpl. run. rewrite cleanupCamera_world.
  pose proof (cleanupCamera_keeps (clock (Camera.id c)) c w rid r Hfiled Hr Hf) as [Hr' Hf'].
  pose proof (cleanupCamera_filed (clock (Camera.id c)) c w Hfiled) as Hfiled'.
  rewrite cleanupCamera_world in Hr', Hf', Hfiled'. cbn [world_of] in Hr', Hf', Hfiled'.
  apply IH; assumption.
Qed.

Lemma cleanupOldRecordings_keeps_row_without_file_witness :
  recordings (storage (set_files ∅ demo_world)) !! "rec-1"
  = Some (demo_recording "rec-1" "cam-1" 1000 Null)
  /\ files (set_files ∅ demo_world)
       !! Recording.path (demo_recording "rec-1" "cam-1" 1000 Null) = None
  /\ recordings (storage (world_of (@cleanupOldRecordings demo demo_sweep_clock
                                      (set_files ∅ demo_world)))) !! "rec-1"
     = Some (demo_recording "rec-1" "cam-1" 1000 Null).
Proof.
  split; [reflexivity|]. split; [reflexivity|].
  apply (@cleanupOldRecordings_keeps_row_without_file demo).
  - apply demo_world_well_filed.
  - reflexivity.
  - reflexivity.
Defined.
(** ** More on the health monitor *)

Lemma same_but_streams_refl w : same_but_streams w w.
Proof. repeat split. Qed.

Lemma checkCamera_same_but_streams `{Platform} w0 id :
  preserves (same_but_streams w0) (checkCamera id).
Proof.
  unfold checkCamera, emit, broadcast, startHLSStream, stopStream, resolveRtspUrl. preserve.
  all: intros w Hw; exact Hw.
Qed.

Lemma checkCamera_returns `{Platform} id w :
  checkCamera id w = Returned tt (world_of (checkCamera id w)).
Proof.
  destruct (checkCamera_effect id w) as (w' & l & -> & _). reflexivity.
Qed.

Lemma checkCamera_monitored `{Platform} j w i :
  i ∈ monitoredCameras (world_of (checkCamera j w))
  <-> i ∈ monitoredCameras w /\ (i = j -> is_Some (cameras (storage w) !! i)).
Proof.
  unfold checkCamera, getCamera.
  destruct (cameras (storage w) !! j) as [c|] eqn:E.
  - assert (Hm : monitoredCameras (world_of (checkCamera j w)) = monitoredCameras w).
    { unfold checkCamera, getCamera. unfold try_catch at 1. run. rewrite E.
      destruct (negb _); [|reflexivity].
      unfold emit, broadcast. run.
      match goal with |- context [if ?b then _ else _] => destruct b end; [|reflexivity].
      match goal with |- context [startHLSStream j ?w0] =>
        assert (H1 : monitoredCameras (world_of (startHLSStream j w0)) = monitoredCameras w0);
        [|destruct (startHLSStream j w0); exact H1] end.
      match goal with |- monitoredCameras (world_of (startHLSStream j ?w0)) = _ =>
        generalize w0 end.
      intros w0.
      assert (HP : preserves (fun w' => monitoredCameras w' = monitoredCameras w0)
                     (startHLSStream j)).
      { unfold startHLSStream, stopStream, resolveRtspUrl. preserve.
        all: intros w1 Hw1; exact Hw1. }
      apply HP. reflexivity. }
    unfold checkCamera, getCamera in Hm. rewrite Hm. split.
    + intros Hi. split; [exact Hi|]. intros ->. rewrite E. eauto.
    + intros [Hi _]. exact Hi.
  - unfold try_catch. run. rewrite E. simpl. rewrite elem_of_difference, elem_of_singleton.
    split.
    + intros [Hi Hn]. split; [exact Hi|]. intros ->. contradiction.
    + intros [Hi Hrow]. split; [exact Hi|]. intros ->. rewrite E in Hrow.
      destruct (Hrow eq_refl); discriminate.
Qed.

Lemma for_each_checkCamera_monitored `{Platform} ids :
  forall w i,
  i ∈ monitoredCameras (world_of (for_each ids checkCamera w))
  <-> i ∈ monitoredCameras w /\ (i ∈ ids -> is_Some (cameras (storage w) !! i)).
Proof.
  induction ids as [|j ids IH]; intros w i; simpl.
  - split; [intros Hi; split; [exact Hi|]; intros Hin; inversion Hin|]. intros [Hi _]. exact Hi.
  - run. rewrite checkCamera_returns. rewrite IH, checkCamera_monitored.
    assert (Hs : storage (world_of (checkCamera j w)) = storage w).
    { apply (checkCamera_same_but_streams w j w (same_but_streams_refl w)). }
    rewrite Hs, elem_of_cons. split.
    + intros [[Hi Hj] Hids]. split; [exact Hi|]. intros [->|Hin]; auto.
    + intros [Hi Hall]. split; [split; [exact Hi|]|]; auto.
Qed.

(** X16: a tick of the health monitor writes nothing to the store (the status
    of a row is read and never updated), leaves recordings, files and the
    ANPR worker alone, and afterwards the monitor watches exactly those of
    its ids that have a row. *)
Theorem checkAllCameras_only_watches `{Platform} w :
  let o := checkAllCameras w in
  result_of o = Some tt
  /\ same_but_streams w (world_of o)
  /\ forall i, i ∈ monitoredCameras (world_of o)
               <-> i ∈ monitoredCameras w /\ is_Some (cameras (storage w) !! i).
Proof.
  intros o. subst o. split; [|split].
  - destruct (checkAllCameras_effect w) as (w' & l & -> & _). reflexivity.
  - assert (HP : preserves (same_but_streams w) checkAllCameras).
    { unfold checkAllCameras. preserve. apply checkCamera_same_but_streams. }
    apply HP, same_but_streams_refl.
  - intros i. unfold checkAllCameras. run. rewrite for_each_checkCamera_monitored.
    rewrite elem_of_elements. split.
    + intros [Hi Hrow]. auto.
    + intros [Hi Hrow]. auto.
Qed.
(** ** More on the ANPR worker *)

Lemma processDetection_files cameraId anpr frame r F :
  preserves (fun w => files w = F) (processDetection cameraId anpr frame r).
Proof.
  unfold processDetection, emit, broadcast. preserve.
  all: try (intros w Hw; exact Hw).
  all: intros w Hw; simpl; destruct (truthy_obj _); exact Hw.
Qed.

Lemma processFrame_watching cameraId camera anpr frame reads w :
  watching cameraId camera anpr w ->
  processFrame cameraId (Some frame) reads w
  = try_finally (for_each reads (processDetection cameraId anpr frame))
      (discardFrame (framePath frame))
      (set_files (<[framePath frame := frameBytes frame]> (files w)) w).
Proof.
  intros (Hc & Ha & He). unfold processFrame, getCamera. run. rewrite Hc, Ha, He. reflexivity.
Qed.

(** X17: a tick of the worker removes the frame it worked on, and every event
    the tick stored names that removed file as its snapshot. *)
Theorem processFrame_discards_frame cameraId camera anpr frame reads w :
  watching cameraId camera anpr w ->
  let o := processFrame cameraId (Some frame) reads w in
  result_of o = Some tt
  /\ files (world_of o) = delete (framePath frame) (files w)
  /\ forall i e, anprEvents (storage (world_of o)) !! i = Some e ->
                 anprEvents (storage w) !! i = Some e
                 \/ AnprEvent.snapshotPath e = Val (framePath frame).
Proof.
  intros Hw o. subst o. rewrite (processFrame_watching _ _ _ _ _ _ Hw).
  unfold try_finally.
  set (w0 := set_files (<[framePath frame := frameBytes frame]> (files w)) w).
  destruct (for_each_processDetection_events cameraId anpr frame reads w0) as (w1 & E & Hev).
  assert (Hf : files w1 = <[framePath frame := frameBytes frame]> (files w)).
  { assert (HP : preserves (fun w' => files w' = <[framePath frame := frameBytes frame]> (files w))
                   (for_each reads (processDetection cameraId anpr frame))).
    { apply preserves_for_each. intros r. apply processDetection_files. }
    specialize (HP w0 eq_refl). rewrite E in HP. exact HP. }
  rewrite E. cbn [world_of result_of]. split; [reflexivity|].
  destruct (unlink_frame_world (framePath frame) w1) as (l & -> & _).
  destruct (discardFrame_keeps (framePath frame) w1) as (l' & _ & _ & Hs & _).
  split.
  - simpl. rewrite Hf. apply delete_insert_eq.
  - intros i e Hi. simpl in Hi. destruct (Hev i e Hi) as [Hold|(r & _ & _ & ->)].
    + left. exact Hold.
    + right. reflexivity.
Qed.

Lemma processFrame_discards_frame_witness :
  watching "cam-1" (demo_camera "cam-1" "rtsp://192.168.1.10/stream" "offline")
    {| enabled := true; sampleEveryNthFrame := Some 5; confidenceThreshold := Some (8 # 10) |}
    demo_world
  /\ files (world_of (processFrame "cam-1" (Some demo_frame) [demo_read 4000 "evt-1"] demo_world))
       !! framePath demo_frame = None
  /\ AnprEvent.snapshotPath
       <$> anprEvents (storage (world_of (processFrame "cam-1" (Some demo_frame)
                                            [demo_read 4000 "evt-1"] demo_world))) !! "evt-1"
     = Some (Val (framePath demo_frame)).
Proof.
  assert (Hw : watching "cam-1" (demo_camera "cam-1" "rtsp://192.168.1.10/stream" "offline")
                 {| enabled := true; sampleEveryNthFrame := Some 5;
                    confidenceThreshold := Some (8 # 10) |} demo_world)
    by (repeat split).
  split; [exact Hw|].
  destruct (processFrame_discards_frame "cam-1" _ _ demo_frame [demo_read 4000 "evt-1"]
              demo_world Hw) as (_ & Hf & _).
  split; [rewrite Hf; apply lookup_delete_eq | vm_compute; reflexivity].
Defined.
Lemma reads_without_entry_set cameraId anpr frame reads :
  forall w,
  processingCache w !! cameraId = None ->
  exists w' l,
    for_each reads (processDetection cameraId anpr frame) w = Returned tt w'
    /\ log w' = log w ++ l
    /\ anpr_events l = length (List.filter (accepted anpr) reads).
Proof.
  induction reads as [|r reads IH]; intros w Hc.
  - exists w, []. split; [reflexivity|]. split; [symmetry; apply app_nil_r | reflexivity].
  - simpl. run. rewrite processDetection_run.
    destruct (accepted anpr r) eqn:Ha.
    + rewrite Hc.
      destruct (persisted_world_log cameraId frame r w) as (l1 & Hl1 & Hn1).
      destruct (IH (persisted_world cameraId frame r w)) as (w' & l & E & Hl & Hn);
        [exact Hc|].
      exists w', (l1 ++ l). split; [exact E|]. split.
      * rewrite Hl, Hl1, <- app_assoc. reflexivity.
      * rewrite anpr_events_app, Hn1, Hn. reflexivity.
    + destruct (IH w Hc) as (w' & l & E & Hl & Hn).
      exists w', l. split; [exact E|]. split; assumption.
Qed.

(** X18: while the worker holds no entry set for a camera (it was never
    started for it, or was stopped), a tick stores and emits one event for
    every accepted read: nothing is held back as a repeat. *)
Theorem processFrame_without_entry_set cameraId camera anpr frame reads w :
  watching cameraId camera anpr w ->
  processingCache w !! cameraId = None ->
  anpr_events (new_actions w (processFrame cameraId (Some frame) reads w))
  = length (List.filter (accepted anpr) reads).
Proof.
  intros Hw Hc. rewrite (processFrame_watching _ _ _ _ _ _ Hw). unfold try_finally.
  set (w0 := set_files (<[framePath frame := frameBytes frame]> (files w)) w).
  destruct (reads_without_entry_set cameraId anpr frame reads w0 Hc) as (w1 & l & E & Hl & Hn).
  rewrite E.
  destruct (discardFrame_keeps (framePath frame) w1) as (l' & Hl' & Hn' & _).
  rewrite (new_actions_appended w _ tt (l ++ l')).
  - rewrite anpr_events_app, Hn, Hn'. lia.
  - rewrite Hl', Hl, <- app_assoc. reflexivity.
Qed.

Lemma processFrame_without_entry_set_witness :
  watching "cam-1" (demo_camera "cam-1" "rtsp://192.168.1.10/stream" "offline")
    {| enabled := true; sampleEveryNthFrame := Some 5; confidenceThreshold := Some (8 # 10) |}
    (world_of (stopProcessing "cam-1" demo_world))
  /\ processingCache (world_of (stopProcessing "cam-1" demo_world)) !! "cam-1" = None
  /\ anpr_events
       (new_actions (world_of (stopProcessing "cam-1" demo_world))
          (processFrame "cam-1" (Some demo_frame)
             [demo_read 4000 "evt-1"; demo_read 4001 "evt-2"; demo_read 4002 "evt-3"]
             (world_of (stopProcessing "cam-1" demo_world))))
     = 3%nat.
Proof.
  assert (Hw : watching "cam-1" (demo_camera "cam-1" "rtsp://192.168.1.10/stream" "offline")
                 {| enabled := true; sampleEveryNthFrame := Some 5;
                    confidenceThreshold := Some (8 # 10) |}
                 (world_of (stopProcessing "cam-1" demo_world)))
    by (repeat split).
  split; [exact Hw|]. split; [reflexivity|].
  rewrite (processFrame_without_entry_set "cam-1" _ _ demo_frame _ _ Hw eq_refl).
  reflexivity.
Defined.

Lemma startProcessing_watching cameraId camera anpr w :
  watching cameraId camera anpr w ->
  startProcessing cameraId w
  = Returned tt
      (set_processingCache (<[cameraId := ∅]> (delete cameraId (processingCache w)))
         (set_workers (<[cameraId := timer_delay (or_defaultZ (sampleEveryNthFrame anpr) 5
                                                  * 1000)]>
                         (delete cameraId (workers w))) w)).
Proof.
  intros (Hc & Ha & He). unfold startProcessing, stopProcessing, getCamera. run.
  rewrite Hc, Ha, He. reflexivity.
Qed.

(** X19: [startProcessing] on a watched camera starts from an empty entry set,
    whatever the worker had seen: the first accepted read after it is stored
    and emitted again, also within the five seconds of an earlier read of the
    same plate.  The timer it installs runs with the delay [setInterval]
    makes of [(sampleEveryNthFrame || 5) * 1000]. *)
Theorem startProcessing_forgets cameraId camera anpr frame r w :
  watching cameraId camera anpr w ->
  accepted anpr r = true ->
  let w1 := world_of (startProcessing cameraId w) in
  processingCache w1 !! cameraId = Some ∅
  /\ workers w1 !! cameraId
     = Some (timer_delay (or_defaultZ (sampleEveryNthFrame anpr) 5 * 1000))
  /\ storage w1 = storage w
  /\ anpr_events (new_actions w1 (processFrame cameraId (Some frame) [r] w1)) = 1%nat.
Proof.
  intros Hw Ha w1. subst w1. rewrite (startProcessing_watching _ _ _ _ Hw). cbn [world_of].
  split; [simpl; apply lookup_insert_eq|].
  split; [simpl; apply lookup_insert_eq|].
  split; [reflexivity|].
  match goal with |- context [processFrame _ _ _ ?x] => set (w1 := x) end.
  assert (Hw1 : watching cameraId camera anpr w1) by exact Hw.
  rewrite (processFrame_watching _ _ _ _ _ _ Hw1). unfold try_finally.
  simpl for_each. run. rewrite processDetection_run, Ha.
  cbn [processingCache set_files].
  assert (Hc1 : processingCache w1 !! cameraId = Some ∅) by (simpl; apply lookup_insert_eq).
  rewrite Hc1.
  rewrite bool_decide_eq_false_2 by apply not_elem_of_empty.
  match goal with |- context [persisted_world _ _ _ ?x] =>
    destruct (persisted_world_log cameraId frame r x) as (l & Hl & Hn);
    destruct (discardFrame_keeps (framePath frame) (persisted_world cameraId frame r x))
      as (l' & Hl' & Hn' & _)
  end.
  rewrite (new_actions_appended w1 _ tt (l ++ l')).
  - rewrite anpr_events_app, Hn, Hn'. reflexivity.
  - rewrite Hl', Hl, <- app_assoc. reflexivity.
Qed.

Lemma startProcessing_forgets_witness :
  anpr_events
    (new_actions demo_world
       (processFrame "cam-1" (Some demo_frame) [demo_read 4000 "evt-1"] demo_world)) = 1%nat
  /\ anpr_events
       (new_actions
          (world_of (processFrame "cam-1" (Some demo_frame) [demo_read 4000 "evt-1"] demo_world))
          (processFrame "cam-1" (Some demo_frame) [demo_read 4100 "evt-2"]
             (world_of (processFrame "cam-1" (Some demo_frame) [demo_read 4000 "evt-1"]
                          demo_world)))) = 0%nat
  /\ anpr_events
       (new_actions
          (world_of (startProcessing "cam-1"
             (world_of (processFrame "cam-1" (Some demo_frame) [demo_read 4000 "evt-1"]
                          demo_world))))
          (processFrame "cam-1" (Some demo_frame) [demo_read 4100 "evt-2"]
             (world_of (startProcessing "cam-1"
                (world_of (processFrame "cam-1" (Some demo_frame) [demo_read 4000 "evt-1"]
                             demo_world)))))) = 1%nat.
Proof.
  split; [vm_compute; reflexivity|]. split; [vm_compute; reflexivity|].
  apply (startProcessing_forgets "cam-1"
           (demo_camera "cam-1" "rtsp://192.168.1.10/stream" "offline")
           {| enabled := true; sampleEveryNthFrame := Some 5;
              confidenceThreshold := Some (8 # 10) |}).
  - repeat split.
  - reflexivity.
Defined.
Lemma fresh_key_earlier now1 now2 key :
  now1 <= now2 -> fresh_key now2 key = true -> fresh_key now1 key = true.
Proof.
  unfold fresh_key. intros Hle. destruct (parseInt (last_field key)) as [n|]; [|discriminate].
  rewrite !Z.ltb_lt. lia.
Qed.

(** X20: a clean-up of the entry sets subsumes every earlier one: cleaning at
    an instant and then at a later one leaves what cleaning at the later one
    alone leaves; in particular cleaning twice at one instant is cleaning
    once.  A clean-up keeps the cameras that have an entry set, only removes
    keys, and touches nothing else. *)
Theorem cleanupCache_later_subsumes now1 now2 w :
  now1 <= now2 ->
  cleanupCache now2 (world_of (cleanupCache now1 w)) = cleanupCache now2 w
  /\ dom (processingCache (world_of (cleanupCache now1 w))) = dom (processingCache w)
  /\ (forall id keys', processingCache (world_of (cleanupCache now1 w)) !! id = Some keys' ->
        exists keys, processingCache w !! id = Some keys /\ keys' ⊆ keys)
  /\ set_processingCache (processingCache w) (world_of (cleanupCache now1 w)) = w.
Proof.
  intros Hle. unfold cleanupCache. run. cbn [world_of]. split; [|split; [|split]].
  - f_equal. unfold set_processingCache. simpl. f_equal.
    apply map_eq. intros i. rewrite !lookup_fmap.
    destruct (processingCache w !! i) as [keys|]; simpl; [|reflexivity].
    f_equal. apply set_eq. intros key. rewrite !elem_of_filter. split.
    + intros [H2 [_ Hk]]. split; assumption.
    + intros [H2 Hk]. split; [exact H2|]. split; [|exact Hk].
      apply Is_true_true. apply (fresh_key_earlier now1 now2); [exact Hle|].
      apply Is_true_true, H2.
  - simpl. apply dom_fmap_L.
  - intros id keys'. simpl. rewrite lookup_fmap.
    destruct (processingCache w !! id) as [keys|]; simpl; [|discriminate].
    intros [= <-]. exists keys. split; [reflexivity|].
    intros key Hk. apply elem_of_filter in Hk as [_ Hk]. exact Hk.
  - destruct w. reflexivity.
Qed.

Lemma cleanupCache_later_subsumes_witness :
  4000 <= 40000
  /\ cleanupCache 40000
       (world_of (cleanupCache 4000
          (world_of (processFrame "cam-1" (Some demo_frame) [demo_read 4000 "evt-1"]
                       demo_world))))
     = cleanupCache 40000
         (world_of (processFrame "cam-1" (Some demo_frame) [demo_read 4000 "evt-1"] demo_world))
  /\ processingCache
       (world_of (cleanupCache 4000
          (world_of (processFrame "cam-1" (Some demo_frame) [demo_read 4000 "evt-1"]
                       demo_world)))) !! "cam-1"
     = Some {[ "ABC1234_0" ]}
  /\ processingCache
       (world_of (cleanupCache 40000
          (world_of (processFrame "cam-1" (Some demo_frame) [demo_read 4000 "evt-1"]
                       demo_world)))) !! "cam-1"
     = Some ∅.
Proof.
  assert (Hle : 4000 <= 40000) by lia.
  split; [exact Hle|]. split; [|split; vm_compute; reflexivity].
  apply (cleanupCache_later_subsumes 4000 40000), Hle.
Defined.
(** ** More on the routes *)

Lemma set_storage_same w : set_storage (storage w) w = w.
Proof. destruct w. reflexivity. Qed.

(** X21: a request that names a camera the store does not have is answered
    404 and changes nothing, on every route that takes a camera id. *)
Theorem routes_unknown_camera `{Platform} w id :
  cameras (storage w) !! id = None ->
  (forall body iv now,
      is_Some (parseUpdateCamera body) ->
      putCamera id body iv now w
      = Returned {| res_status := 404; res_body := BMessage "Camera not found" |} w)
  /\ deleteCameraRoute id w
     = Returned {| res_status := 404; res_body := BMessage "Camera not found" |} w
  /\ (forall recordingId now,
        startRecordRoute id recordingId now w
        = Returned {| res_status := 404; res_body := BMessage "Camera not found" |} w)
  /\ (forall now outcome,
        snapshotRoute id now outcome w = Returned (Fail 404 "Camera not found") w)
  /\ getCameraRoute id w = Returned (Fail 404 "Camera not found") w.
Proof.
  intros E. split; [|split; [|split; [|split]]].
  - intros body iv now [b Hb]. unfold putCamera, parse_or_throw, updateCamera. run.
    rewrite Hb. run. rewrite E. rewrite set_storage_same. reflexivity.
  - apply deleteCameraRoute_unknown, E.
  - intros rid now. unfold startRecordRoute, getCamera. run. rewrite E. reflexivity.
  - intros now outcome. unfold snapshotRoute, getCamera. run. rewrite E. reflexivity.
  - unfold getCameraRoute, getCameraWithStats. run. rewrite E. reflexivity.
Qed.

Lemma routes_unknown_camera_witness :
  cameras (storage demo_world) !! "cam-7" = None
  /\ @putCamera demo "cam-7" password_update demo_iv 9 demo_world
     = Returned {| res_status := 404; res_body := BMessage "Camera not found" |} demo_world
  /\ deleteCameraRoute "cam-7" demo_world
     = Returned {| res_status := 404; res_body := BMessage "Camera not found" |} demo_world.
Proof.
  assert (E : cameras (storage demo_world) !! "cam-7" = None) by reflexivity.
  split; [exact E|]. split.
  - apply (@routes_unknown_camera demo demo_world "cam-7" E); (vm_compute; eauto).
  - apply (@routes_unknown_camera demo demo_world "cam-7" E).
Defined.

(** X22: [POST /api/cameras] answers 400 and changes nothing when the body
    does not parse, and 201 whenever it does.  Then the row is in the store
    with a null [encryptedPassword] and no [password], the camera is
    monitored, and when the body's [enabledProtocols] has a key [hls]
    (whatever its value) a child is spawned on the address as given, after
    the child registered under the id, if any, was killed. *)
Theorem postCamera_outcome `{Platform} w body iv id now :
  (parseInsertCamera body = None ->
   postCamera body iv id now w
   = Returned {| res_status := 400; res_body := BMessage "Failed to create camera" |} w)
  /\ (is_Some (parseInsertCamera body) ->
      let o := postCamera body iv id now w in
      exists camera,
        result_of o = Some {| res_status := 201; res_body := BCamera (safeCamera camera) |}
        /\ cameras (storage (world_of o)) !! id = Some camera
        /\ Camera.id camera = id
        /\ Camera.rtspUrl camera = from_val "" (CameraBody.rtspUrl body)
        /\ Camera.encryptedPassword camera = Null
        /\ Camera.password camera = Undefined
        /\ Camera.status camera = "offline"
        /\ id ∈ monitoredCameras (world_of o)
        /\ let f := {| event := "camera-added"; data := PCamera camera |} in
           if has_hls (CameraBody.enabledProtocols body)
           then new_actions w o
                = stream_kills w id ++ Spawn (live_child id (Camera.rtspUrl camera))
                    :: Broadcast f :: sends (wsClients w) f
                /\ streams (world_of o) !! id = Some (live_child id (Camera.rtspUrl camera))
           else new_actions w o = Broadcast f :: sends (wsClients w) f
                /\ streams (world_of o) = streams w).
Proof.
  split; [apply postCamera_invalid|].
  intros Hb o. subst o. rewrite (postCamera_eq w body iv id now Hb).
  cbn [world_of result_of]. eexists. split; [reflexivity|].
  cbn [createCamera fst Camera.id Camera.rtspUrl Camera.encryptedPassword Camera.password
       Camera.status Camera.enabledProtocols withoutPassword CameraBody.rtspUrl
       CameraBody.password CameraBody.enabledProtocols].
  split.
  { destruct (has_hls _); simpl; [|apply lookup_insert_eq].
    rewrite stopped_world_storage. simpl. apply lookup_insert_eq. }
  do 5 (split; [reflexivity|]).
  split.
  { destruct (has_hls _); simpl.
    - unfold stopped_world. destruct (streams _ !! id); simpl;
        apply elem_of_union_l, elem_of_singleton; reflexivity.
    - apply elem_of_union_l, elem_of_singleton; reflexivity. }
  destruct (has_hls (CameraBody.enabledProtocols body)).
  - split.
    + apply new_actions_appended. simpl. rewrite stopped_world_log. simpl.
      rewrite <- !app_assoc. reflexivity.
    + simpl. apply lookup_insert_eq.
  - split; [apply new_actions_appended; reflexivity | reflexivity].
Qed.

Lemma postCamera_outcome_witness :
  is_Some (parseInsertCamera create_request)
  /\ exists camera,
       result_of (@postCamera demo create_request demo_iv "cam-9" 7 demo_world)
       = Some {| res_status := 201; res_body := BCamera (safeCamera camera) |}
       /\ Camera.encryptedPassword camera = Null
       /\ new_actions demo_world (@postCamera demo create_request demo_iv "cam-9" 7 demo_world)
          = [Spawn (live_child "cam-9" "rtsp://192.168.1.20/stream");
             Broadcast {| event := "camera-added"; data := PCamera camera |};
             Send 1 {| event := "camera-added"; data := PCamera camera |}].
Proof.
  assert (Hb : is_Some (parseInsertCamera create_request)) by (vm_compute; eauto).
  split; [exact Hb|].
  destruct (proj2 (@postCamera_outcome demo demo_world create_request demo_iv "cam-9" 7) Hb)
    as (camera & Hr & _ & _ & Hu & He & _ & _ & _ & Ha).
  exists camera. split; [exact Hr|]. split; [exact He|].
  simpl in Ha. destruct Ha as [Ha _]. rewrite Ha, Hu. reflexivity.
Defined.
Lemma putCamera_invalid `{Platform} w id body iv now :
  parseUpdateCamera body = None ->
  putCamera id body iv now w
  = Returned {| res_status := 400; res_body := BMessage "Failed to update camera" |} w.
Proof. intros E. unfold putCamera, parse_or_throw. run. rewrite E. reflexivity. Qed.

(** X23: the two ways [PUT /api/cameras/:id] answers 400.  A body that does
    not parse changes nothing.  A restart that throws (the secret of the row
    does not open, or its address does not parse) comes after the store was
    written and the live child killed: the row is updated, the camera has no
    live child, and nothing is broadcast. *)
Theorem putCamera_bad_request `{Platform} w id body iv now :
  (parseUpdateCamera body = None ->
   putCamera id body iv now w
   = Returned {| res_status := 400; res_body := BMessage "Failed to update camera" |} w)
  /\ (forall old e,
        cameras (storage w) !! id = Some old ->
        Camera.id old = id ->
        is_Some (parseUpdateCamera body) ->
        restarts body = true ->
        resolveRtspUrl (applyUpdates old (finalUpdates_of body) now) w = Threw e w ->
        let o := putCamera id body iv now w in
        result_of o
        = Some {| res_status := 400; res_body := BMessage "Failed to update camera" |}
        /\ cameras (storage (world_of o)) !! id
           = Some (applyUpdates old (finalUpdates_of body) now)
        /\ streams (world_of o) !! id = None
        /\ new_actions w o = stream_kills w id).
Proof.
  split; [apply putCamera_invalid|].
  intros old e E Hid Hb Hr He o. subst o.
  rewrite (putCamera_eq w id body iv now old E Hid Hb). cbv zeta. rewrite Hr.
  rewrite (resolveRtspUrl_any_world _ w), He. cbn [world_of result_of].
  split; [reflexivity|]. split; [|split].
  - rewrite stopped_world_storage. simpl. apply lookup_insert_eq.
  - apply stopped_world_streams.
  - apply new_actions_appended. rewrite stopped_world_log. reflexivity.
Qed.

Lemma putCamera_bad_request_witness :
  exists old body e,
    cameras (storage (updated_world demo_world "cam-1" old)) !! "cam-1" = Some old
    /\ Camera.id old = "cam-1"
    /\ is_Some (parseUpdateCamera body)
    /\ restarts body = true
    /\ @resolveRtspUrl demo (applyUpdates old (finalUpdates_of body) 9)
         (updated_world demo_world "cam-1" old)
       = Threw e (updated_world demo_world "cam-1" old)
    /\ result_of (@putCamera demo "cam-1" body demo_iv 9 (updated_world demo_world "cam-1" old))
       = Some {| res_status := 400; res_body := BMessage "Failed to update camera" |}
    /\ Camera.name
         <$> cameras (storage (world_of (@putCamera demo "cam-1" body demo_iv 9
                                           (updated_world demo_world "cam-1" old)))) !! "cam-1"
       = Some "Yard".
Proof.
  exists (Camera.mk "cam-1" "Gate" "rtsp://192.168.1.10/stream" (Val "operator")
            (Val "not-a-sealed-secret") Undefined Undefined Undefined Undefined Undefined
            Undefined Undefined "offline" Null Null 0 0).
  exists (CameraBody.mk (Val "Yard") (Val "rtsp://192.168.1.10/stream") Undefined Undefined
            Undefined Undefined Undefined Undefined Undefined Undefined Undefined).
  exists "Unsupported state or unable to authenticate data".
  split; [reflexivity|]. split; [reflexivity|]. split; [vm_compute; eauto|].
  split; [reflexivity|]. split; [reflexivity|].
  match goal with |- context [@putCamera _ _ ?b _ _ (updated_world _ _ ?c)] =>
    destruct (proj2 (@putCamera_bad_request demo (updated_world demo_world "cam-1" c) "cam-1"
                       b demo_iv 9) c "Unsupported state or unable to authenticate data")
      as (H1 & H2 & _)
  end; try reflexivity.
  - vm_compute. eauto.
  - split; [exact H1|]. rewrite H2. reflexivity.
Defined.

(** X24: what the two reading routes give away.  [GET /api/cameras] answers
    every camera of the store once, and [GET /api/cameras/:id] the camera
    with its figures; in both, [encryptedPassword] is absent and the user
    name is the mask or null; neither changes anything. *)
Theorem get_routes_mask `{Platform} w :
  (exists body,
      getCamerasRoute w = Returned (Ok 200 body) w
      /\ length body = size (cameras (storage w))
      /\ (forall k camera, cameras (storage w) !! k = Some camera -> safeCamera camera ∈ body)
      /\ (forall c, c ∈ body ->
            Camera.encryptedPassword c = Undefined
            /\ (Camera.username c = Val "[HIDDEN]" \/ Camera.username c = Null)))
  /\ (forall id camera,
        cameras (storage w) !! id = Some camera ->
        exists stats,
          getCameraWithStats (storage w) id = Some stats
          /\ getCameraRoute id w
             = Returned (Ok 200 {| cws_camera := safeCamera camera;
                                   recordingCount := recordingCount stats;
                                   anprEventCount := anprEventCount stats;
                                   isRecording := isRecording stats |}) w).
Proof.
  split.
  - exists (safeCamera <$> getCameras (storage w)). split; [reflexivity|]. split; [|split].
    + rewrite length_fmap. unfold getCameras. rewrite js_sort_length. unfold values.
      rewrite length_fmap. apply length_map_to_list.
    + intros k camera Hk. apply list_elem_of_fmap. exists camera. split; [reflexivity|].
      unfold getCameras. apply js_sort_elem_of, values_elem_of. eauto.
    + intros c Hc. apply list_elem_of_fmap in Hc as (c0 & -> & _). simpl.
      split; [reflexivity|]. destruct (truthy_str _); auto.
  - intros id camera E. unfold getCameraRoute, getCameraWithStats. run. rewrite E.
    eexists. split; reflexivity.
Qed.

Lemma get_routes_mask_witness :
  cameras (storage demo_world) !! "cam-1"
  = Some (demo_camera "cam-1" "rtsp://192.168.1.10/stream" "offline")
  /\ exists stats,
       getCameraWithStats (storage demo_world) "cam-1" = Some stats
       /\ getCameraRoute "cam-1" demo_world
          = Returned (Ok 200 {| cws_camera :=
                                  safeCamera (demo_camera "cam-1" "rtsp://192.168.1.10/stream"
                                                "offline");
                                recordingCount := recordingCount stats;
                                anprEventCount := anprEventCount stats;
                                isRecording := isRecording stats |}) demo_world.
Proof.
  split; [reflexivity|].
  apply (proj2 (@get_routes_mask demo demo_world) "cam-1"). reflexivity.
Defined.

Lemma takeSnapshot_run `{Platform} w id now outcome camera :
  cameras (storage w) !! id = Some camera ->
  let outputPath :=
    ("snapshots/" +:+ id) +:+ "/" +:+ "snapshot_" +:+ dash_colons_dots (toISOString now)
    +:+ ".jpg" in
  takeSnapshot id now outcome w
  = match resolveRtspUrl camera w with
    | Returned u _ =>
        let spawned := add_log (Spawn {| child_input := u; child_output := outputPath |}) w in
        match outcome with
        | Some size => Returned outputPath (set_files (<[outputPath := size]> (files w)) spawned)
        | None => Threw "FFmpeg exited" spawned
        end
    | Threw e _ => Threw e w
    end.
Proof.
  intros E. unfold takeSnapshot, getCamera. run. rewrite E.
  destruct (resolveRtspUrl_cases camera w) as [[u ->]|[e ->]]; [|reflexivity].
  destruct outcome; reflexivity.
Qed.

(** X25: a snapshot spawns one child on the resolved address and kills none;
    the store, the live children and the recordings are as before.  The
    route answers 200 with the path of the picture when the child exits with
    code 0, and 500 otherwise, also when the address does not resolve (and
    then no child is spawned). *)
Theorem snapshotRoute_outcome `{Platform} w id now outcome camera :
  cameras (storage w) !! id = Some camera ->
  let o := snapshotRoute id now outcome w in
  let outputPath :=
    ("snapshots/" +:+ id) +:+ "/" +:+ "snapshot_" +:+ dash_colons_dots (toISOString now)
    +:+ ".jpg" in
  storage (world_of o) = storage w
  /\ streams (world_of o) = streams w
  /\ ff_recordings (world_of o) = ff_recordings w
  /\ match resolveRtspUrl camera w, outcome with
     | Returned u _, Some size =>
         result_of o = Some (Ok 200 outputPath)
         /\ new_actions w o = [Spawn {| child_input := u; child_output := outputPath |}]
         /\ files (world_of o) = <[outputPath := size]> (files w)
     | Returned u _, None =>
         result_of o = Some (Fail 500 "Failed to take snapshot")
         /\ new_actions w o = [Spawn {| child_input := u; child_output := outputPath |}]
         /\ files (world_of o) = files w
     | Threw _ _, _ =>
         o = Returned (Fail 500 "Failed to take snapshot") w
     end.
Proof.
  intros E o outputPath. subst o.
  destruct (resolveRtspUrl_cases camera w) as [[u Hu]|[e He]].
  - rewrite Hu. unfold snapshotRoute, getCamera. run. rewrite E.
    rewrite (takeSnapshot_run w id now outcome camera E), Hu. cbv zeta.
    destruct outcome as [size|]; cbn [world_of result_of].
    + do 3 (split; [reflexivity|]). split; [reflexivity|].
      split; [apply new_actions_appended; reflexivity | reflexivity].
    + do 3 (split; [reflexivity|]). split; [reflexivity|].
      split; [apply new_actions_appended; reflexivity | reflexivity].
  - rewrite He. unfold snapshotRoute, getCamera. run. rewrite E.
    rewrite (takeSnapshot_run w id now outcome camera E), He.
    cbn [world_of]. do 3 (split; [reflexivity|]). reflexivity.
Qed.

Lemma snapshotRoute_outcome_witness :
  cameras (storage demo_world) !! "cam-1"
  = Some (demo_camera "cam-1" "rtsp://192.168.1.10/stream" "offline")
  /\ streams (world_of (@snapshotRoute demo "cam-1" 5000 (Some 900) demo_world))
     = streams demo_world
  /\ result_of (@snapshotRoute demo "cam-1" 5000 (Some 900) demo_world)
     = Some (Ok 200 "snapshots/cam-1/snapshot_0T5000Z.jpg").
Proof.
  split; [reflexivity|].
  destruct (@snapshotRoute_outcome demo demo_world "cam-1" 5000 (Some 900)
              (demo_camera "cam-1" "rtsp://192.168.1.10/stream" "offline") eq_refl)
    as (_ & Hs & _ & H).
  split; [exact Hs|]. simpl in H. destruct H as [H _]. exact H.
Defined.

Lemma processCamera_returns cameraId frame reads w :
  processCamera cameraId frame reads w
  = Returned tt (world_of (processCamera cameraId frame reads w)).
Proof.
  unfold processCamera, processFrame, getCamera. unfold try_catch at 1. run.
  destruct (cameras (storage w) !! cameraId) as [camera|]; [|reflexivity].
  destruct (Camera.anpr camera) as [| |anpr]; try reflexivity.
  destruct (enabled anpr); [|reflexivity].
  destruct frame as [frame|]; [|reflexivity].
  match goal with |- context [for_each reads ?f ?w0] =>
    destruct (for_each_processDetection_events cameraId anpr frame reads w0) as (w1 & E & _)
  end.
  rewrite E. reflexivity.
Qed.

(** X26: the manual trigger [POST /api/anpr/process] answers 400 without a
    camera id and 200 with one, whatever the id: for a camera the store does
    not have, or one whose ANPR is not enabled, it answers 200 and nothing
    happens. *)
Theorem anprProcessRoute_outcome cameraId frame reads w :
  (truthy_str cameraId = false ->
   anprProcessRoute cameraId frame reads w = Returned (Fail 400 "Camera ID required") w)
  /\ (truthy_str cameraId = true ->
      result_of (anprProcessRoute cameraId frame reads w) = Some (Ok 200 (from_val "" cameraId))
      /\ (match cameras (storage w) !! from_val "" cameraId with
          | Some camera =>
              match Camera.anpr camera with
              | Val anpr => enabled anpr = false
              | _ => True
              end
          | None => True
          end ->
          world_of (anprProcessRoute cameraId frame reads w) = w)).
Proof.
  split.
  - intros Hc. unfold anprProcessRoute. unfold try_catch. rewrite Hc. reflexivity.
  - intros Hc. unfold anprProcessRoute. unfold try_catch at 1. rewrite Hc. run.
    rewrite processCamera_returns. cbn [world_of result_of]. split; [reflexivity|].
    intros Hidle. unfold processCamera, processFrame, getCamera. unfold try_catch. run.
    destruct (cameras (storage w) !! from_val "" cameraId) as [camera|]; [|reflexivity].
    destruct (Camera.anpr camera) as [| |anpr]; try reflexivity.
    rewrite Hidle. reflexivity.
Qed.

Lemma anprProcessRoute_outcome_witness :
  truthy_str (Val "cam-7") = true
  /\ result_of (anprProcessRoute (Val "cam-7") (Some demo_frame) [demo_read 4000 "evt-1"]
                  demo_world)
     = Some (Ok 200 "cam-7")
  /\ world_of (anprProcessRoute (Val "cam-7") (Some demo_frame) [demo_read 4000 "evt-1"]
                 demo_world)
     = demo_world
  /\ truthy_str (Val "") = false
  /\ anprProcessRoute (Val "") (Some demo_frame) [demo_read 4000 "evt-1"] demo_world
     = Returned (Fail 400 "Camera ID required") demo_world.
Proof.
  destruct (proj2 (anprProcessRoute_outcome (Val "cam-7") (Some demo_frame)
                     [demo_read 4000 "evt-1"] demo_world) eq_refl) as [H1 H2].
  split; [reflexivity|]. split; [exact H1|]. split; [apply H2; exact I|].
  split; [reflexivity|].
  apply (proj1 (anprProcessRoute_outcome (Val "") (Some demo_frame)
                  [demo_read 4000 "evt-1"] demo_world)).
  reflexivity.
Defined.
Lemma probe_connected `{Platform} camera :
  derived_status camera = "online" ->
  probeRTSPStream (Camera.rtspUrl camera) (Camera.username camera)
    (Camera.encryptedPassword camera)
  = {| connected := true;
       probe_metadata := Some {| fps := 25; bitrate := 2000; resolution := "1920x1080" |};
       probe_error := Undefined |}.
Proof.
  unfold derived_status, probeRTSPStream.
  destruct (_ && negb _); simpl; [discriminate|].
  destruct (simulateNetworkCheck _); simpl; [reflexivity | discriminate].
Qed.

Lemma checkCamera_comes_online `{Platform} w id camera u :
  cameras (storage w) !! id = Some camera ->
  Camera.status camera <> "online" ->
  derived_status camera = "online" ->
  resolveRtspUrl camera w = Returned u w ->
  let f := {| event := "camera-status";
              data := PCameraStatus id "online"
                        (Some {| fps := 25; bitrate := 2000; resolution := "1920x1080" |})
                        Undefined |} in
  checkCamera id w
  = Returned tt
      (started_world
         (stopped_world (append_log (Broadcast f :: sends (wsClients w) f) (add_log (Emit f) w))
            id) id u).
Proof.
  intros E Hs Hd Hu f. unfold checkCamera, getCamera. unfold try_catch at 1. run. rewrite E.
  rewrite (probe_connected camera Hd). cbn [connected probe_metadata probe_error].
  apply String.eqb_neq in Hs. rewrite Hs. cbn [negb andb String.eqb Ascii.eqb Bool.eqb].
  unfold emit, broadcast. run.
  match goal with |- context [startHLSStream id ?w0] =>
    rewrite (startHLSStream_started w0 id camera E);
    rewrite (resolveRtspUrl_any_world camera w (stopped_world w0 id)), Hu
  end.
  reflexivity.
Qed.

(** X27: the status of a row is never written, so a camera whose row does not
    say [online] and whose probe succeeds comes online at every check: each
    check emits the event and replaces the live child, the second one killing
    the child the first one spawned. *)
Theorem checkCamera_restarts_every_check `{Platform} w id camera u :
  cameras (storage w) !! id = Some camera ->
  Camera.status camera <> "online" ->
  derived_status camera = "online" ->
  resolveRtspUrl camera w = Returned u w ->
  let o1 := checkCamera id w in
  let o2 := checkCamera id (world_of o1) in
  let f := {| event := "camera-status";
              data := PCameraStatus id "online"
                        (Some {| fps := 25; bitrate := 2000; resolution := "1920x1080" |})
                        Undefined |} in
  new_actions w o1
  = Emit f :: Broadcast f :: sends (wsClients w) f
    ++ stream_kills w id ++ [Spawn (live_child id u)]
  /\ new_actions (world_of o1) o2
     = Emit f :: Broadcast f :: sends (wsClients w) f
       ++ [Kill (live_child id u); Spawn (live_child id u)]
  /\ storage (world_of o2) = storage w
  /\ streams (world_of o2) !! id = Some (live_child id u).
Proof.
  intros E Hs Hd Hu o1 o2 f. subst o1 o2.
  rewrite (checkCamera_comes_online w id camera u E Hs Hd Hu). cbn [world_of].
  match goal with |- context [checkCamera id ?x] => set (w1 := x) end.
  assert (E1 : cameras (storage w1) !! id = Some camera).
  { unfold w1. simpl. rewrite stopped_world_storage. exact E. }
  assert (Hu1 : resolveRtspUrl camera w1 = Returned u w1).
  { rewrite (resolveRtspUrl_any_world camera w w1), Hu. reflexivity. }
  rewrite (checkCamera_comes_online w1 id camera u E1 Hs Hd Hu1).
  assert (Hk : streams w1 !! id = Some (live_child id u)) by (simpl; apply lookup_insert_eq).
  assert (Hws : wsClients w1 = wsClients w).
  { unfold w1. simpl. rewrite stopped_world_wsClients. reflexivity. }
  assert (Hst : storage w1 = storage w).
  { unfold w1. simpl. rewrite stopped_world_storage. reflexivity. }
  assert (Hl : log w1 = log w ++ Emit f :: Broadcast f :: sends (wsClients w) f
                        ++ stream_kills w id ++ [Spawn (live_child id u)]).
  { unfold w1. simpl. rewrite stopped_world_log. simpl. rewrite <- !app_assoc. reflexivity. }
  clearbody w1.
  split; [apply new_actions_appended, Hl|].
  split; [|split].
  - apply new_actions_appended. cbn [log started_world set_streams add_log append_log].
    rewrite stopped_world_log. cbn [log add_log append_log].
    unfold stream_kills. cbn [streams append_log add_log]. rewrite Hk, Hws.
    rewrite <- !app_assoc. reflexivity.
  - cbn [world_of storage started_world set_streams add_log append_log].
    rewrite stopped_world_storage. exact Hst.
  - cbn [world_of streams started_world set_streams]. apply lookup_insert_eq.
Qed.

Lemma checkCamera_restarts_every_check_witness :
  cameras (storage demo_world) !! "cam-1"
  = Some (demo_camera "cam-1" "rtsp://192.168.1.10/stream" "offline")
  /\ "offline" <> "online"
  /\ @derived_status demo (demo_camera "cam-1" "rtsp://192.168.1.10/stream" "offline") = "online"
  /\ is_kill
       <$> new_actions (world_of (@checkCamera demo "cam-1" demo_world))
             (@checkCamera demo "cam-1" (world_of (@checkCamera demo "cam-1" demo_world)))
     = [false; false; false; true; false].
Proof.
  split; [reflexivity|]. split; [discriminate|]. split; [reflexivity|].
  destruct (@checkCamera_restarts_every_check demo demo_world "cam-1"
              (demo_camera "cam-1" "rtsp://192.168.1.10/stream" "offline")
              "rtsp://192.168.1.10/stream" eq_refl) as (_ & H2 & _);
    [discriminate | reflexivity | reflexivity |].
  rewrite H2. reflexivity.
Defined.
(** ** A tick as it runs *)

Ltac run_in H :=
  repeat progress
    (unfold mbind, M_bind, mret, M_ret, gets, modify, throw, try_catch, try_finally,
       on_storage in H;
     cbn beta iota in H).

Lemma for_each_steps_atomic cameraId anpr frame reads w :
  for_each ((fun r => (fun w : World => w, r)) <$> reads)
    (fun step => modify (fst step);; processDetection cameraId anpr frame (snd step)) w
  = for_each reads (processDetection cameraId anpr frame) w.
Proof.
  revert w. induction reads as [|r reads IH]; intros w; [reflexivity|].
  simpl. run. destruct (processDetection cameraId anpr frame r w) as [[] w1|e w1];
    [apply IH | reflexivity].
Qed.

(** [processFrame] is the tick during which nothing else happens. *)
Lemma processFrame_atomic cameraId frame reads w :
  processFrame cameraId frame reads w
  = processFrameAsync cameraId (fun w => w) frame (fun w => w)
      ((fun r => (fun w : World => w, r)) <$> reads) w.
Proof.
  unfold processFrame, processFrameAsync, readPolicy, getCamera. run.
  destruct (cameras (storage w) !! cameraId) as [camera|]; [|reflexivity].
  destruct (Camera.anpr camera) as [| |anpr]; [reflexivity..|].
  destruct (enabled anpr); [|reflexivity].
  destruct frame as [frame|]; [|reflexivity].
  match goal with |- context [for_each reads _ ?w0] =>
    pose proof (for_each_steps_atomic cameraId anpr frame reads w0) as E
  end.
  run_in E. rewrite E. reflexivity.
Qed.

(** The events a run of the detection loop leaves in the store, when other
    work is handled before each read: those that were there, those the other
    work stored, and those of reads the policy in hand accepts. *)
Lemma for_each_steps_events cameraId anpr frame steps i e :
  (forall f w1, f ∈ steps.*1 ->
     anprEvents (storage (f w1)) !! i = Some e -> anprEvents (storage w1) !! i = Some e) ->
  forall w,
  exists w',
    for_each steps
      (fun step => modify (fst step);; processDetection cameraId anpr frame (snd step)) w
    = Returned tt w'
    /\ (anprEvents (storage w') !! i = Some e ->
        anprEvents (storage w) !! i = Some e
        \/ exists r, r ∈ steps.*2 /\ accepted anpr r = true /\ e = event_of cameraId frame r).
Proof.
  induction steps as [|[f r] steps IH]; intros Hothers w.
  - exists w. split; [reflexivity|]. auto.
  - simpl. run.
    destruct (for_each_processDetection_events cameraId anpr frame [r] (f w))
      as (w1 & E1 & Hev1).
    simpl in E1. run_in E1.
    destruct (processDetection cameraId anpr frame r (f w)) as [[] w1'|msg w1'] eqn:Ed;
      [|discriminate].
    injection E1 as ->.
    destruct (IH (fun g w0 Hg => Hothers g w0 (list_elem_of_further _ _ _ Hg)) w1)
      as (w2 & E2 & Hev2).
    exists w2. split; [exact E2|].
    intros Hi. destruct (Hev2 Hi) as [Hin|(r' & Hr' & Hacc & ->)].
    + destruct (Hev1 i e Hin) as [Hf|(r' & Hr' & Hacc & ->)].
      * left. apply (Hothers f w); [apply list_elem_of_here | exact Hf].
      * right. exists r'. apply list_elem_of_singleton in Hr' as ->.
        split; [apply list_elem_of_here|]. split; [exact Hacc | reflexivity].
    + right. exists r'. split; [apply list_elem_of_further, Hr'|].
      split; [exact Hacc | reflexivity].
Qed.

(** An update of a camera leaves the plate events alone. *)
Lemma putCamera_anprEvents `{Platform} id body iv now w :
  anprEvents (storage (world_of (putCamera id body iv now w))) = anprEvents (storage w).
Proof.
  assert (HP : preserves (fun w' => anprEvents (storage w') = anprEvents (storage w))
                 (putCamera id body iv now)).
  { unfold putCamera, restartStream, startHLSStream, stopStream, resolveRtspUrl, broadcast,
      parse_or_throw.
    preserve.
    all: try (intros w0 Hw0; exact Hw0).
    intros w0 Hw0. simpl. unfold updateCamera.
    destruct (cameras (storage w0) !! id); exact Hw0. }
  apply HP. reflexivity.
Qed.

(** C1 (as the code has it): an event row that is in the store after a tick,
    was not there before, and was not stored by the other work handled while
    the tick waited for the frame, the detector or the text, carries a plate
    that was extracted (not empty) and a confidence at or above the threshold
    the camera had when the tick began ([confidenceThreshold || 0.8] of the
    policy read at the start, hence also at or above the threshold configured
    then).  The policy is not read again: what an update changes during the
    tick does not count for it. *)
Theorem processFrameAsync_events_meet_read_threshold
    cameraId during_extract frame during_detect steps w i e :
  let w' :=
    world_of (processFrameAsync cameraId during_extract frame during_detect steps w) in
  (forall f w1, f ∈ during_extract :: during_detect :: steps.*1 ->
     anprEvents (storage (f w1)) !! i = Some e -> anprEvents (storage w1) !! i = Some e) ->
  anprEvents (storage w') !! i = Some e ->
  anprEvents (storage w) !! i = Some e
  \/ exists camera anpr,
       cameras (storage w) !! cameraId = Some camera
       /\ Camera.anpr camera = Val anpr
       /\ enabled anpr = true
       /\ AnprEvent.plate e <> ""
       /\ (or_defaultQ (confidenceThreshold anpr) DEFAULT_CONFIDENCE_THRESHOLD
           <= AnprEvent.confidence e)%Q
       /\ (forall t, confidenceThreshold anpr = Some t -> (t <= AnprEvent.confidence e)%Q).
Proof.
  intros w' Hothers. subst w'. unfold processFrameAsync, readPolicy, getCamera. run.
  destruct (cameras (storage w) !! cameraId) as [camera|] eqn:Hc; [|left; assumption].
  destruct (Camera.anpr camera) as [| |anpr] eqn:Ha; [left; assumption..|].
  destruct (enabled anpr) eqn:He; [|left; assumption].
  assert (Hextract : anprEvents (storage (during_extract w)) !! i = Some e ->
                     anprEvents (storage w) !! i = Some e).
  { apply Hothers, list_elem_of_here. }
  destruct frame as [frame|]; [|intros Hi; left; apply Hextract, Hi].
  set (w1 := set_files _ (during_extract w)).
  assert (Hdetect : anprEvents (storage (during_detect w1)) !! i = Some e ->
                    anprEvents (storage w) !! i = Some e).
  { intros Hi. apply Hextract. apply (Hothers during_detect w1) in Hi; [exact Hi|].
    apply list_elem_of_further, list_elem_of_here. }
  destruct (for_each_steps_events cameraId anpr frame steps i e
              (fun g w0 Hg => Hothers g w0
                                (list_elem_of_further _ _ _ (list_elem_of_further _ _ _ Hg)))
              (during_detect w1)) as (w2 & E & Hev).
  run_in E. rewrite E.
  destruct (discardFrame_keeps (framePath frame) w2) as (l & _ & _ & Hs & _).
  cbn [world_of]. rewrite Hs. intros Hi.
  destruct (Hev Hi) as [Hin|(r & _ & Hacc & ->)]; [left; apply Hdetect, Hin|].
  right. exists camera, anpr.
  destruct (accepted_threshold anpr r Hacc) as (Hplate & Heff & Hthr).
  repeat split; assumption.
Qed.

Lemma processFrameAsync_events_meet_read_threshold_witness :
  anprEvents (storage (world_of (interrupted_tick demo_world))) !! "evt-1"
  = Some (event_of "cam-1" demo_frame (demo_read 4000 "evt-1"))
  /\ anprEvents (storage demo_world) !! "evt-1" = None
  /\ exists camera anpr,
       cameras (storage demo_world) !! "cam-1" = Some camera
       /\ Camera.anpr camera = Val anpr
       /\ confidenceThreshold anpr = Some (8 # 10)
       /\ (8 # 10 <= AnprEvent.confidence (event_of "cam-1" demo_frame (demo_read 4000 "evt-1")))%Q.
Proof.
  assert (Hstored : anprEvents (storage (world_of (interrupted_tick demo_world))) !! "evt-1"
                    = Some (event_of "cam-1" demo_frame (demo_read 4000 "evt-1")))
    by (vm_compute; reflexivity).
  split; [exact Hstored|]. split; [reflexivity|].
  destruct (processFrameAsync_events_meet_read_threshold "cam-1" (fun w => w)
              (Some demo_frame) (fun w => w) [(raise_threshold, demo_read 4000 "evt-1")]
              demo_world "evt-1" (event_of "cam-1" demo_frame (demo_read 4000 "evt-1")))
    as [Hold|(camera & anpr & Hc & Ha & _ & _ & _ & Hthr)].
  - intros f w1 Hf Hi.
    apply elem_of_cons in Hf as [->|Hf]; [exact Hi|].
    apply elem_of_cons in Hf as [->|Hf]; [exact Hi|].
    apply list_elem_of_singleton in Hf as ->.
    unfold raise_threshold in Hi. cbn beta iota delta [fst] in Hi.
    rewrite putCamera_anprEvents in Hi. exact Hi.
  - exact Hstored.
  - vm_compute in Hold. discriminate.
  - exists camera, anpr. split; [exact Hc|]. split; [exact Ha|].
    assert (Hrow : Some camera = Some (demo_camera "cam-1" "rtsp://192.168.1.10/stream" "offline"))
      by (rewrite <- Hc; reflexivity).
    injection Hrow as ->. injection Ha as <-. split; [reflexivity|].
    apply Hthr. reflexivity.
Defined.

(** C1 (as stated) fails: while the tick on [cam-1] waits for the text of a
    detection of confidence 0.9, an update raises the threshold of the camera
    from 0.8 to 0.95; the tick stores the event all the same, in a world where
    the camera is configured with 0.95. *)
Lemma processFrameAsync_below_threshold_at_creation :
  ~ (forall i e,
       anprEvents (storage (world_of (interrupted_tick demo_world))) !! i = Some e ->
       anprEvents (storage demo_world) !! i = Some e
       \/ exists camera anpr,
            cameras (storage world_at_creation) !! "cam-1" = Some camera
            /\ Camera.anpr camera = Val anpr
            /\ (forall t, confidenceThreshold anpr = Some t -> (t <= AnprEvent.confidence e)%Q)).
Proof.
  intros Hclaim.
  destruct (Hclaim "evt-1" (event_of "cam-1" demo_frame (demo_read 4000 "evt-1")))
    as [Hold|(camera & anpr & Hc & Ha & Hthr)].
  - vm_compute. reflexivity.
  - vm_compute in Hold. discriminate.
  - vm_compute in Hc. injection Hc as <-. injection Ha as <-.
    specialize (Hthr (95 # 100) eq_refl). vm_compute in Hthr. apply Hthr. reflexivity.
Qed.
(** ** The frames of a create and of an update *)




